(** * Inteliome metadata validator: schema and semantics validation

    A shallow embedding of [validator/schema_validator.py] and
    [validator/semantics_validator.py], together with the pieces of the
    Python runtime they rely on ([re.match], [str.split], [str.strip],
    [in], subscripting, truthiness, [try]/[except]), and the properties of
    the validators stated over it.

    Conventions.
    - A parsed YAML document is a [value]: None, bool, int, str, list or a
      mapping with string keys kept in insertion order.  Floats and
      timestamps are outside the model.
    - A Python [str] is a [string]; a character is a code point below 256
      (Latin-1), the classes [\w] and [\s] follow Unicode on that range.
    - The only state shared between calls is the logger: a computation is
      a function from the records logged so far to a result (normal return
      or raised exception) and the records logged afterwards. *)

From Stdlib Require Import List String Ascii Bool ZArith Lia.
Import ListNotations.
Local Open Scope string_scope.
Local Open Scope list_scope.

Set Implicit Arguments.

(* ================================================================= *)
(** ** Characters and strings *)

Definition chars (s : string) : list ascii := list_ascii_of_string s.
Definition str (l : list ascii) : string := string_of_list_ascii l.

Definition code (c : ascii) : nat := nat_of_ascii c.

Definition in_range (lo hi : nat) (c : ascii) : bool :=
  (lo <=? code c)%nat && (code c <=? hi)%nat.

Definition is_ascii_upper (c : ascii) : bool := in_range 65 90 c.
Definition is_ascii_lower (c : ascii) : bool := in_range 97 122 c.
Definition is_ascii_digit (c : ascii) : bool := in_range 48 57 c.

(** [str.isalnum]-style test used by [\w] on [str] patterns: letters,
    decimal digits and numeric characters; below 256 these are the ASCII
    alphanumerics and the Latin-1 letters, superscript digits and vulgar
    fractions. *)
Definition is_alnum (c : ascii) : bool :=
  is_ascii_upper c || is_ascii_lower c || is_ascii_digit c
  || (code c =? 170)%nat || (code c =? 178)%nat || (code c =? 179)%nat
  || (code c =? 181)%nat || (code c =? 185)%nat || (code c =? 186)%nat
  || in_range 188 190 c
  || in_range 192 214 c || in_range 216 246 c || in_range 248 255 c.

(** [\w]: alphanumeric or underscore. *)
Definition is_word (c : ascii) : bool := is_alnum c || (code c =? 95)%nat.

(** [\s] and [str.isspace]: TAB, LF, VT, FF, CR, FS, GS, RS, US, space,
    NEL and NBSP. *)
Definition is_space (c : ascii) : bool :=
  in_range 9 13 c || in_range 28 32 c
  || (code c =? 133)%nat || (code c =? 160)%nat.

Definition ascii_lower (c : ascii) : ascii :=
  if is_ascii_upper c then ascii_of_nat (code c + 32) else c.

Definition ascii_upper (c : ascii) : ascii :=
  if is_ascii_lower c then ascii_of_nat (code c - 32) else c.

Definition newline : ascii := ascii_of_nat 10.

(* ================================================================= *)
(** ** Regular expressions: the fragment of [re] the validators use *)

Module Re.

(** One item of a bracket expression [[...]]. *)
Inductive item : Type :=
| IChar (c : ascii)            (* a literal or escaped character *)
| IRange (lo hi : ascii)       (* [lo-hi] *)
| IWord                        (* [\w] *)
| ISpace.                      (* [\s] *)

Inductive regex : Type :=
| Never                        (* matches nothing; residue of a derivative *)
| Eps                          (* the empty pattern *)
| Bol                          (* [^] *)
| Eol                          (* [$] *)
| Lit (c : ascii)              (* a literal character *)
| Set_ (items : list item)     (* [[...]], also [\w] and [\s] alone *)
| Cat (r1 r2 : regex)
| Alt (r1 r2 : regex)
| Star (r : regex).

Definition Plus (r : regex) : regex := Cat r (Star r).

(** A literal word, character by character. *)
Fixpoint lit_chars (l : list ascii) : regex :=
  match l with
  | [] => Eps
  | [c] => Lit c
  | c :: l' => Cat (Lit c) (lit_chars l')
  end.

Definition Word (s : string) : regex := lit_chars (chars s).

(** [r1|r2|...|rn] for a non-empty list. *)
Fixpoint alts (rs : list regex) : regex :=
  match rs with
  | [] => Never
  | [r] => r
  | r :: rs' => Alt r (alts rs')
  end.

(** [ic] is the IGNORECASE flag.  The patterns compiled with it contain
    ASCII literals only, for which case folding below 256 is ASCII case
    folding. *)
Definition lit_matches (ic : bool) (c x : ascii) : bool :=
  Ascii.eqb x c || (ic && Ascii.eqb (ascii_lower x) (ascii_lower c)).

Definition item_matches (ic : bool) (i : item) (x : ascii) : bool :=
  match i with
  | IChar c => lit_matches ic c x
  | IRange lo hi =>
      in_range (code lo) (code hi) x
      || (ic && (in_range (code lo) (code hi) (ascii_lower x)
                 || in_range (code lo) (code hi) (ascii_upper x)))
  | IWord => is_word x
  | ISpace => is_space x
  end.

Definition set_matches (ic : bool) (items : list item) (x : ascii) : bool :=
  existsb (fun i => item_matches ic i x) items.

(** [$] without MULTILINE holds at the end of the string and just before a
    newline that ends the string. *)
Definition is_eol (rest : list ascii) : bool :=
  match rest with
  | [] => true
  | [c] => Ascii.eqb c newline
  | _ => false
  end.

(** Can [r] match the empty string at a position where [bol] tells whether
    it is the start of the string and [eol] whether [$] holds there? *)
Fixpoint nullable (bol eol : bool) (r : regex) : bool :=
  match r with
  | Never => false
  | Eps => true
  | Bol => bol
  | Eol => eol
  | Lit _ => false
  | Set_ _ => false
  | Cat r1 r2 => nullable bol eol r1 && nullable bol eol r2
  | Alt r1 r2 => nullable bol eol r1 || nullable bol eol r2
  | Star _ => true
  end.

Definition cat (r1 r2 : regex) : regex :=
  match r1, r2 with
  | Never, _ => Never
  | _, Never => Never
  | Eps, _ => r2
  | _, _ => Cat r1 r2
  end.

Definition alt (r1 r2 : regex) : regex :=
  match r1, r2 with
  | Never, _ => r2
  | _, Never => r1
  | _, _ => Alt r1 r2
  end.

(** What is left of [r] after it has consumed [x] at a position described
    by [bol] and [eol]. *)
Fixpoint deriv (ic bol eol : bool) (x : ascii) (r : regex) : regex :=
  match r with
  | Never | Eps | Bol | Eol => Never
  | Lit c => if lit_matches ic c x then Eps else Never
  | Set_ items => if set_matches ic items x then Eps else Never
  | Cat r1 r2 =>
      alt (cat (deriv ic bol eol x r1) r2)
          (if nullable bol eol r1 then deriv ic bol eol x r2 else Never)
  | Alt r1 r2 => alt (deriv ic bol eol x r1) (deriv ic bol eol x r2)
  | Star r1 => cat (deriv ic bol eol x r1) (Star r1)
  end.

(** Does [r] match some prefix of [s]?  [bol] tells whether [s] starts at
    the beginning of the subject string. *)
Fixpoint match_from (ic bol : bool) (r : regex) (s : list ascii) : bool :=
  nullable bol (is_eol s) r
  || match s with
     | [] => false
     | x :: s' => match_from ic false (deriv ic bol (is_eol s) x r) s'
     end.

(** [re.match(pattern, s, flags) is not None]. *)
Definition re_match (ic : bool) (r : regex) (s : string) : bool :=
  match_from ic true r (chars s).

(** *** What a pattern denotes

    [Matches ic bol r p q]: [r] matches [p] when [p] is followed by [q] in
    the subject string; [bol] tells whether [p] starts the subject. *)

Definition bol_after (bol : bool) (p : list ascii) : bool :=
  match p with
  | [] => bol
  | _ :: _ => false
  end.

Inductive Matches (ic : bool) : bool -> regex -> list ascii -> list ascii -> Prop :=
| MEps bol q : Matches ic bol Eps [] q
| MBol q : Matches ic true Bol [] q
| MEol bol q : is_eol q = true -> Matches ic bol Eol [] q
| MLit bol c x q : lit_matches ic c x = true -> Matches ic bol (Lit c) [x] q
| MSet bol items x q :
    set_matches ic items x = true -> Matches ic bol (Set_ items) [x] q
| MCat bol r1 r2 p1 p2 q :
    Matches ic bol r1 p1 (p2 ++ q) ->
    Matches ic (bol_after bol p1) r2 p2 q ->
    Matches ic bol (Cat r1 r2) (p1 ++ p2) q
| MAltL bol r1 r2 p q : Matches ic bol r1 p q -> Matches ic bol (Alt r1 r2) p q
| MAltR bol r1 r2 p q : Matches ic bol r2 p q -> Matches ic bol (Alt r1 r2) p q
| MStar0 bol r q : Matches ic bol (Star r) [] q
| MStarS bol r x p1 p2 q :
    Matches ic bol r (x :: p1) (p2 ++ q) ->
    Matches ic false (Star r) p2 q ->
    Matches ic bol (Star r) ((x :: p1) ++ p2) q.

End Re.

(* ================================================================= *)
(** ** Python values, exceptions and the logger *)

(** A parsed YAML document.  Mappings keep their keys in insertion order;
    the loader ([DuplicateKeyLoader]) hands over no mapping with a key
    twice. *)
#[warnings="-register-all"]
Inductive value : Type :=
| VNone
| VBool (b : bool)
| VInt (n : Z)
| VStr (s : string)
| VList (l : list value)
| VDict (d : list (string * value)).

(** The four violation classes of [exceptions/] (both modules declare the
    same four, each validator raises its own module's), [ValueError], and
    the interpreter faults the validators can run into.  The violation
    classes keep the arguments their constructors are given. *)
Inductive exn : Type :=
| MissingKeyError (key : value)
| EmptyValueError (attribute key : value)
| InvalidFormatError (key expected_type : value)
| InvalidKeyError (key valid_keys : value)
| ValueError (msg : string)
| TypeError
| KeyError (key : string)
| IndexError
| AttributeError.

(** A recognised violation: one of the four classes of the taxonomy. *)
Definition is_violation (e : exn) : bool :=
  match e with
  | MissingKeyError _ | EmptyValueError _ _
  | InvalidFormatError _ _ | InvalidKeyError _ _ => true
  | _ => false
  end.

(** An f-string, piece by piece. *)
Inductive frag : Type :=
| Txt (s : string)             (* literal text *)
| Fmt (v : value)              (* [{v}] *)
| FmtExn (e : exn).            (* [{e}] for a caught exception *)

Inductive level : Type := INFO | ERROR.

(** One call of [logger.info], [logger.error] or [logger.exception]; the
    last logs at level ERROR and attaches the exception being handled. *)
Record record : Type := Record_ {
  lvl : level;
  message : list frag;
  exc_info : option exn
}.

Definition logger : Type := list record.

Inductive result (A : Type) : Type :=
| Returned (a : A)
| Raised (e : exn).
Arguments Raised {A} e.

(** A computation reads and extends the logger and returns or raises. *)
Definition M (A : Type) : Type := logger -> result A * logger.

Definition ret {A} (a : A) : M A := fun st => (Returned a, st).
Definition raise {A} (e : exn) : M A := fun st => (Raised e, st).
Definition bind {A B} (m : M A) (f : A -> M B) : M B :=
  fun st =>
    match m st with
    | (Returned a, st') => f a st'
    | (Raised e, st') => (Raised e, st')
    end.

Declare Scope py_scope.
Delimit Scope py_scope with py.
Notation "x <- m ;; k" := (bind m (fun x => k))
  (at level 61, m at next level, right associativity) : py_scope.
Notation "m ;; k" := (bind m (fun _ => k))
  (at level 61, right associativity) : py_scope.
Local Open Scope py_scope.

Definition emit (r : record) : M unit := fun st => (Returned tt, st ++ [r]).
Definition info (msg : list frag) : M unit := emit (Record_ INFO msg None).
Definition error (msg : list frag) : M unit := emit (Record_ ERROR msg None).
Definition exception (msg : list frag) (e : exn) : M unit :=
  emit (Record_ ERROR msg (Some e)).

(** [for x in l: body(x)] *)
Fixpoint for_each {A} (l : list A) (body : A -> M unit) : M unit :=
  match l with
  | [] => ret tt
  | x :: l' => body x ;; for_each l' body
  end.

(** A loop that carries a mutable local along. *)
Fixpoint for_fold {A S} (l : list A) (s : S) (body : S -> A -> M S) : M S :=
  match l with
  | [] => ret s
  | x :: l' => s' <- body s x ;; for_fold l' s' body
  end.

(** A comprehension whose element expression can raise. *)
Fixpoint map_m {A B} (f : A -> M B) (l : list A) : M (list B) :=
  match l with
  | [] => ret []
  | x :: l' => y <- f x ;; ys <- map_m f l' ;; ret (y :: ys)
  end.

(** A comprehension with a condition that can raise. *)
Fixpoint filter_m {A} (f : A -> M bool) (l : list A) : M (list A) :=
  match l with
  | [] => ret []
  | x :: l' =>
      b <- f x ;; ys <- filter_m f l' ;; ret (if b then x :: ys else ys)
  end.

(** [try: body  except ...: handler]; the handler re-raises what no
    clause catches. *)
Definition try_except {A} (body : M A) (handler : exn -> M A) : M A :=
  fun st =>
    match body st with
    | (Returned a, st') => (Returned a, st')
    | (Raised e, st') => handler e st'
    end.

(* ----------------------------------------------------------------- *)
(** *** Built-in operations *)

Fixpoint lookup (k : string) (d : list (string * value)) : option value :=
  match d with
  | [] => None
  | (k', v) :: d' => if String.eqb k k' then Some v else lookup k d'
  end.

Definition has (k : string) (d : list (string * value)) : bool :=
  match lookup k d with Some _ => true | None => false end.

Definition keys (d : list (string * value)) : list string := map fst d.
Definition values (d : list (string * value)) : list value := map snd d.

Definition mem (k : string) (l : list string) : bool :=
  existsb (String.eqb k) l.

(** [==] on values: [True == 1], sequences element by element, mappings
    regardless of the order of their keys. *)
Fixpoint py_eq (a b : value) {struct a} : bool :=
  match a, b with
  | VNone, VNone => true
  | VBool x, VBool y => Bool.eqb x y
  | VBool x, VInt n => Z.eqb (Z.b2z x) n
  | VInt n, VBool y => Z.eqb n (Z.b2z y)
  | VInt n, VInt m => Z.eqb n m
  | VStr s, VStr t => String.eqb s t
  | VList l, VList m =>
      (fix go (l m : list value) : bool :=
         match l, m with
         | [], [] => true
         | x :: l', y :: m' => py_eq x y && go l' m'
         | _, _ => false
         end) l m
  | VDict d, VDict e =>
      Nat.eqb (List.length d) (List.length e)
      && (fix go (d : list (string * value)) : bool :=
            match d with
            | [] => true
            | (k, v) :: d' =>
                match lookup k e with
                | Some w => py_eq v w
                | None => false
                end && go d'
            end) d
  | _, _ => false
  end.

(** Truthiness: [bool(v)]. *)
Definition truthy (v : value) : bool :=
  match v with
  | VNone => false
  | VBool b => b
  | VInt n => negb (Z.eqb n 0)
  | VStr s => negb (String.eqb s EmptyString)
  | VList l => match l with [] => false | _ => true end
  | VDict d => match d with [] => false | _ => true end
  end.

Definition hashable (v : value) : bool :=
  match v with
  | VList _ | VDict _ => false
  | _ => true
  end.

Definition is_dict (v : value) : bool :=
  match v with VDict _ => true | _ => false end.
Definition is_list (v : value) : bool :=
  match v with VList _ => true | _ => false end.
Definition is_str (v : value) : bool :=
  match v with VStr _ => true | _ => false end.
Definition is_bool (v : value) : bool :=
  match v with VBool _ => true | _ => false end.
Definition is_none (v : value) : bool :=
  match v with VNone => true | _ => false end.

(** [type(v).__name__] *)
Definition type_name (v : value) : string :=
  match v with
  | VNone => "NoneType"
  | VBool _ => "bool"
  | VInt _ => "int"
  | VStr _ => "str"
  | VList _ => "list"
  | VDict _ => "dict"
  end.

Fixpoint is_prefix (p s : list ascii) : bool :=
  match p, s with
  | [], _ => true
  | _ :: _, [] => false
  | a :: p', b :: s' => Ascii.eqb a b && is_prefix p' s'
  end.

(** [p in s] for two strings. *)
Fixpoint is_infix (p s : list ascii) : bool :=
  is_prefix p s
  || match s with
     | [] => false
     | _ :: s' => is_infix p s'
     end.

(** [x in c] *)
Definition py_in (x c : value) : M bool :=
  match c with
  | VDict d =>
      match x with
      | VStr k => ret (has k d)
      | VList _ | VDict _ => raise TypeError      (* unhashable *)
      | _ => ret false
      end
  | VList l => ret (existsb (py_eq x) l)
  | VStr s =>
      match x with
      | VStr p => ret (is_infix (chars p) (chars s))
      | _ => raise TypeError
      end
  | _ => raise TypeError                          (* not iterable *)
  end.

(** [x in c] for a set [c], kept as the list of its elements. *)
Definition set_in (x : value) (c : list value) : M bool :=
  if hashable x then ret (existsb (py_eq x) c) else raise TypeError.

(** [c[k]] for a string [k]. *)
Definition py_getitem (c : value) (k : string) : M value :=
  match c with
  | VDict d =>
      match lookup k d with
      | Some v => ret v
      | None => raise (KeyError k)
      end
  | _ => raise TypeError
  end.

(** [c.get(k, default)] *)
Definition py_get (c : value) (k : string) (default : value) : M value :=
  match c with
  | VDict d =>
      match lookup k d with
      | Some v => ret v
      | None => ret default
      end
  | _ => raise AttributeError
  end.

(** [list(c.keys())] *)
Definition py_keys (c : value) : M (list string) :=
  match c with
  | VDict d => ret (keys d)
  | _ => raise AttributeError
  end.

(** The elements a [for] loop or a comprehension visits. *)
Definition py_iter (c : value) : M (list value) :=
  match c with
  | VList l => ret l
  | VDict d => ret (map VStr (keys d))
  | VStr s => ret (map (fun c => VStr (String c EmptyString)) (chars s))
  | _ => raise TypeError
  end.

(** [sep.join(l)] *)
Fixpoint py_join (sep : string) (l : list value) : M string :=
  match l with
  | [] => ret EmptyString
  | [VStr s] => ret s
  | VStr s :: l' => r <- py_join sep l' ;; ret (s ++ sep ++ r)%string
  | _ :: _ => raise TypeError
  end.

Fixpoint drop_space (l : list ascii) : list ascii :=
  match l with
  | [] => []
  | c :: l' => if is_space c then drop_space l' else l
  end.

(** [s.strip()] *)
Definition strip (s : string) : string :=
  str (rev (drop_space (rev (drop_space (chars s))))).

(** [s.split(sep)] for a one-character separator. *)
Fixpoint split_chars (sep : ascii) (l : list ascii) : list (list ascii) :=
  match l with
  | [] => [[]]
  | c :: l' =>
      if Ascii.eqb c sep then [] :: split_chars sep l'
      else match split_chars sep l' with
           | [] => [[c]]
           | w :: ws => (c :: w) :: ws
           end
  end.

Definition split (sep : ascii) (s : string) : list string :=
  map str (split_chars sep (chars s)).

(** [name.rfind('.')] as the number of characters before the last dot. *)
Fixpoint rfind_dot (l : list ascii) : option nat :=
  match l with
  | [] => None
  | c :: l' =>
      match rfind_dot l' with
      | Some i => Some (S i)
      | None => if Ascii.eqb c "." then Some 0%nat else None
      end
  end.

(** [Path(s).name] (POSIX paths): the last component of [s] that is
    neither empty nor [.]; the empty string when there is none. *)
Definition path_name (s : string) : string :=
  last (filter (fun p => negb (String.eqb p EmptyString || String.eqb p "."))
          (split "/" s))
       EmptyString.

(** [Path(s).stem]: the name without its last suffix; a leading or a
    trailing dot starts no suffix. *)
Definition path_stem (s : string) : string :=
  let name := path_name s in
  let l := chars name in
  match rfind_dot l with
  | Some i =>
      if ((0 <? i) && (i <? List.length l - 1))%nat then str (firstn i l)
      else name
  | None => name
  end.

(** A [set] of strings, as the list of its elements. *)
Definition set_add (k : string) (s : list string) : list string :=
  if mem k s then s else k :: s.

Definition strs (l : list string) : value := VList (map VStr l).

(* ================================================================= *)
(** ** [validator/schema_validator.py] *)

Module SchemaValidator.
Import Re.

(** [__init__(self, schema_name, schema)] *)
Record t : Type := Build {
  schema : value;
  schema_name : string
}.

(** [^[A-Za-z_][A-Za-z0-9_]*$] *)
Definition column_id_pattern : regex :=
  Cat Bol
    (Cat (Set_ [IRange "A" "Z"; IRange "a" "z"; IChar "_"])
       (Cat (Star (Set_ [IRange "A" "Z"; IRange "a" "z"; IRange "0" "9";
                         IChar "_"]))
          Eol)).

(** [^[\w\.]+ = [\w\.]+$] *)
Definition join_pattern : regex :=
  Cat Bol
    (Cat (Plus (Set_ [IWord; IChar "."]))
       (Cat (Lit " ") (Cat (Lit "=") (Cat (Lit " ")
          (Cat (Plus (Set_ [IWord; IChar "."])) Eol))))).

(** The text [string of format "table.column = table.column"]. *)
Definition join_format : string :=
  "string of format " ++ String (ascii_of_nat 34) "table.column = table.column"
  ++ String (ascii_of_nat 34) EmptyString.

Definition _check_required_keys (self : t) : M unit :=
  let required_keys := ["subject_area"; "table_info"; "columns"] in
  for_each required_keys (fun key =>
    present <- py_in (VStr key) (schema self) ;;
    if negb present then raise (MissingKeyError (VStr key)) else ret tt).

Definition _validate_joins (joins table_name : value) : M unit :=
  match joins with
  | VList l =>
      if (List.length l =? 0)%nat then ret tt
      else
        for_each l (fun condition =>
          match condition with
          | VStr c =>
              if negb (re_match false join_pattern c) then
                raise (InvalidFormatError (VStr "join condition")
                         (VStr join_format))
              else ret tt
          | _ =>
              raise (InvalidFormatError (VStr "join condition")
                       (VStr join_format))
          end)
  | _ => raise (InvalidFormatError (VStr "joins") (VStr "list"))
  end.

Definition _validate_table_entry (self : t) (table : value) : M unit :=
  match table with
  | VDict d =>
      match lookup "table" d with
      | None => raise (MissingKeyError (VStr "table"))
      | Some table_name =>
          if is_none table_name then
            raise (EmptyValueError (VStr "table") (VStr "table_info"))
          else
            match lookup "joins" d with
            | None => raise (MissingKeyError (VStr "joins"))
            | Some joins =>
                if match joins with
                   | VList l => existsb is_dict l
                   | _ => false
                   end
                then raise (InvalidFormatError (VStr "joins")
                              (VStr "list of strings"))
                else _validate_joins joins table_name
            end
      end
  | _ => raise (InvalidFormatError (VStr "table_info entry") (VStr "dictionary"))
  end.

Definition _validate_table_info (self : t) (table_info : value) : M unit :=
  match table_info with
  | VList l => for_each l (_validate_table_entry self)
  | _ => raise (InvalidFormatError (VStr "table_info") (VStr "list"))
  end.

(** The set is mutated in place: the updated set is handed back. *)
Definition _check_unique_column_id (column_id : string)
    (column_ids : list string) : M (list string) :=
  if mem column_id column_ids then
    raise (InvalidKeyError (VStr column_id) (VStr "unique column IDs"))
  else ret (set_add column_id column_ids).

Definition _check_column_format (column_id : string)
    (column : list (string * value)) : M unit :=
  if negb (re_match false column_id_pattern column_id) then
    raise (InvalidFormatError (VStr column_id) (VStr "valid format"))
  else ret tt.

Definition _check_required_column_keys (column_id : string)
    (column : list (string * value)) : M unit :=
  let required_keys := ["name"; "type"; "column"; "desc"] in
  for_each required_keys (fun key =>
    match lookup key column with
    | None => raise (EmptyValueError (VStr column_id) (VStr key))
    | Some v =>
        if negb (truthy v) then
          raise (EmptyValueError (VStr column_id) (VStr key))
        else ret tt
    end).

Definition expected_keys : list string :=
  ["name"; "type"; "column"; "desc"; "primary_key"].

Definition _check_indentation (column_id : string)
    (column : list (string * value)) : M unit :=
  let keys := keys column in
  for_each keys (fun key =>
    if negb (mem key expected_keys) then
      raise (InvalidKeyError (VStr key) (strs expected_keys))
    else ret tt) ;;
  for_each expected_keys (fun key =>
    match lookup key column with
    | Some v =>
        if is_none v
           || match v with
              | VStr s => String.eqb (strip s) EmptyString
              | _ => false
              end
        then raise (EmptyValueError (VStr column_id) (VStr key))
        else ret tt
    | None => ret tt
    end).

Definition validate_table_reference (table : value)
    (tables_in_schema : list value) : M unit :=
  match table with
  | VStr _ =>
      present <- set_in table tables_in_schema ;;
      if negb present then raise (MissingKeyError table) else ret tt
  | VList l =>
      for_each l (fun t =>
        present <- set_in t tables_in_schema ;;
        if negb present then raise (MissingKeyError t) else ret tt)
  | _ =>
      raise (InvalidFormatError (VStr "table")
               (VStr "string or list of strings"))
  end.

Definition _validate_column (self : t) (column_id : string) (column : value)
    (column_ids : list string) (tables_in_schema : list value)
  : M (list string) :=
  match column with
  | VDict d =>
      if existsb is_dict (values d) then
        raise (InvalidFormatError (VStr column_id)
                 (VStr "no nested dictionaries allowed"))
      else
        column_ids <- _check_unique_column_id column_id column_ids ;;
        _check_column_format column_id d ;;
        _check_required_column_keys column_id d ;;
        _check_indentation column_id d ;;
        match lookup "primary_key" d with
        | Some v =>
            if negb (is_bool v) then
              raise (InvalidFormatError (VStr "primary_key") (VStr "boolean"))
            else ret tt
        | None => ret tt
        end ;;
        match lookup "table" d with
        | Some table => validate_table_reference table tables_in_schema
        | None => ret tt
        end ;;
        ret column_ids
  | _ => raise (InvalidFormatError (VStr column_id) (VStr "dictionary"))
  end.

Definition _validate_columns (self : t) (columns : value) : M unit :=
  match columns with
  | VDict cols =>
      table_info <- py_getitem (schema self) "table_info" ;;
      tables <- py_iter table_info ;;
      tables_in_schema <-
        map_m (fun table =>
                 name <- py_getitem table "table" ;;
                 if hashable name then ret name else raise TypeError)
              tables ;;
      for_fold cols [] (fun column_ids '(column_id, column) =>
        if mem column_id column_ids then
          raise (InvalidKeyError (VStr column_id) (VStr "unique column IDs"))
        else
          column_ids <- _validate_column self column_id column column_ids
                          tables_in_schema ;;
          ret (set_add column_id column_ids)) ;;
      ret tt
  | _ => raise (InvalidFormatError (VStr "columns") (VStr "dictionary"))
  end.

Definition validate (self : t) : M unit :=
  let name := Fmt (VStr (schema_name self)) in
  try_except
    (_check_required_keys self ;;
     table_info <- py_getitem (schema self) "table_info" ;;
     _validate_table_info self table_info ;;
     columns <- py_getitem (schema self) "columns" ;;
     _validate_columns self columns ;;
     info [Txt "Schema '"; name; Txt "' validation passed!"])
    (fun e =>
       match e with
       | MissingKeyError _ =>
           error [Txt "Schema '"; name; Txt "' Validation Error: "; FmtExn e]
       | EmptyValueError _ _ =>
           error [Txt "Schema '"; name; Txt "' Validation Error: "; FmtExn e]
       | InvalidFormatError _ _ =>
           error [Txt "Schema '"; name; Txt "' Validation Error: "; FmtExn e]
       | InvalidKeyError _ _ =>
           error [Txt "Schema '"; name; Txt "' Validation Error: "; FmtExn e]
       | _ =>
           exception [Txt "An unexpected error occurred during schema '";
                      name; Txt "' validation"] e
       end).

End SchemaValidator.

(* ================================================================= *)
(** ** [validator/semantics_validator.py] *)

Module SemanticsValidator.
Import Re.

(** [__init__(self, filename, semantics)] *)
Record t : Type := Build {
  filename : string;
  semantics : value
}.

(** [\s*] *)
Definition spaces : regex := Star (Set_ [ISpace]).

(** [[\w\s\[\]\+\-\*\/\(\)]+] *)
Definition basic_items : list item :=
  [IWord; ISpace; IChar "["; IChar "]"; IChar "+"; IChar "-"; IChar "*";
   IChar "/"; IChar "("; IChar ")"].

Definition basic_expr_pattern : regex := Plus (Set_ basic_items).

(** [\s*(op1|op2|...)\s*] *)
Definition _build_pattern (operators : list string) : regex :=
  Cat spaces (Cat (alts (map Word operators)) spaces).

(** The values of [supported_functions], family after family. *)
Definition supported_functions : list (string * list string) :=
  [("aggregate", ["SUM"; "AVG"; "COUNT"; "MAX"; "MIN"]);
   ("string", ["UPPER"; "LOWER"; "CONCAT"; "SUBSTRING"; "TRIM"; "LENGTH"]);
   ("date", ["NOW"; "DATE"]);
   ("math", ["ROUND"]);
   ("conditional", ["CASE"; "COALESCE"; "NULLIF"])].

Definition function_names : list string :=
  flat_map snd supported_functions.

(** [func\s*\(\s*basic\s*\)] *)
Definition function_call (basic_expr_pattern : regex) (func : string) : regex :=
  Cat (Word func)
    (Cat spaces (Cat (Lit "(") (Cat spaces
       (Cat basic_expr_pattern (Cat spaces (Lit ")")))))).

(** [\s*(call1|call2|...)\s*] *)
Definition _build_function_pattern (basic_expr_pattern : regex) : regex :=
  Cat spaces
    (Cat (alts (map (function_call basic_expr_pattern) function_names))
       spaces).

(** [^(nested(\s*comparison nested)*(\s*logical nested)*$)$] with
    [nested = (function|basic)]. *)
Definition _build_complete_pattern
    (function_pattern basic_expr_pattern comparison_pattern logical_pattern
     : regex) : regex :=
  let nested_function_pattern := Alt function_pattern basic_expr_pattern in
  Cat Bol
    (Cat (Cat nested_function_pattern
            (Cat (Star (Cat spaces
                          (Cat comparison_pattern nested_function_pattern)))
               (Cat (Star (Cat spaces
                             (Cat logical_pattern nested_function_pattern)))
                  Eol)))
       Eol).

Definition logical_pattern : regex := _build_pattern ["AND"; "OR"; "NOT"].
Definition comparison_pattern : regex :=
  _build_pattern ["="; "!="; "<"; ">"; "<="; ">="].
Definition function_pattern : regex :=
  _build_function_pattern basic_expr_pattern.
Definition complete_pattern : regex :=
  _build_complete_pattern function_pattern basic_expr_pattern
    comparison_pattern logical_pattern.

Definition _validate_calculation (calculation : value) : M unit :=
  match calculation with
  | VStr s =>
      if negb (re_match true complete_pattern s) then
        error [Txt "Calculation format is invalid for: "; Fmt calculation] ;;
        raise (InvalidFormatError (VStr "calculation")
                 (VStr "valid calculation format"))
      else ret tt
  | _ =>
      error [Txt "Calculation must be a string. Got: ";
             Txt (type_name calculation)] ;;
      raise (InvalidFormatError calculation (VStr "string"))
  end.

Definition _validate_filters (filters : value) : M unit :=
  match filters with
  | VList l =>
      for_each l (fun condition =>
        if negb (is_str condition) then
          error [Txt "Filter condition must be a string. Got: ";
                 Txt (type_name condition)] ;;
          raise (InvalidFormatError (VStr "filter condition") (VStr "string"))
        else ret tt)
  | _ =>
      error [Txt "Filters must be a list."] ;;
      raise (InvalidFormatError (VStr "filter") (VStr "list"))
  end.

(** [if key in d and not d[key]: log; raise EmptyValueError(owner, key)] *)
Definition require_non_empty (kind owner key : string)
    (d : list (string * value)) : M unit :=
  match lookup key d with
  | Some v =>
      if negb (truthy v) then
        error [Txt kind; Fmt (VStr owner); Txt " must have a non-empty '";
               Txt key; Txt "'."] ;;
        raise (EmptyValueError (VStr owner) (VStr key))
      else ret tt
  | None => ret tt
  end.

Definition _validate_attribute (self : t) (attr_key : string)
    (attribute : value) (schema : value) : M unit :=
  match attribute with
  | VDict d =>
      require_non_empty "Attribute " attr_key "name" d ;;
      require_non_empty "Attribute " attr_key "desc" d ;;
      require_non_empty "Attribute " attr_key "calculation" d ;;
      match lookup "calculation" d with
      | Some calculation => _validate_calculation calculation
      | None => ret tt
      end ;;
      match lookup "filter" d with
      | Some filters => _validate_filters filters
      | None => ret tt
      end
  | _ =>
      error [Txt "Attribute "; Fmt (VStr attr_key);
             Txt " must be a dictionary."] ;;
      raise (InvalidFormatError (VStr attr_key) (VStr "dictionary"))
  end.

Definition _validate_attributes (self : t) (attributes : value)
    (schema : value) : M unit :=
  match attributes with
  | VDict d =>
      for_each d (fun '(key, value) => _validate_attribute self key value schema)
  | _ =>
      error [Txt "Attributes must be a dictionary."] ;;
      raise (InvalidFormatError attributes (VStr "dictionary"))
  end.

Definition attribute_valid_keys : list string :=
  ["name"; "desc"; "calculation"; "filter"; "function"; "synonym"].

(** Defined by the class, called from nowhere in it. *)
Definition _validate_attribute_keys (self : t) (attr_key : string)
    (attribute : list (string * value)) : M unit :=
  let valid_keys := attribute_valid_keys in
  for_each (keys attribute) (fun key =>
    if negb (mem key valid_keys) then
      error [Txt "Invalid key '"; Fmt (VStr key);
             Txt "' found in attribute "; Fmt (VStr attr_key);
             Txt ". Valid keys are: "; Fmt (strs valid_keys); Txt "."] ;;
      raise (InvalidKeyError (VStr key) (strs valid_keys))
    else ret tt).

Definition metric_valid_keys : list string :=
  ["name"; "calculation"; "function"; "desc"; "filter"; "synonym"].

Definition _validate_metric_keys (self : t) (metric_key : string)
    (metric : list (string * value)) : M unit :=
  let valid_keys := metric_valid_keys in
  for_each (keys metric) (fun key =>
    if negb (mem key valid_keys) then
      error [Txt "Invalid key '"; Fmt (VStr key);
             Txt "' found in metric "; Fmt (VStr metric_key);
             Txt ". Valid keys are: "; Fmt (strs valid_keys); Txt "."] ;;
      raise (InvalidKeyError (VStr key) (strs valid_keys))
    else ret tt).

(** [schema] is whatever the caller passes; [validate] passes the schema
    name, a string. *)
Definition _validate_metric (self : t) (metric_key : string) (metric : value)
    (schema : value) : M unit :=
  match metric with
  | VDict d =>
      (if negb (has "name" d) || negb (has "calculation" d) then
         columns <- py_getitem schema "columns" ;;
         known <- py_in (VStr metric_key) columns ;;
         if negb known then
           error [Txt "Metric "; Fmt (VStr metric_key);
                  Txt " must contain 'name' or 'calculation' but it's missing."] ;;
           raise (MissingKeyError (VStr "name or calculation"))
         else ret tt
       else ret tt) ;;
      require_non_empty "Metric " metric_key "name" d ;;
      require_non_empty "Metric " metric_key "calculation" d ;;
      match lookup "function" d with
      | Some f =>
          if negb (is_str f) then
            error [Txt "Metric "; Fmt (VStr metric_key);
                   Txt " function must be a string."] ;;
            raise (EmptyValueError (VStr metric_key) (VStr "function"))
          else ret tt
      | None => ret tt
      end ;;
      calculation <- py_getitem metric "calculation" ;;
      _validate_calculation calculation ;;
      _validate_metric_keys self metric_key d
  | _ =>
      error [Txt "Metric "; Fmt (VStr metric_key);
             Txt " must be a dictionary."] ;;
      raise (InvalidFormatError (VStr metric_key) (VStr "dictionary"))
  end.

Definition _validate_metrics (self : t) (metrics : value) (schema : value)
  : M unit :=
  match metrics with
  | VDict d =>
      for_each d (fun '(key, value) => _validate_metric self key value schema)
  | _ =>
      error [Txt "Metrics must be a dictionary."] ;;
      raise (InvalidFormatError metrics (VStr "dictionary"))
  end.

(** [^schema\.\w+$] *)
Definition source_key_pattern : regex :=
  Cat Bol (Cat (Word "schema") (Cat (Lit ".") (Cat (Plus (Set_ [IWord])) Eol))).

Definition _check_required_keys (self : t) : M unit :=
  let required_keys := ["folder"; "type"] in
  for_each required_keys (fun key =>
    present <- py_in (VStr key) (semantics self) ;;
    if negb present then
      error [Txt "Missing required key: '"; Fmt (VStr key);
             Txt "' in the semantics."] ;;
      raise (ValueError ("Missing required key: '" ++ key
                         ++ "' in the semantics."))
    else ret tt) ;;
  attributes <- py_get (semantics self) "attributes" VNone ;;
  if negb (truthy attributes) then
    metrics <- py_get (semantics self) "metrics" VNone ;;
    if negb (truthy metrics) then
      error [Txt "At least one of 'attributes' or 'metrics' must be present."] ;;
      raise (MissingKeyError
               (VStr "At least one of 'attributes' or 'metrics' must be present."))
    else ret tt
  else ret tt.

Definition _validate_source (self : t) (source : value) : M unit :=
  match source with
  | VNone => ret tt
  | VDict d =>
      for_each d (fun '(key, value) =>
        if negb (re_match false source_key_pattern key) then
          error [Txt "Invalid key format: "; Fmt (VStr key);
                 Txt ". Expected format 'schema.<name>'."] ;;
          raise (InvalidKeyError (VStr key)
                   (VStr "Expected format 'schema.<name>'"))
        else
          match match value with
                | VDict b => lookup "columns" b
                | _ => None
                end
          with
          | None =>
              error [Txt "Key '"; Fmt (VStr key);
                     Txt "' must be a dictionary containing a 'columns' key."] ;;
              raise (InvalidFormatError (VStr key)
                       (VStr "must be a dictionary containing a 'columns' key"))
          | Some columns =>
              if match columns with
                 | VList l => forallb is_str l
                 | _ => false
                 end
              then ret tt
              else
                error [Txt "'columns' for source "; Fmt (VStr key);
                       Txt " must be a list of strings."] ;;
                raise (InvalidFormatError (VStr "columns")
                         (VStr ("a list of strings for source " ++ key)))
          end)
  | _ =>
      error [Txt "Source must be a dictionary."] ;;
      raise (InvalidFormatError (VStr "source") (VStr "dictionary"))
  end.

Definition validate_semantics (self : t) (schema : string) : M unit :=
  try_except
    (_check_required_keys self ;;
     source <- py_get (semantics self) "source" VNone ;;
     _validate_source self source ;;
     info [Txt "Semantics "; Fmt (VStr (filename self));
           Txt " validation passed!"])
    (fun e =>
       match e with
       | ValueError _ => error [Txt "Validation Error: "; FmtExn e]
       | _ => exception [Txt "An unexpected error occurred"] e
       end).

Definition validate_referenced_columns (self : t) (schema_name : string)
    (schema referenced_columns : value) : M unit :=
  schema_columns <- py_get schema "columns" (VList []) ;;
  columns <- py_iter referenced_columns ;;
  missing_columns <-
    filter_m (fun col => present <- py_in col schema_columns ;;
                         ret (negb present))
             columns ;;
  match missing_columns with
  | _ :: _ =>
      error [Txt "The following columns are referenced but not found in schema: ";
             Fmt (VList missing_columns)] ;;
      joined <- py_join ", " missing_columns ;;
      raise (MissingKeyError (VStr ("Columns missing in schema: " ++ joined)))
  | [] =>
      info [Txt "All column references are verified in ";
            Fmt (VStr schema_name); Txt ".yml schema file."]
  end.

(** [next((content for s, content in files if Path(s).stem == schema), None)] *)
Fixpoint find_schema (files : list (string * value)) (schema : string)
  : value :=
  match files with
  | [] => VNone
  | (s, content) :: files' =>
      if String.eqb (path_stem s) schema then content
      else find_schema files' schema
  end.

(** What [validate] does for one key of [source]. *)
Definition validate_binding (self : t) (files : list (string * value))
    (source : value) (schema_key : string) : M unit :=
  schema <- match nth_error (split "." schema_key) 1 with
            | Some part => ret part
            | None => raise IndexError
            end ;;
  let relevant_schema := find_schema files schema in
  if is_none relevant_schema then
    error [Txt "Schema '"; Fmt (VStr schema);
           Txt "' referenced in source '"; Fmt (VStr schema_key);
           Txt "' not found."] ;;
    raise (MissingKeyError
             (VStr ("Schema '" ++ schema ++ "' referenced in source '"
                    ++ schema_key ++ "' not found.")))
  else
    binding <- py_getitem source schema_key ;;
    referenced_columns <- py_getitem binding "columns" ;;
    validate_referenced_columns self schema relevant_schema referenced_columns ;;
    attributes <- py_get (semantics self) "attributes" (VDict []) ;;
    _validate_attributes self attributes (VStr schema) ;;
    metrics <- py_get (semantics self) "metrics" (VDict []) ;;
    _validate_metrics self metrics (VStr schema) ;;
    validate_semantics self schema_key.

(** [files] is [None] when the caller passes nothing. *)
Definition validate (self : t) (files : option (list (string * value)))
  : M unit :=
  match files with
  | None =>
      error [Txt "No schema files initialized yet."] ;;
      raise (MissingKeyError (VStr "No schema files initialized yet."))
  | Some files =>
      source <- py_get (semantics self) "source" VNone ;;
      if is_none source then
        error [Txt "No source specified in semantics."] ;;
        raise (MissingKeyError (VStr "No source specified in semantics."))
      else
        info [Txt "Scanning sourced schema..."] ;;
        schema_references <- py_keys source ;;
        match schema_references with
        | [] =>
            error [Txt "No schema reference found."] ;;
            raise (MissingKeyError (VStr "No schema reference found."))
        | _ :: _ =>
            info [Txt "Found "; Fmt (strs schema_references);
                  Txt " schemas in semantics"] ;;
            for_each schema_references (validate_binding self files source)
        end
  end.

End SemanticsValidator.

(* ================================================================= *)
(** ** [main.py]: the two drivers *)

Module Main.

Definition separator : list frag :=
  [Txt "----------------------------------------------------------------"].

Definition validate_schemas (schemas : list (string * value)) : M unit :=
  for_each schemas (fun '(filename, schema) =>
    info separator ;;
    info [Txt "Validating schema from "; Fmt (VStr filename); Txt "..."] ;;
    try_except
      (SchemaValidator.validate (SchemaValidator.Build schema filename))
      (fun e =>
         error [Txt "Schema validation failed for "; Fmt (VStr filename);
                Txt ": "; FmtExn e] ;;
         info separator)).

Definition validate_semantics (semantics_files schema_files : list (string * value))
  : M unit :=
  for_each semantics_files (fun '(filename, semantics) =>
    info separator ;;
    info [Txt "Validating semantics from "; Fmt (VStr filename); Txt "..."] ;;
    try_except
      (SemanticsValidator.validate (SemanticsValidator.Build filename semantics)
         (Some schema_files) ;;
       info [Fmt (VStr filename); Txt " semantics is valid."])
      (fun e =>
         error [Txt "Semantics validation failed for "; Fmt (VStr filename);
                Txt ": "; FmtExn e]) ;;
    info separator).

End Main.

(* ================================================================= *)
(** ** What a computation does to the logger

    [emits P m]: whatever was logged before, [m] gives the same result and
    appends the same records, each of which satisfies [P]. *)

Definition emits {A} (P : record -> Prop) (m : M A) : Prop :=
  exists r l, Forall P l /\ forall st, m st = (r, st ++ l).

(** The result of a computation and the records it logs, from an empty
    logger. *)
Definition outcome {A} (m : M A) : result A := fst (m []).
Definition emitted {A} (m : M A) : list record := snd (m []).

(** A computation that logs nothing. *)
Definition silent {A} (m : M A) : Prop := emits (fun _ => False) m.

(** Every computation of the validator leaves what was logged before
    alone and does not depend on it. *)
Definition framed {A} (m : M A) : Prop := emits (fun _ => True) m.

(* ================================================================= *)
(** ** The records the validators log *)

Module SchemaLog.
Import SchemaValidator.

(** The three records [validate] can log. *)
Definition passed (self : t) : record :=
  Record_ INFO
    [Txt "Schema '"; Fmt (VStr (schema_name self)); Txt "' validation passed!"]
    None.

Definition reported (self : t) (e : exn) : record :=
  Record_ ERROR
    [Txt "Schema '"; Fmt (VStr (schema_name self)); Txt "' Validation Error: ";
     FmtExn e]
    None.

Definition unexpected (self : t) (e : exn) : record :=
  Record_ ERROR
    [Txt "An unexpected error occurred during schema '";
     Fmt (VStr (schema_name self)); Txt "' validation"]
    (Some e).

(** The checks of [validate], before the record of success. *)
Definition checks (self : t) : M unit :=
  (_check_required_keys self ;;
   table_info <- py_getitem (schema self) "table_info" ;;
   _validate_table_info self table_info ;;
   columns <- py_getitem (schema self) "columns" ;;
   _validate_columns self columns)%py.

End SchemaLog.

Module SemanticsLog.
Import SemanticsValidator.

(** The record logged when the structure checks pass. *)
Definition passed (self : t) : record :=
  Record_ INFO
    [Txt "Semantics "; Fmt (VStr (filename self)); Txt " validation passed!"]
    None.

Definition not_passed (self : t) (r : record) : Prop := r <> passed self.

Definition scanning : record :=
  Record_ INFO [Txt "Scanning sourced schema..."] None.

Definition found (schema_references : list string) : record :=
  Record_ INFO
    [Txt "Found "; Fmt (strs schema_references); Txt " schemas in semantics"]
    None.

End SemanticsLog.

(* ================================================================= *)
(** ** Missing columns and missing required keys *)

Module Referential.

(** The columns of [cols] that the mapping [cm] does not have. *)
Definition missing_in (cm : list (string * value)) (cols : list string)
  : list string :=
  filter (fun c => negb (has c cm)) cols.

Definition not_found (missing : list string) : record :=
  Record_ ERROR
    [Txt "The following columns are referenced but not found in schema: ";
     Fmt (strs missing)]
    None.

Definition columns_missing (missing : list string) : exn :=
  MissingKeyError
    (VStr ("Columns missing in schema: " ++ String.concat ", " missing)).

End Referential.

Module Required.

(** [d.get(k)] on a mapping. *)
Definition get (k : string) (m : list (string * value)) : value :=
  match lookup k m with
  | Some v => v
  | None => VNone
  end.

(** A semantics mapping that misses [folder] or [type], or in which both
    [attributes] and [metrics] are absent or empty. *)
Definition lacks_required (m : list (string * value)) : Prop :=
  has "folder" m = false
  \/ has "type" m = false
  \/ (truthy (get "attributes" m) = false /\ truthy (get "metrics" m) = false).

Definition missing_key_text (key : string) : string :=
  "Missing required key: '" ++ key ++ "' in the semantics.".

Definition missing_key_logged (key : string) : record :=
  Record_ ERROR
    [Txt "Missing required key: '"; Fmt (VStr key); Txt "' in the semantics."]
    None.

Definition none_present_text : string :=
  "At least one of 'attributes' or 'metrics' must be present.".

(** What [_check_required_keys] raises on a mapping, and the record it
    logs before. *)
Definition required_failure (m : list (string * value)) : exn * record :=
  if negb (has "folder" m) then
    (ValueError (missing_key_text "folder"), missing_key_logged "folder")
  else if negb (has "type" m) then
    (ValueError (missing_key_text "type"), missing_key_logged "type")
  else
    (MissingKeyError (VStr none_present_text),
     Record_ ERROR [Txt none_present_text] None).

(** What the handlers of [validate_semantics] log for it. *)
Definition handled (e : exn) : record :=
  match e with
  | ValueError _ => Record_ ERROR [Txt "Validation Error: "; FmtExn e] None
  | _ => Record_ ERROR [Txt "An unexpected error occurred"] (Some e)
  end.

End Required.

(* ================================================================= *)
(** ** The strings of the calculation grammar *)

Module Grammar.
Import Re SemanticsValidator.

(** The characters of a basic expression: [[\w\s\[\]\+\-\*\/\(\)]]. *)
Definition basic_char (x : ascii) : bool := set_matches true basic_items x.

(** The characters the complete pattern can consume at all: those of a
    basic expression and those of the comparison operators. *)
Definition calc_char (x : ascii) : bool :=
  basic_char x
  || existsb (Ascii.eqb x) ["="%char; "!"%char; "<"%char; ">"%char].

(** The characters a pattern can consume. *)
Fixpoint alphabet (ic : bool) (r : regex) (x : ascii) : bool :=
  match r with
  | Lit c => lit_matches ic c x
  | Set_ items => set_matches ic items x
  | Cat r1 r2 | Alt r1 r2 => alphabet ic r1 x || alphabet ic r2 x
  | Star r1 => alphabet ic r1 x
  | Never | Eps | Bol | Eol => false
  end.

Definition comparison_ops : list (list ascii) :=
  map chars ["="; "!="; "<"; ">"; "<="; ">="].

(** A non-empty run of basic-expression characters. *)
Definition run (t : list ascii) : Prop :=
  t <> [] /\ Forall (fun x => basic_char x = true) t.

(** Runs separated by comparison operators. *)
Inductive shape : list ascii -> Prop :=
| shape_run t : run t -> shape t
| shape_cmp l op t :
    shape l -> In op comparison_ops -> run t -> shape (l ++ op ++ t).

(** No [^] and no [$] in the pattern. *)
Fixpoint anchor_free (r : regex) : bool :=
  match r with
  | Bol | Eol => false
  | Cat r1 r2 | Alt r1 r2 => anchor_free r1 && anchor_free r2
  | Star r1 => anchor_free r1
  | Never | Eps | Lit _ | Set_ _ => true
  end.

(** Does [r] match exactly [p] when [q] follows? *)
Fixpoint exact (ic bol : bool) (r : regex) (p q : list ascii) : bool :=
  match p with
  | [] => nullable bol (is_eol q) r
  | x :: p' => exact ic false (deriv ic bol (is_eol (p ++ q)) x r) p' q
  end.

Definition nested : regex := Alt function_pattern basic_expr_pattern.

Definition comparison_alternatives : regex :=
  alts (map Word ["="; "!="; "<"; ">"; "<="; ">="]).

(** [(\s* comparison nested)] *)
Definition comparison_group : regex :=
  Cat spaces (Cat comparison_pattern nested).

(** [(\s* logical nested)] *)
Definition logical_group : regex :=
  Cat spaces (Cat logical_pattern nested).

End Grammar.

(* ================================================================= *)
(** ** The example documents of the specification *)

Module Scenarios.

Definition order_id (table : string) : value :=
  VDict [("name", VStr "Order Id"); ("type", VStr "int");
         ("column", VStr "order_id"); ("desc", VStr "id");
         ("table", VStr table); ("primary_key", VBool true)].

(** The same column without its [table] key. *)
Definition order_id_bare : value :=
  VDict [("name", VStr "Order Id"); ("type", VStr "int");
         ("column", VStr "order_id"); ("desc", VStr "id");
         ("primary_key", VBool true)].

Definition orders_schema (column : value) : value :=
  VDict [("subject_area", VStr "sales");
         ("table_info",
          VList [VDict [("table", VStr "orders"); ("joins", VList [])]]);
         ("columns", VDict [("order_id", column)])].

(** Scenario 1. *)
Definition scenario1 : SchemaValidator.t :=
  SchemaValidator.Build (orders_schema (order_id "orders")) "orders.yml".

(** Scenario 1 with the column bound to a table the document does not
    declare. *)
Definition scenario1_dangling : SchemaValidator.t :=
  SchemaValidator.Build (orders_schema (order_id "customers")) "orders.yml".

Definition scenario1_bare : SchemaValidator.t :=
  SchemaValidator.Build (orders_schema order_id_bare) "orders.yml".

(** The schema collection the semantics scenarios are resolved against. *)
Definition schema_files : list (string * value) :=
  [("orders.yml", orders_schema order_id_bare)].

Definition total_orders : value :=
  VDict [("name", VStr "Total Orders");
         ("calculation", VStr "COUNT(order_id)")].

Definition orders_binding : string * value :=
  ("schema.orders", VDict [("columns", VList [VStr "order_id"])]).

(** Scenario 3. *)
Definition scenario3 : SemanticsValidator.t :=
  SemanticsValidator.Build "orders_sem.yml"
    (VDict [("folder", VStr "f"); ("type", VStr "fact");
            ("source", VDict [orders_binding]);
            ("metrics", VDict [("total_orders", total_orders)])]).

(** Scenario 3 without its [folder]. *)
Definition scenario3_no_folder : SemanticsValidator.t :=
  SemanticsValidator.Build "orders_sem.yml"
    (VDict [("type", VStr "fact");
            ("source", VDict [orders_binding]);
            ("metrics", VDict [("total_orders", total_orders)])]).

(** Scenario 3 with an attribute that carries a key outside the closed
    set. *)
Definition region : value :=
  VDict [("name", VStr "Region"); ("colour", VStr "red")].

Definition scenario3_extra_key : SemanticsValidator.t :=
  SemanticsValidator.Build "orders_sem.yml"
    (VDict [("folder", VStr "f"); ("type", VStr "fact");
            ("source", VDict [orders_binding]);
            ("attributes", VDict [("region", region)]);
            ("metrics", VDict [("total_orders", total_orders)])]).

End Scenarios.

(* ================================================================= *)
(** ** The validators over the objects of the interpreter

    Above, a document is a value and the set of column identifiers is
    handed from call to call.  Here both are objects held by reference,
    which a callee can change in place: a validator holds a reference to
    its document, and [_validate_columns] shares its set with
    [_check_unique_column_id]. *)

Module Store.

Inductive object : Type :=
| Document (v : value)           (* a parsed YAML document *)
| StringSet (s : list string).   (* a [set] of strings *)

(** A reference: the position of the object among the objects. *)
Definition ref : Type := nat.

Record state : Type := State {
  objects : list object;
  log : logger
}.

Definition H (A : Type) : Type := state -> result A * state.

Definition hret {A} (a : A) : H A := fun s => (Returned a, s).
Definition hraise {A} (e : exn) : H A := fun s => (Raised e, s).
Definition hbind {A B} (m : H A) (f : A -> H B) : H B :=
  fun s =>
    match m s with
    | (Returned a, s') => f a s'
    | (Raised e, s') => (Raised e, s')
    end.

Declare Scope store_scope.
Delimit Scope store_scope with store.
Notation "x <- m ;; k" := (hbind m (fun x => k))
  (at level 61, m at next level, right associativity) : store_scope.
Notation "m ;; k" := (hbind m (fun _ => k))
  (at level 61, right associativity) : store_scope.
Local Open Scope store_scope.

(** Code that reads its arguments and writes to the logger only. *)
Definition lift {A} (m : M A) : H A :=
  fun s => let (r, l) := m (log s) in (r, State (objects s) l).

(** A new object. *)
Definition new (o : object) : H ref :=
  fun s =>
    (Returned (List.length (objects s)), State (objects s ++ [o]) (log s)).

Fixpoint replace (a : ref) (o : object) (h : list object) : list object :=
  match h with
  | [] => []
  | x :: h' =>
      match a with
      | O => o :: h'
      | S a' => x :: replace a' o h'
      end
  end.

(** A reference has its object; the case of none is there for
    totality. *)
Definition read (a : ref) : H object :=
  fun s =>
    match nth_error (objects s) a with
    | Some o => (Returned o, s)
    | None => (Raised AttributeError, s)
    end.

(** A change in place. *)
Definition write (a : ref) (o : object) : H unit :=
  fun s => (Returned tt, State (replace a o (objects s)) (log s)).

(** The document behind a reference. *)
Definition document (a : ref) : H value :=
  o <- read a ;;
  match o with
  | Document v => hret v
  | StringSet _ => hraise AttributeError
  end.

(** [k in s] for a set [s] held by reference. *)
Definition contains (a : ref) (k : string) : H bool :=
  o <- read a ;;
  match o with
  | StringSet s => hret (mem k s)
  | Document _ => hraise TypeError
  end.

(** [s.add(k)] *)
Definition add (a : ref) (k : string) : H unit :=
  o <- read a ;;
  match o with
  | StringSet s => write a (StringSet (set_add k s))
  | Document _ => hraise AttributeError
  end.

Fixpoint hfor_each {A} (l : list A) (body : A -> H unit) : H unit :=
  match l with
  | [] => hret tt
  | x :: l' => body x ;; hfor_each l' body
  end.

Definition htry_except {A} (body : H A) (handler : exn -> H A) : H A :=
  fun s =>
    match body s with
    | (Returned a, s') => (Returned a, s')
    | (Raised e, s') => handler e s'
    end.

(** On objects that satisfy [P], [h] gives the result of [m] and logs
    what [m] logs, and every object is afterwards what it was before:
    [h] only makes new ones. *)
Definition extends {A} (P : list object -> Prop) (h : H A) (m : M A)
  : Prop :=
  forall objs l,
    P objs ->
    exists extra,
      h (State objs l) = (fst (m l), State (objs ++ extra) (snd (m l))).

(** A property of the objects that new objects leave alone. *)
Definition monotone (P : list object -> Prop) : Prop :=
  forall objs extra, P objs -> P (objs ++ extra).

End Store.

(** [validator/schema_validator.py], the document and the set of
    identifiers held by reference. *)
Module StoredSchemaValidator.
Import Store.
Local Open Scope store_scope.

(** [self.schema] refers to the document. *)
Record t : Type := Build {
  schema : ref;
  schema_name : string
}.

(** The validator for the checks that read their arguments only. *)
Definition detached (self : t) : SchemaValidator.t :=
  SchemaValidator.Build VNone (schema_name self).

Definition _check_required_keys (self : t) : H unit :=
  let required_keys := ["subject_area"; "table_info"; "columns"] in
  hfor_each required_keys (fun key =>
    doc <- document (schema self) ;;
    present <- lift (py_in (VStr key) doc) ;;
    if negb present then hraise (MissingKeyError (VStr key)) else hret tt).

(** [column_ids] is the caller's set: the identifier is added to it in
    place. *)
Definition _check_unique_column_id (column_id : string) (column_ids : ref)
  : H unit :=
  present <- contains column_ids column_id ;;
  if present then
    hraise (InvalidKeyError (VStr column_id) (VStr "unique column IDs"))
  else add column_ids column_id.

Definition _validate_column (self : t) (column_id : string) (column : value)
    (column_ids : ref) (tables_in_schema : list value) : H unit :=
  match column with
  | VDict d =>
      if existsb is_dict (values d) then
        hraise (InvalidFormatError (VStr column_id)
                  (VStr "no nested dictionaries allowed"))
      else
        _check_unique_column_id column_id column_ids ;;
        lift (SchemaValidator._check_column_format column_id d) ;;
        lift (SchemaValidator._check_required_column_keys column_id d) ;;
        lift (SchemaValidator._check_indentation column_id d) ;;
        match lookup "primary_key" d with
        | Some v =>
            if negb (is_bool v) then
              hraise (InvalidFormatError (VStr "primary_key") (VStr "boolean"))
            else hret tt
        | None => hret tt
        end ;;
        match lookup "table" d with
        | Some table =>
            lift (SchemaValidator.validate_table_reference table
                    tables_in_schema)
        | None => hret tt
        end
  | _ => hraise (InvalidFormatError (VStr column_id) (VStr "dictionary"))
  end.

Definition _validate_columns (self : t) (columns : value) : H unit :=
  match columns with
  | VDict cols =>
      column_ids <- new (StringSet []) ;;
      doc <- document (schema self) ;;
      table_info <- lift (py_getitem doc "table_info") ;;
      tables <- lift (py_iter table_info) ;;
      tables_in_schema <-
        lift (map_m (fun table =>
                       (name <- py_getitem table "table" ;;
                        if hashable name then ret name else raise TypeError)%py)
                    tables) ;;
      hfor_each cols (fun '(column_id, column) =>
        present <- contains column_ids column_id ;;
        if present then
          hraise (InvalidKeyError (VStr column_id) (VStr "unique column IDs"))
        else
          _validate_column self column_id column column_ids
            tables_in_schema ;;
          add column_ids column_id)
  | _ => hraise (InvalidFormatError (VStr "columns") (VStr "dictionary"))
  end.

Definition validate (self : t) : H unit :=
  let name := Fmt (VStr (schema_name self)) in
  htry_except
    (_check_required_keys self ;;
     doc <- document (schema self) ;;
     table_info <- lift (py_getitem doc "table_info") ;;
     lift (SchemaValidator._validate_table_info (detached self) table_info) ;;
     doc <- document (schema self) ;;
     columns <- lift (py_getitem doc "columns") ;;
     _validate_columns self columns ;;
     lift (info [Txt "Schema '"; name; Txt "' validation passed!"]))
    (fun e =>
       match e with
       | MissingKeyError _ =>
           lift (error [Txt "Schema '"; name; Txt "' Validation Error: ";
                        FmtExn e])
       | EmptyValueError _ _ =>
           lift (error [Txt "Schema '"; name; Txt "' Validation Error: ";
                        FmtExn e])
       | InvalidFormatError _ _ =>
           lift (error [Txt "Schema '"; name; Txt "' Validation Error: ";
                        FmtExn e])
       | InvalidKeyError _ _ =>
           lift (error [Txt "Schema '"; name; Txt "' Validation Error: ";
                        FmtExn e])
       | _ =>
           lift (exception [Txt "An unexpected error occurred during schema '";
                            name; Txt "' validation"] e)
       end).

(** The validator of the modules above that this one stands for, when
    its reference leads to [document]. *)
Definition value_of (self : t) (document : value) : SchemaValidator.t :=
  SchemaValidator.Build document (schema_name self).

End StoredSchemaValidator.

(** [validator/semantics_validator.py], the documents held by
    reference. *)
Module StoredSemanticsValidator.
Import Store.
Local Open Scope store_scope.

(** [self.semantics] refers to the document. *)
Record t : Type := Build {
  filename : string;
  semantics : ref
}.

(** The validator for the checks that read their arguments only. *)
Definition detached (self : t) : SemanticsValidator.t :=
  SemanticsValidator.Build (filename self) VNone.

Definition _check_required_keys (self : t) : H unit :=
  let required_keys := ["folder"; "type"] in
  hfor_each required_keys (fun key =>
    doc <- document (semantics self) ;;
    present <- lift (py_in (VStr key) doc) ;;
    if negb present then
      lift (error [Txt "Missing required key: '"; Fmt (VStr key);
                   Txt "' in the semantics."]) ;;
      hraise (ValueError ("Missing required key: '" ++ key
                          ++ "' in the semantics."))
    else hret tt) ;;
  doc <- document (semantics self) ;;
  attributes <- lift (py_get doc "attributes" VNone) ;;
  if negb (truthy attributes) then
    doc <- document (semantics self) ;;
    metrics <- lift (py_get doc "metrics" VNone) ;;
    if negb (truthy metrics) then
      lift (error
              [Txt "At least one of 'attributes' or 'metrics' must be present."]) ;;
      hraise (MissingKeyError
                (VStr "At least one of 'attributes' or 'metrics' must be present."))
    else hret tt
  else hret tt.

Definition validate_semantics (self : t) (schema : string) : H unit :=
  htry_except
    (_check_required_keys self ;;
     doc <- document (semantics self) ;;
     source <- lift (py_get doc "source" VNone) ;;
     lift (SemanticsValidator._validate_source (detached self) source) ;;
     lift (info [Txt "Semantics "; Fmt (VStr (filename self));
                 Txt " validation passed!"]))
    (fun e =>
       match e with
       | ValueError _ => lift (error [Txt "Validation Error: "; FmtExn e])
       | _ => lift (exception [Txt "An unexpected error occurred"] e)
       end).

(** [next((content for s, content in files if Path(s).stem == schema), None)],
    the contents held by reference. *)
Fixpoint find_schema (files : list (string * ref)) (schema : string)
  : option ref :=
  match files with
  | [] => None
  | (s, content) :: files' =>
      if String.eqb (path_stem s) schema then Some content
      else find_schema files' schema
  end.

Definition not_found (schema schema_key : string) : H unit :=
  lift (error [Txt "Schema '"; Fmt (VStr schema);
               Txt "' referenced in source '"; Fmt (VStr schema_key);
               Txt "' not found."]) ;;
  hraise (MissingKeyError
            (VStr ("Schema '" ++ schema ++ "' referenced in source '"
                   ++ schema_key ++ "' not found."))).

(** What [validate] does for one key of [source]. *)
Definition validate_binding (self : t) (files : list (string * ref))
    (source : value) (schema_key : string) : H unit :=
  schema <- match nth_error (split "." schema_key) 1 with
            | Some part => hret part
            | None => hraise IndexError
            end ;;
  match find_schema files schema with
  | None => not_found schema schema_key
  | Some content =>
      relevant_schema <- document content ;;
      if is_none relevant_schema then not_found schema schema_key
      else
        binding <- lift (py_getitem source schema_key) ;;
        referenced_columns <- lift (py_getitem binding "columns") ;;
        relevant_schema <- document content ;;
        lift (SemanticsValidator.validate_referenced_columns (detached self)
                schema relevant_schema referenced_columns) ;;
        doc <- document (semantics self) ;;
        attributes <- lift (py_get doc "attributes" (VDict [])) ;;
        lift (SemanticsValidator._validate_attributes (detached self)
                attributes (VStr schema)) ;;
        doc <- document (semantics self) ;;
        metrics <- lift (py_get doc "metrics" (VDict [])) ;;
        lift (SemanticsValidator._validate_metrics (detached self) metrics
                (VStr schema)) ;;
        validate_semantics self schema_key
  end.

Definition validate (self : t) (files : option (list (string * ref)))
  : H unit :=
  match files with
  | None =>
      lift (error [Txt "No schema files initialized yet."]) ;;
      hraise (MissingKeyError (VStr "No schema files initialized yet."))
  | Some files =>
      doc <- document (semantics self) ;;
      source <- lift (py_get doc "source" VNone) ;;
      if is_none source then
        lift (error [Txt "No source specified in semantics."]) ;;
        hraise (MissingKeyError (VStr "No source specified in semantics."))
      else
        lift (info [Txt "Scanning sourced schema..."]) ;;
        schema_references <- lift (py_keys source) ;;
        match schema_references with
        | [] =>
            lift (error [Txt "No schema reference found."]) ;;
            hraise (MissingKeyError (VStr "No schema reference found."))
        | _ :: _ =>
            lift (info [Txt "Found "; Fmt (strs schema_references);
                        Txt " schemas in semantics"]) ;;
            hfor_each schema_references (validate_binding self files source)
        end
  end.

Definition value_of (self : t) (document : value) : SemanticsValidator.t :=
  SemanticsValidator.Build (filename self) document.

(** The schema collection with each content in place of the reference to
    it. *)
Definition contents (base : list object) (files : list (string * ref))
    (files_v : list (string * value)) : Prop :=
  Forall2 (fun f fv =>
             fst f = fst fv
             /\ nth_error base (snd f) = Some (Document (snd fv)))
          files files_v.

End StoredSemanticsValidator.

(* ================================================================= *)
(** ** The formats the validators check, in plain terms *)

Module Format.

(** The characters of [[\w\.]]. *)
Definition name_char (x : ascii) : bool := is_word x || Ascii.eqb x ".".

(** The characters of [[A-Za-z_]] and of [[A-Za-z0-9_]]. *)
Definition ident_start (x : ascii) : bool :=
  is_ascii_upper x || is_ascii_lower x || Ascii.eqb x "_".

Definition ident_char (x : ascii) : bool := ident_start x || is_ascii_digit x.

(** Nothing, or the one newline [$] lets a subject end with. *)
Definition line_end (q : list ascii) : Prop := q = [] \/ q = [newline].

(** A non-empty run of characters of one class. *)
Definition run_of (P : ascii -> bool) (l : list ascii) : Prop :=
  l <> [] /\ Forall (fun x => P x = true) l.

(** [left = right] with both sides runs of word characters and dots. *)
Definition join_condition (s : string) : Prop :=
  exists l r q,
    chars s = l ++ chars " = " ++ r ++ q
    /\ run_of name_char l /\ run_of name_char r /\ line_end q.

(** A letter or underscore, then letters, digits and underscores. *)
Definition identifier (s : string) : Prop :=
  exists c l q,
    chars s = c :: l ++ q
    /\ ident_start c = true /\ Forall (fun x => ident_char x = true) l
    /\ line_end q.

(** [schema.<name>] with [name] a run of word characters. *)
Definition source_key (s : string) : Prop :=
  exists n q,
    chars s = chars "schema." ++ n ++ q /\ run_of is_word n /\ line_end q.

End Format.

(** A computation that can only fail with one of the four recognised
    violations. *)
Definition violation_only {A} (m : M A) : Prop :=
  forall e, outcome m = Raised e -> is_violation e = true.

(** A computation that can only fail with an exception satisfying [P]. *)
Definition raises_only {A} (P : exn -> Prop) (m : M A) : Prop :=
  forall e, outcome m = Raised e -> P e.

(** A recognised violation or a [TypeError]. *)
Definition violation_or_type_error (e : exn) : Prop :=
  is_violation e = true \/ e = TypeError.

(* ================================================================= *)
(** ** What the schema validator accepts, in plain terms *)

Module SchemaAccepts.
Import Format.

(** A join condition of a table entry: a string in the join format. *)
Definition join_ok (j : value) : Prop :=
  exists s, j = VStr s /\ join_condition s.

(** The body of the loop of [_validate_joins]. *)
Definition join_check (condition : value) : M unit :=
  match condition with
  | VStr c =>
      if negb (Re.re_match false SchemaValidator.join_pattern c) then
        raise (InvalidFormatError (VStr "join condition")
                 (VStr SchemaValidator.join_format))
      else ret tt
  | _ =>
      raise (InvalidFormatError (VStr "join condition")
               (VStr SchemaValidator.join_format))
  end.

(** A table entry: a mapping with a [table] that is not null and a list
    of join conditions. *)
Definition table_entry_ok (table : value) : Prop :=
  exists d name joins,
    table = VDict d
    /\ lookup "table" d = Some name /\ name <> VNone
    /\ lookup "joins" d = Some (VList joins)
    /\ Forall join_ok joins.

(** The [table] of a table entry can be put in a set. *)
Definition table_name_hashable (table : value) : Prop :=
  forall d name,
    table = VDict d -> lookup "table" d = Some name -> hashable name = true.

(** A value that is neither null nor a blank string. *)
Definition not_blank (v : value) : Prop :=
  v <> VNone /\ forall s, v = VStr s -> strip s <> EmptyString.

(** A column: a mapping without nested mappings, under an identifier, with
    the keys [name], [type], [column], [desc] present, truthy and not
    blank, no key besides these and [primary_key], and a boolean
    [primary_key] if any. *)
Definition column_ok (entry : string * value) : Prop :=
  exists d,
    snd entry = VDict d
    /\ Forall (fun v => is_dict v = false) (values d)
    /\ identifier (fst entry)
    /\ Forall (fun k => exists v, lookup k d = Some v /\ truthy v = true
                                  /\ not_blank v)
         ["name"; "type"; "column"; "desc"]
    /\ Forall (fun k => In k SchemaValidator.expected_keys) (keys d)
    /\ (forall v, lookup "primary_key" d = Some v -> is_bool v = true).

(** The first of the three required keys a mapping does not have. *)
Definition first_missing (m : list (string * value)) : option string :=
  find (fun k => negb (has k m)) ["subject_area"; "table_info"; "columns"].

(** The element of the set comprehension of [_validate_columns]. *)
Definition table_name (table : value) : M value :=
  (name <- py_getitem table "table" ;;
   if hashable name then ret name else raise TypeError)%py.

(** The body of the loop of [_validate_columns]. *)
Definition column_step (self : SchemaValidator.t) (tables : list value)
    (column_ids : list string) (entry : string * value) : M (list string) :=
  (let '(column_id, column) := entry in
   if mem column_id column_ids then
     raise (InvalidKeyError (VStr column_id) (VStr "unique column IDs"))
   else
     column_ids <- SchemaValidator._validate_column self column_id column
                     column_ids tables ;;
     ret (set_add column_id column_ids))%py.

(** What the two checks for a repeated column identifier raise. *)
Definition duplicate_id (e : exn) : Prop :=
  exists column_id,
    e = InvalidKeyError (VStr column_id) (VStr "unique column IDs").

(** Membership in the set of declared tables. *)
Definition declared (tables_in_schema : list value) (t : value) : Prop :=
  hashable t = true /\ existsb (py_eq t) tables_in_schema = true.

(** A schema document that passes. *)
Definition valid_schema (schema : value) : Prop :=
  exists m table_info columns,
    schema = VDict m
    /\ has "subject_area" m = true
    /\ lookup "table_info" m = Some (VList table_info)
    /\ lookup "columns" m = Some (VDict columns)
    /\ Forall table_entry_ok table_info
    /\ Forall table_name_hashable table_info
    /\ NoDup (keys columns)
    /\ Forall column_ok columns.

End SchemaAccepts.

(* ================================================================= *)
(** ** What the semantics validator accepts, in plain terms *)

Module SemanticsAccepts.
Import Format.

Definition all_strings (l : list value) : Prop :=
  Forall (fun c => is_str c = true) l.

(** A binding of [source]: a key [schema.<name>] bound to a mapping whose
    [columns] are a list of strings. *)
Definition binding_ok (entry : string * value) : Prop :=
  source_key (fst entry)
  /\ exists b cols,
       snd entry = VDict b
       /\ lookup "columns" b = Some (VList cols) /\ all_strings cols.

Definition source_ok (source : value) : Prop :=
  source = VNone \/ exists d, source = VDict d /\ Forall binding_ok d.

(** A calculation: a string of the calculation grammar. *)
Definition calculation_ok (c : value) : Prop :=
  exists s, c = VStr s /\ Grammar.shape (chars s).

Definition filters_ok (f : value) : Prop :=
  exists l, f = VList l /\ all_strings l.

(** An attribute: a mapping whose [name] and [desc], if any, are truthy,
    whose [calculation], if any, is one, and whose [filter], if any, is a
    list of strings. *)
Definition attribute_ok (entry : string * value) : Prop :=
  exists d,
    snd entry = VDict d
    /\ (forall v, lookup "name" d = Some v -> truthy v = true)
    /\ (forall v, lookup "desc" d = Some v -> truthy v = true)
    /\ (forall c, lookup "calculation" d = Some c -> calculation_ok c)
    /\ (forall f, lookup "filter" d = Some f -> filters_ok f).

(** A metric: a mapping with a truthy [name] and a [calculation], a
    string [function] if any, and no key outside the valid ones. *)
Definition metric_ok (entry : string * value) : Prop :=
  exists d name c,
    snd entry = VDict d
    /\ lookup "name" d = Some name /\ truthy name = true
    /\ lookup "calculation" d = Some c /\ calculation_ok c
    /\ (forall f, lookup "function" d = Some f -> is_str f = true)
    /\ Forall (fun k => In k SemanticsValidator.metric_valid_keys) (keys d).

End SemanticsAccepts.

(** A computation that logs nothing when it returns. *)
Definition quiet {A} (m : M A) : Prop :=
  forall a, outcome m = Returned a -> emitted m = [].

(** A log whose last record is at level ERROR. *)
Definition ends_in_error (l : list record) : Prop :=
  exists l' r, l = l' ++ [r] /\ lvl r = ERROR.

(** A computation that raises no recognised violation without having
    logged at level ERROR just before. *)
Definition reports {A} (m : M A) : Prop :=
  forall e, outcome m = Raised e -> is_violation e = true ->
            ends_in_error (emitted m).

(* ================================================================= *)
(** ** What the semantics validator resolves and what the drivers log *)

Module Resolved.
Import SemanticsAccepts.

(** The record logged when no referenced column is missing. *)
Definition verified (schema_name : string) : record :=
  Record_ INFO
    [Txt "All column references are verified in "; Fmt (VStr schema_name);
     Txt ".yml schema file."]
    None.




End Resolved.

Module MainLog.

Definition separator : record := Record_ INFO Main.separator None.

Definition validating_schema (filename : string) : record :=
  Record_ INFO
    [Txt "Validating schema from "; Fmt (VStr filename); Txt "..."] None.

(** The one record [SchemaValidator.validate] logs. *)
Definition schema_verdict (self : SchemaValidator.t) : record :=
  match outcome (SchemaLog.checks self) with
  | Returned _ => SchemaLog.passed self
  | Raised e =>
      if is_violation e then SchemaLog.reported self e
      else SchemaLog.unexpected self e
  end.

(** What [validate_schemas] logs for one document. *)
Definition schema_report (entry : string * value) : list record :=
  let '(filename, schema) := entry in
  [separator; validating_schema filename;
   schema_verdict (SchemaValidator.Build schema filename)].

Definition schema_failed (filename : string) (e : exn) : record :=
  Record_ ERROR
    [Txt "Schema validation failed for "; Fmt (VStr filename); Txt ": ";
     FmtExn e]
    None.

Definition validating_semantics (filename : string) : record :=
  Record_ INFO
    [Txt "Validating semantics from "; Fmt (VStr filename); Txt "..."] None.

Definition semantics_valid (filename : string) : record :=
  Record_ INFO [Fmt (VStr filename); Txt " semantics is valid."] None.

Definition semantics_failed (filename : string) (e : exn) : record :=
  Record_ ERROR
    [Txt "Semantics validation failed for "; Fmt (VStr filename); Txt ": ";
     FmtExn e]
    None.

(** What [validate_semantics] logs for one document. *)
Definition semantics_report (schema_files : list (string * value))
    (entry : string * value) : list record :=
  let '(filename, semantics) := entry in
  let run :=
    SemanticsValidator.validate
      (SemanticsValidator.Build filename semantics) (Some schema_files) in
  [separator; validating_semantics filename]
  ++ emitted run
  ++ [match outcome run with
      | Returned _ => semantics_valid filename
      | Raised e => semantics_failed filename e
      end;
      separator].

End MainLog.

(* ================================================================= *)
(** ** The matcher decides the denotation *)

Module ReFacts.
Import Re.

Create HintDb re.
#[local] Hint Constructors Matches : re.

Lemma bol_after_false p : bol_after false p = false.
Proof. destruct p; reflexivity. Qed.

Lemma Matches_nil_nullable ic bol r p q :
  Matches ic bol r p q -> p = [] -> nullable bol (is_eol q) r = true.
Proof.
  induction 1; intros Hp; simpl; try discriminate; auto.
  - apply app_eq_nil in Hp as [-> ->]. simpl in *.
    rewrite IHMatches1, IHMatches2; auto.
  - rewrite IHMatches; auto.
  - rewrite IHMatches; auto using orb_true_r.
Qed.

Lemma nullable_Matches_nil ic r : forall bol q,
  nullable bol (is_eol q) r = true -> Matches ic bol r [] q.
Proof.
  induction r; simpl; intros bol q H.
  - discriminate.
  - constructor.
  - subst. constructor.
  - constructor. exact H.
  - discriminate.
  - discriminate.
  - apply andb_true_iff in H as [H1 H2].
    change (@nil ascii) with (@nil ascii ++ []).
    constructor; simpl; auto.
  - apply orb_true_iff in H as [H | H]; auto with re.
  - constructor.
Qed.

Lemma Matches_Never ic bol p q : ~ Matches ic bol Never p q.
Proof. intros H. inversion H. Qed.

Lemma cat_Matches ic bol r1 r2 p q :
  Matches ic bol (cat r1 r2) p q <-> Matches ic bol (Cat r1 r2) p q.
Proof.
  split.
  - destruct r1; simpl; intros H;
      try (destruct r2; [ now apply Matches_Never in H | exact H .. ]);
      try now apply Matches_Never in H.
    destruct r2; try now apply Matches_Never in H.
    all: change p with ([] ++ p); constructor; simpl; auto with re.
  - intros H. inversion H; subst; clear H.
    destruct r1; simpl;
      try (now match goal with H : Matches _ _ Never _ _ |- _ =>
                 apply Matches_Never in H end);
      try (destruct r2;
           [ now match goal with H : Matches _ _ Never _ _ |- _ =>
                   apply Matches_Never in H end
           | now constructor .. ]).
    match goal with H : Matches _ _ Eps _ _ |- _ => inversion H; subst end.
    simpl in *. destruct r2; auto.
Qed.

Lemma alt_Matches ic bol r1 r2 p q :
  Matches ic bol (alt r1 r2) p q <-> Matches ic bol (Alt r1 r2) p q.
Proof.
  split.
  - destruct r1; simpl; intros H; auto with re;
      destruct r2; auto with re.
  - intros H. inversion H; subst; clear H.
    + destruct r1; simpl;
        try (now match goal with H : Matches _ _ Never _ _ |- _ =>
                   apply Matches_Never in H end);
        destruct r2; auto with re.
    + destruct r2; simpl;
        try (now match goal with H : Matches _ _ Never _ _ |- _ =>
                   apply Matches_Never in H end);
        destruct r1; simpl; auto with re;
        try (now match goal with H : Matches _ _ Never _ _ |- _ =>
                   apply Matches_Never in H end).
Qed.

Lemma deriv_sound ic r : forall bol x p q,
  Matches ic false (deriv ic bol (is_eol (x :: p ++ q)) x r) p q ->
  Matches ic bol r (x :: p) q.
Proof.
  induction r; simpl; intros bol x p q H;
    try now apply Matches_Never in H.
  - destruct (lit_matches ic c x) eqn:E; [| now apply Matches_Never in H].
    inversion H; subst. now constructor.
  - destruct (set_matches ic items x) eqn:E; [| now apply Matches_Never in H].
    inversion H; subst. now constructor.
  - apply alt_Matches in H. inversion H; subst; clear H.
    + match goal with H : Matches _ _ (cat _ _) _ _ |- _ =>
        apply cat_Matches in H; inversion H; subst; clear H end.
      rewrite bol_after_false in *.
      change (x :: p1 ++ p2) with ((x :: p1) ++ p2).
      constructor; simpl; auto.
      apply IHr1. now rewrite app_assoc.
    + match goal with H : Matches _ _ (if ?b then _ else _) _ _ |- _ =>
        destruct b eqn:E; [| now apply Matches_Never in H] end.
      change (x :: p) with ([] ++ x :: p).
      constructor; simpl; auto.
      now apply nullable_Matches_nil.
  - apply alt_Matches in H. inversion H; subst; auto with re.
  - apply cat_Matches in H. inversion H; subst; clear H.
    rewrite bol_after_false in *.
    change (x :: p1 ++ p2) with ((x :: p1) ++ p2).
    constructor; auto.
    apply IHr. now rewrite app_assoc.
Qed.

Lemma deriv_complete ic bol r s q :
  Matches ic bol r s q ->
  forall y w, s = y :: w ->
  Matches ic false (deriv ic bol (is_eol (s ++ q)) y r) w q.
Proof.
  induction 1; intros y w Hs; simpl; try discriminate.
  - injection Hs as -> <-. rewrite H. constructor.
  - injection Hs as -> <-. rewrite H. constructor.
  - apply alt_Matches. destruct p1 as [| z p1]; simpl in *.
    + subst p2. apply MAltR.
      rewrite (Matches_nil_nullable H eq_refl).
      now apply IHMatches2.
    + injection Hs as -> <-. apply MAltL. apply cat_Matches.
      constructor.
      * rewrite <- app_assoc. now apply IHMatches1.
      * now rewrite bol_after_false.
  - apply alt_Matches. apply MAltL. now apply IHMatches.
  - apply alt_Matches. apply MAltR. now apply IHMatches.
  - injection Hs as -> <-. apply cat_Matches. constructor.
    + simpl. rewrite <- app_assoc. now apply IHMatches1.
    + now rewrite bol_after_false.
Qed.

Lemma deriv_Matches ic bol r x p q :
  Matches ic false (deriv ic bol (is_eol (x :: p ++ q)) x r) p q <->
  Matches ic bol r (x :: p) q.
Proof.
  split.
  - apply deriv_sound.
  - intros H. exact (deriv_complete H eq_refl).
Qed.

(** [match_from] succeeds exactly when some prefix of the subject is in
    the denotation of the pattern. *)
Lemma match_from_spec ic s : forall bol r,
  match_from ic bol r s = true <->
  exists p q, s = p ++ q /\ Matches ic bol r p q.
Proof.
  induction s as [| x s IH]; intros bol r; simpl.
  - rewrite orb_false_r. split.
    + intros H. exists [], []. split; auto.
      now apply nullable_Matches_nil.
    + intros (p & q & Hs & H). symmetry in Hs.
      apply app_eq_nil in Hs as [-> ->].
      exact (Matches_nil_nullable H eq_refl).
  - rewrite orb_true_iff, IH. split.
    + intros [H | (p & q & -> & H)].
      * exists [], (x :: s). split; auto.
        now apply nullable_Matches_nil.
      * exists (x :: p), q. split; auto.
        now apply deriv_sound.
    + intros (p & q & Hs & H). destruct p as [| y p]; simpl in Hs.
      * subst q. left. exact (Matches_nil_nullable H eq_refl).
      * injection Hs as <- ->. right. exists p, q. split; auto.
        exact (deriv_complete H eq_refl).
Qed.

End ReFacts.

(* ================================================================= *)
(** ** Computations and the logger *)

Section Emits.
Context {P : record -> Prop}.

Lemma emits_ret A (a : A) : emits P (ret a).
Proof.
  exists (Returned a), []. split; [constructor |].
  intros st. unfold ret. now rewrite app_nil_r.
Qed.

Lemma emits_raise A e : emits P (@raise A e).
Proof.
  exists (Raised e), []. split; [constructor |].
  intros st. unfold raise. now rewrite app_nil_r.
Qed.

Lemma emits_emit r : P r -> emits P (emit r).
Proof.
  intros H. exists (Returned tt), [r]. split; [now repeat constructor |].
  reflexivity.
Qed.

Lemma emits_bind A B (m : M A) (f : A -> M B) :
  emits P m -> (forall a, emits P (f a)) -> emits P (bind m f).
Proof.
  intros (r & l & Hl & Hm) Hf. destruct r as [a | e].
  - destruct (Hf a) as (r' & l' & Hl' & Hfa).
    exists r', (l ++ l'). split; [now apply Forall_app |].
    intros st. unfold bind. now rewrite Hm, Hfa, app_assoc.
  - exists (Raised e), l. split; [assumption |].
    intros st. unfold bind. now rewrite Hm.
Qed.

Lemma emits_try_except A (body : M A) (handler : exn -> M A) :
  emits P body -> (forall e, emits P (handler e)) ->
  emits P (try_except body handler).
Proof.
  intros (r & l & Hl & Hm) Hh. destruct r as [a | e].
  - exists (Returned a), l. split; [assumption |].
    intros st. unfold try_except. now rewrite Hm.
  - destruct (Hh e) as (r' & l' & Hl' & Hhe).
    exists r', (l ++ l'). split; [now apply Forall_app |].
    intros st. unfold try_except. now rewrite Hm, Hhe, app_assoc.
Qed.

Lemma emits_for_each A (l : list A) (body : A -> M unit) :
  (forall x, emits P (body x)) -> emits P (for_each l body).
Proof.
  intros H. induction l as [| x l IH]; simpl.
  - apply emits_ret.
  - apply emits_bind; auto.
Qed.

Lemma emits_for_fold A S (l : list A) (body : S -> A -> M S) : forall s,
  (forall s x, emits P (body s x)) -> emits P (for_fold l s body).
Proof.
  induction l as [| x l IH]; simpl; intros s H.
  - apply emits_ret.
  - apply emits_bind; auto.
Qed.

Lemma emits_map_m A B (f : A -> M B) (l : list A) :
  (forall x, emits P (f x)) -> emits P (map_m f l).
Proof.
  intros H. induction l as [| x l IH]; simpl.
  - apply emits_ret.
  - apply emits_bind; auto. intros y.
    apply emits_bind; auto. intros ys. apply emits_ret.
Qed.

Lemma emits_filter_m A (f : A -> M bool) (l : list A) :
  (forall x, emits P (f x)) -> emits P (filter_m f l).
Proof.
  intros H. induction l as [| x l IH]; simpl.
  - apply emits_ret.
  - apply emits_bind; auto. intros y.
    apply emits_bind; auto. intros ys. apply emits_ret.
Qed.

End Emits.

Lemma emits_weaken A (P Q : record -> Prop) (m : M A) :
  (forall r, P r -> Q r) -> emits P m -> emits Q m.
Proof.
  intros H (r & l & Hl & Hm). exists r, l. split; [| assumption].
  eapply Forall_impl; eauto.
Qed.

Lemma emits_run A (P : record -> Prop) (m : M A) :
  emits P m ->
  Forall P (emitted m) /\ forall st, m st = (outcome m, st ++ emitted m).
Proof.
  intros (r & l & Hl & Hm). unfold outcome, emitted.
  rewrite (Hm []). simpl. split; [assumption |].
  intros st. now rewrite Hm.
Qed.

Lemma silent_run A (m : M A) :
  silent m -> forall st, m st = (outcome m, st).
Proof.
  intros H st. destruct (emits_run H) as [Hl Hm].
  rewrite Hm. destruct (emitted m) as [| r l].
  - now rewrite app_nil_r.
  - inversion Hl; contradiction.
Qed.

Create HintDb emits.
#[export] Hint Resolve emits_ret emits_raise : emits.

(** One step through the text of a computation; [tac] proves that a
    logged record is an allowed one. *)
Ltac emits_step tac :=
  match goal with
  | |- emits _ (ret _) => apply emits_ret
  | |- emits _ (raise _) => apply emits_raise
  | |- emits _ (emit _) => apply emits_emit; tac
  | |- emits _ (info _) => apply emits_emit; tac
  | |- emits _ (error _) => apply emits_emit; tac
  | |- emits _ (exception _ _) => apply emits_emit; tac
  | |- emits _ (bind _ _) => apply emits_bind; [| intros ?]
  | |- emits _ (try_except _ _) => apply emits_try_except; [| intros ?]
  | |- emits _ (for_each _ _) => apply emits_for_each; intros ?
  | |- emits _ (for_fold _ _ _) => apply emits_for_fold; intros ? ?
  | |- emits _ (map_m _ _) => apply emits_map_m; intros ?
  | |- emits _ (filter_m _ _) => apply emits_filter_m; intros ?
  | |- emits _ _ => solve [eauto with emits]
  | |- emits _ (match ?x with _ => _ end) => destruct x
  | |- emits _ (if ?x then _ else _) => destruct x
  | |- emits _ (let _ := _ in _) => cbv zeta
  end.

Ltac emits_auto tac := repeat (emits_step tac).

Section Builtins.
Context {P : record -> Prop}.

Lemma emits_py_in x c : emits P (py_in x c).
Proof. unfold py_in. emits_auto idtac. Qed.

Lemma emits_set_in x c : emits P (set_in x c).
Proof. unfold set_in. emits_auto idtac. Qed.

Lemma emits_py_getitem c k : emits P (py_getitem c k).
Proof. unfold py_getitem. emits_auto idtac. Qed.

Lemma emits_py_get c k d : emits P (py_get c k d).
Proof. unfold py_get. emits_auto idtac. Qed.

Lemma emits_py_keys c : emits P (py_keys c).
Proof. unfold py_keys. emits_auto idtac. Qed.

Lemma emits_py_iter c : emits P (py_iter c).
Proof. unfold py_iter. emits_auto idtac. Qed.

Lemma emits_py_join sep l : emits P (py_join sep l).
Proof.
  induction l as [| v l IH]; simpl.
  - apply emits_ret.
  - destruct v; try apply emits_raise.
    destruct l; [apply emits_ret |].
    apply emits_bind; auto. intros r. apply emits_ret.
Qed.

End Builtins.

#[export] Hint Resolve emits_py_in emits_set_in emits_py_getitem emits_py_get
  emits_py_keys emits_py_iter emits_py_join : emits.

Lemma framed_run A (m : M A) :
  framed m -> forall st, m st = (outcome m, st ++ emitted m).
Proof. intros H. apply (emits_run H). Qed.

Lemma outcome_bind A B (m : M A) (f : A -> M B) :
  framed m -> (forall a, framed (f a)) ->
  outcome (bind m f) =
  match outcome m with
  | Returned a => outcome (f a)
  | Raised e => Raised e
  end.
Proof.
  intros Hm Hf. unfold outcome at 1. unfold bind.
  rewrite (framed_run Hm). destruct (outcome m) as [a | e]; [| reflexivity].
  now rewrite (framed_run (Hf a)).
Qed.

Lemma emitted_bind A B (m : M A) (f : A -> M B) :
  framed m -> (forall a, framed (f a)) ->
  emitted (bind m f) =
  emitted m ++ match outcome m with
               | Returned a => emitted (f a)
               | Raised e => []
               end.
Proof.
  intros Hm Hf. unfold emitted at 1. unfold bind.
  rewrite (framed_run Hm). destruct (outcome m) as [a | e].
  - now rewrite (framed_run (Hf a)).
  - simpl. now rewrite app_nil_r.
Qed.

Lemma framed_for_each A (l : list A) (body : A -> M unit) :
  (forall x, framed (body x)) ->
  framed (for_each l body).
Proof. apply emits_for_each. Qed.

(** A loop whose first iterations return normally raises what the next
    one raises. *)
Lemma for_each_reaches A (body : A -> M unit) l1 x l2 e :
  (forall y, framed (body y)) ->
  Forall (fun y => outcome (body y) = Returned tt) l1 ->
  outcome (body x) = Raised e ->
  outcome (for_each (l1 ++ x :: l2) body) = Raised e.
Proof.
  intros Hf Hl Hx. induction Hl as [| y l1 Hy Hl IH]; simpl.
  - rewrite outcome_bind; auto using framed_for_each. now rewrite Hx.
  - rewrite outcome_bind; auto using framed_for_each. now rewrite Hy.
Qed.

Lemma has_false_lookup k d : has k d = false -> lookup k d = None.
Proof. unfold has. now destruct (lookup k d). Qed.


(* ================================================================= *)
(** ** The schema validator: what it logs *)

Module SchemaFacts.
Import SchemaValidator SchemaLog.

Section Silent.
Context {P : record -> Prop}.

Lemma emits_check_required_schema_keys self : emits P (_check_required_keys self).
Proof. unfold _check_required_keys. emits_auto idtac. Qed.

Lemma emits_validate_joins j n : emits P (_validate_joins j n).
Proof. unfold _validate_joins. emits_auto idtac. Qed.

Hint Resolve emits_validate_joins : emits.

Lemma emits_validate_table_entry self tb : emits P (_validate_table_entry self tb).
Proof. unfold _validate_table_entry. emits_auto idtac. Qed.

Hint Resolve emits_validate_table_entry : emits.

Lemma emits_validate_table_info self ti : emits P (_validate_table_info self ti).
Proof. unfold _validate_table_info. emits_auto idtac. Qed.

Lemma emits_check_unique_column_id c ids : emits P (_check_unique_column_id c ids).
Proof. unfold _check_unique_column_id. emits_auto idtac. Qed.

Lemma emits_check_column_format c d : emits P (_check_column_format c d).
Proof. unfold _check_column_format. emits_auto idtac. Qed.

Lemma emits_check_required_column_keys c d :
  emits P (_check_required_column_keys c d).
Proof. unfold _check_required_column_keys. emits_auto idtac. Qed.

Lemma emits_check_indentation c d : emits P (_check_indentation c d).
Proof. unfold _check_indentation. emits_auto idtac. Qed.

Lemma emits_validate_table_reference tb tbs :
  emits P (validate_table_reference tb tbs).
Proof. unfold validate_table_reference. emits_auto idtac. Qed.

Hint Resolve emits_check_unique_column_id emits_check_column_format
  emits_check_required_column_keys emits_check_indentation
  emits_validate_table_reference : emits.

Lemma emits_validate_column self c col ids tbs :
  emits P (_validate_column self c col ids tbs).
Proof. unfold _validate_column. emits_auto idtac. Qed.

Hint Resolve emits_validate_column emits_check_required_schema_keys
  emits_validate_table_info : emits.

Lemma emits_validate_columns self cols : emits P (_validate_columns self cols).
Proof. unfold _validate_columns. emits_auto idtac. Qed.

Hint Resolve emits_validate_columns : emits.

Lemma emits_checks self : emits P (checks self).
Proof. unfold checks. emits_auto idtac. Qed.

End Silent.

(** [validate] is its checks under the handlers. *)
Lemma validate_checks self st :
  validate self st =
  match checks self st with
  | (Returned _, st') => (Returned tt, st' ++ [passed self])
  | (Raised e, st') =>
      (Returned tt,
       st' ++ [if is_violation e then reported self e else unexpected self e])
  end.
Proof.
  unfold validate, checks, try_except, bind.
  destruct (_check_required_keys self st) as [[[] | e] st1];
    [| now destruct e].
  destruct (py_getitem (schema self) "table_info" st1) as [[ti | e] st2];
    [| now destruct e].
  destruct (_validate_table_info self ti st2) as [[[] | e] st3];
    [| now destruct e].
  destruct (py_getitem (schema self) "columns" st3) as [[cols | e] st4];
    [| now destruct e].
  destruct (_validate_columns self cols st4) as [[[] | e] st5];
    [| now destruct e].
  reflexivity.
Qed.

Lemma validate_run self st :
  validate self st =
  (Returned tt,
   st ++ [match outcome (checks self) with
          | Returned _ => passed self
          | Raised e =>
              if is_violation e then reported self e else unexpected self e
          end]).
Proof.
  rewrite validate_checks.
  rewrite (silent_run (emits_checks self) st).
  now destruct (outcome (checks self)).
Qed.

End SchemaFacts.

(* ================================================================= *)
(** ** Loops that raise *)

Lemma for_each_raises A (l : list A) (body : A -> M unit) x :
  In x l ->
  (forall st, exists e st', body x st = (Raised e, st')) ->
  forall st, exists e st', for_each l body st = (Raised e, st').
Proof.
  intros Hin Hx. induction l as [| a l IH]; [contradiction |].
  intros st. simpl. unfold bind.
  destruct (body a st) as [[[] | e] st1] eqn:E.
  - destruct Hin as [-> | Hin].
    + destruct (Hx st) as (e & st' & H). congruence.
    + apply IH, Hin.
  - eauto.
Qed.

Lemma for_fold_raises A S (l : list A) (body : S -> A -> M S) x :
  In x l ->
  (forall s st, exists e st', body s x st = (Raised e, st')) ->
  forall s st, exists e st', for_fold l s body st = (Raised e, st').
Proof.
  intros Hin Hx. induction l as [| a l IH]; [contradiction |].
  intros s st. simpl. unfold bind.
  destruct (body s a st) as [[s' | e] st1] eqn:E.
  - destruct Hin as [-> | Hin].
    + destruct (Hx s st) as (e & st' & H). congruence.
    + apply IH, Hin.
  - eauto.
Qed.

Lemma bind_raises_l A B (m : M A) (f : A -> M B) st :
  (exists e st', m st = (Raised e, st')) ->
  exists e st', bind m f st = (Raised e, st').
Proof. intros (e & st' & H). unfold bind. rewrite H. eauto. Qed.

Lemma bind_raises_r A B (m : M A) (f : A -> M B) st :
  (forall a st1, exists e st', f a st1 = (Raised e, st')) ->
  exists e st', bind m f st = (Raised e, st').
Proof.
  intros H. unfold bind. destruct (m st) as [[a | e] st1]; eauto.
Qed.

Lemma has_In_keys k d : has k d = true -> In k (keys d).
Proof.
  unfold has. induction d as [| [k' v] d IH]; simpl; [discriminate |].
  destruct (String.eqb k k') eqn:E.
  - apply String.eqb_eq in E. auto.
  - auto.
Qed.

Module SchemaRejects.
Import SchemaValidator SchemaLog SchemaFacts.

(** A column that carries a [table] key does not get past the key check of
    [_check_indentation]. *)
Lemma check_indentation_table column_id d st :
  has "table" d = true ->
  exists e st', _check_indentation column_id d st = (Raised e, st').
Proof.
  intros H. unfold _check_indentation. apply bind_raises_l.
  apply for_each_raises with (x := "table").
  - now apply has_In_keys.
  - intros st0. simpl. unfold raise. eauto.
Qed.

Lemma validate_column_table self column_id d ids tables st :
  has "table" d = true ->
  exists e st',
    _validate_column self column_id (VDict d) ids tables st = (Raised e, st').
Proof.
  intros H. unfold _validate_column.
  destruct (existsb is_dict (values d)); [unfold raise; eauto |].
  apply bind_raises_r. intros ids1 st1.
  apply bind_raises_r. intros [] st2.
  apply bind_raises_r. intros [] st3.
  apply bind_raises_l. now apply check_indentation_table.
Qed.

Lemma validate_columns_table self cols column_id d st :
  In (column_id, VDict d) cols ->
  has "table" d = true ->
  exists e st', _validate_columns self (VDict cols) st = (Raised e, st').
Proof.
  intros Hin H. unfold _validate_columns.
  apply bind_raises_r. intros ti st1.
  apply bind_raises_r. intros tables st2.
  apply bind_raises_r. intros tis st3.
  apply bind_raises_l.
  apply for_fold_raises with (x := (column_id, VDict d)); [assumption |].
  intros ids st4. destruct (mem column_id ids); [unfold raise; eauto |].
  apply bind_raises_l. now apply validate_column_table.
Qed.

Lemma checks_table self m cols column_id d :
  schema self = VDict m ->
  lookup "columns" m = Some (VDict cols) ->
  In (column_id, VDict d) cols ->
  has "table" d = true ->
  exists e, outcome (checks self) = Raised e.
Proof.
  intros Hs Hc Hin H.
  assert (exists e st', checks self [] = (Raised e, st')) as (e & st' & E).
  { unfold checks.
    apply bind_raises_r. intros [] st1.
    apply bind_raises_r. intros ti st2.
    apply bind_raises_r. intros [] st3.
    unfold bind at 1. rewrite Hs. simpl. rewrite Hc. unfold ret.
    eapply validate_columns_table; eauto. }
  exists e. unfold outcome. now rewrite E.
Qed.

End SchemaRejects.

(* ================================================================= *)
(** ** Schema validator: the stated properties *)

(** C1.  The schema of example scenario 1 (column [order_id] with [name],
    [type], [column], [desc], [table: "orders"] and [primary_key: true])
    does not pass [SchemaValidator.validate]: the closed key set of
    [_check_indentation] leaves [table] out, so the document is reported
    with [InvalidKeyError('table', ...)]; the same holds for every schema
    document one of whose columns carries a [table] key, while the
    scenario without that key passes. *)
Theorem C1_scenario1_rejected_for_table_key :
  SchemaValidator.validate Scenarios.scenario1 [] =
    (Returned tt,
     [SchemaLog.reported Scenarios.scenario1
        (InvalidKeyError (VStr "table") (strs SchemaValidator.expected_keys))])
  /\ SchemaValidator.validate Scenarios.scenario1_bare [] =
       (Returned tt, [SchemaLog.passed Scenarios.scenario1_bare])
  /\ forall self m cols column_id d st,
       SchemaValidator.schema self = VDict m ->
       lookup "columns" m = Some (VDict cols) ->
       In (column_id, VDict d) cols ->
       has "table" d = true ->
       exists e,
         SchemaValidator.validate self st =
           (Returned tt,
            st ++ [if is_violation e then SchemaLog.reported self e
                   else SchemaLog.unexpected self e]).
Proof.
  split; [| split].
  - vm_compute. reflexivity.
  - vm_compute. reflexivity.
  - intros self m cols column_id d st Hs Hc Hin H.
    destruct (@SchemaRejects.checks_table self m cols column_id d Hs Hc Hin H)
      as (e & E).
    exists e. rewrite SchemaFacts.validate_run. now rewrite E.
Qed.

Lemma C1_scenario1_rejected_for_table_key_witness :
  exists e,
    SchemaValidator.validate Scenarios.scenario1 [] =
      (Returned tt,
       [] ++ [if is_violation e
              then SchemaLog.reported Scenarios.scenario1 e
              else SchemaLog.unexpected Scenarios.scenario1 e]).
Proof.
  apply (proj2 (proj2 C1_scenario1_rejected_for_table_key)
           Scenarios.scenario1
           [("subject_area", VStr "sales");
            ("table_info",
             VList [VDict [("table", VStr "orders"); ("joins", VList [])]]);
            ("columns", VDict [("order_id", Scenarios.order_id "orders")])]
           [("order_id", Scenarios.order_id "orders")]
           "order_id"
           [("name", VStr "Order Id"); ("type", VStr "int");
            ("column", VStr "order_id"); ("desc", VStr "id");
            ("table", VStr "orders"); ("primary_key", VBool true)]
           []).
  - reflexivity.
  - reflexivity.
  - simpl. left. reflexivity.
  - reflexivity.
Defined.

(** C5.  A column whose [table] names a table absent from [table_info] is
    not reported as [MissingKeyError] naming that table: scenario 1 bound
    to the undeclared table [customers] is reported with
    [InvalidKeyError('table', ...)], although [validate_table_reference]
    itself raises [MissingKeyError('customers')] for it. *)
Theorem C5_dangling_table_reported_as_invalid_key :
  SchemaValidator.validate Scenarios.scenario1_dangling [] =
    (Returned tt,
     [SchemaLog.reported Scenarios.scenario1_dangling
        (InvalidKeyError (VStr "table") (strs SchemaValidator.expected_keys))])
  /\ SchemaValidator.validate_table_reference (VStr "customers")
       [VStr "orders"] [] =
     (Raised (MissingKeyError (VStr "customers")), []).
Proof. split; vm_compute; reflexivity. Qed.

(** C6.  [SchemaValidator.validate] never propagates an exception: for
    every document and whatever was logged before, it returns normally
    having logged exactly one record, which is the record of success, the
    report of a recognised violation (MissingKey, EmptyValue,
    InvalidFormat, InvalidKey), or the report of an unexpected error. *)
Theorem C6_schema_validate_never_raises :
  forall (self : SchemaValidator.t) (st : logger),
  exists r,
    SchemaValidator.validate self st = (Returned tt, st ++ [r])
    /\ (r = SchemaLog.passed self
        \/ exists e,
             (is_violation e = true /\ r = SchemaLog.reported self e)
             \/ (is_violation e = false /\ r = SchemaLog.unexpected self e)).
Proof.
  intros self st. rewrite SchemaFacts.validate_run.
  eexists. split; [reflexivity |].
  destruct (outcome (SchemaLog.checks self)) as [[] | e]; [now left |].
  right. exists e. destruct (is_violation e); auto.
Qed.

(* ================================================================= *)
(** ** The semantics validator: what it logs *)

Module SemanticsFacts.
Import SemanticsValidator SemanticsLog.

Ltac not_passed_tac := unfold not_passed, passed; discriminate.

Section NotPassed.
Variable self : t.
Let P := not_passed self.

Lemma emits_validate_calculation c : emits P (_validate_calculation c).
Proof. unfold _validate_calculation. emits_auto not_passed_tac. Qed.

Lemma emits_validate_filters f : emits P (_validate_filters f).
Proof. unfold _validate_filters. emits_auto not_passed_tac. Qed.

Lemma emits_require_non_empty kind owner key d :
  kind <> "Semantics " -> emits P (require_non_empty kind owner key d).
Proof.
  intros H. unfold require_non_empty.
  emits_auto ltac:(unfold P, not_passed, passed; congruence).
Qed.

Hint Resolve emits_validate_calculation emits_validate_filters : emits.

Lemma emits_validate_attribute o k a sc : emits P (_validate_attribute o k a sc).
Proof.
  unfold _validate_attribute.
  emits_auto ltac:(first [not_passed_tac
                         | apply emits_require_non_empty; discriminate]).
  all: apply emits_require_non_empty; discriminate.
Qed.

Hint Resolve emits_validate_attribute : emits.

Lemma emits_validate_attributes o a sc : emits P (_validate_attributes o a sc).
Proof. unfold _validate_attributes. emits_auto not_passed_tac. Qed.

Lemma emits_validate_metric_keys o k d : emits P (_validate_metric_keys o k d).
Proof. unfold _validate_metric_keys. emits_auto not_passed_tac. Qed.

Lemma emits_validate_attribute_keys o k d :
  emits P (_validate_attribute_keys o k d).
Proof. unfold _validate_attribute_keys. emits_auto not_passed_tac. Qed.

Hint Resolve emits_validate_metric_keys : emits.

Lemma emits_validate_metric o k m sc : emits P (_validate_metric o k m sc).
Proof.
  unfold _validate_metric.
  emits_auto ltac:(first [not_passed_tac
                         | apply emits_require_non_empty; discriminate]).
  all: apply emits_require_non_empty; discriminate.
Qed.

Hint Resolve emits_validate_metric : emits.

Lemma emits_validate_metrics o m sc : emits P (_validate_metrics o m sc).
Proof. unfold _validate_metrics. emits_auto not_passed_tac. Qed.

Lemma emits_check_required_keys : emits P (_check_required_keys self).
Proof. unfold _check_required_keys. emits_auto not_passed_tac. Qed.

Lemma emits_validate_source o src : emits P (_validate_source o src).
Proof. unfold _validate_source. emits_auto not_passed_tac. Qed.

Lemma emits_validate_referenced_columns o n sc cols :
  emits P (validate_referenced_columns o n sc cols).
Proof. unfold validate_referenced_columns. emits_auto not_passed_tac. Qed.

End NotPassed.

#[export] Hint Resolve emits_validate_attributes emits_validate_metrics
  emits_check_required_keys emits_validate_source
  emits_validate_referenced_columns : emits.

Lemma not_passed_framed A self (m : M A) : emits (not_passed self) m -> framed m.
Proof. apply emits_weaken. trivial. Qed.

Lemma framed_validate_semantics self key : framed (validate_semantics self key).
Proof.
  unfold validate_semantics, framed.
  emits_auto ltac:(exact I);
    apply (@not_passed_framed _ self); eauto with emits.
Qed.

Lemma framed_validate_binding self files source key :
  framed (validate_binding self files source key).
Proof.
  unfold validate_binding, framed.
  emits_auto ltac:(exact I);
    first [ apply framed_validate_semantics
          | apply (@not_passed_framed _ self); eauto with emits ].
Qed.

Lemma framed_validate self files : framed (validate self files).
Proof.
  unfold validate, framed.
  emits_auto ltac:(exact I). apply framed_validate_binding.
Qed.

End SemanticsFacts.

(* ================================================================= *)
(** ** The validators over the objects of the interpreter: what a call
       leaves behind *)

Module StoreFacts.
Import Store.
Local Open Scope store_scope.

Lemma extends_ret P A (a : A) : extends P (hret a) (ret a).
Proof. intros objs l _. exists []. now rewrite app_nil_r. Qed.

Lemma extends_raise P A e : extends P (@hraise A e) (@raise A e).
Proof. intros objs l _. exists []. now rewrite app_nil_r. Qed.

Lemma lift_run A (m : M A) objs l :
  lift m (State objs l) = (fst (m l), State objs (snd (m l))).
Proof. unfold lift. cbn [log objects]. now destruct (m l). Qed.

Lemma extends_lift P A (m : M A) : extends P (lift m) m.
Proof.
  intros objs l _. exists []. now rewrite app_nil_r, lift_run.
Qed.

Lemma extends_bind P A B (h : H A) (hf : A -> H B) (m : M A) (mf : A -> M B) :
  monotone P ->
  extends P h m -> (forall a, extends P (hf a) (mf a)) ->
  extends P (hbind h hf) (bind m mf).
Proof.
  intros Hm Hh Hf objs l HP.
  destruct (Hh objs l HP) as (e1 & E1).
  unfold hbind, bind. rewrite E1.
  destruct (m l) as [[a | e] l1]; cbn [fst snd].
  - destruct (Hf a (objs ++ e1) l1 (Hm _ _ HP)) as (e2 & E2).
    exists (e1 ++ e2). now rewrite app_assoc.
  - now exists e1.
Qed.

Lemma document_run a v objs l :
  nth_error objs a = Some (Document v) ->
  document a (State objs l) = (Returned v, State objs l).
Proof.
  intros E. unfold document, hbind, read. cbn [objects]. now rewrite E.
Qed.

(** Reading a document that is there: the code goes on with its
    value. *)
Lemma extends_document (P : list object -> Prop) a v A (hf : value -> H A)
    (m : M A) :
  (forall objs, P objs -> nth_error objs a = Some (Document v)) ->
  extends P (hf v) m ->
  extends P (hbind (document a) hf) m.
Proof.
  intros HP Hh objs l Hobjs.
  unfold hbind at 1. rewrite (@document_run a v objs l (HP objs Hobjs)).
  now apply Hh.
Qed.

Lemma extends_for_each P A (l : list A) (hb : A -> H unit) (mb : A -> M unit) :
  monotone P ->
  (forall x, extends P (hb x) (mb x)) ->
  extends P (hfor_each l hb) (for_each l mb).
Proof.
  intros Hm Hb. induction l as [| x l IH]; cbn [hfor_each for_each].
  - apply extends_ret.
  - apply extends_bind; auto.
Qed.

Lemma extends_try_except P A (h : H A) (hh : exn -> H A) (m : M A)
    (mh : exn -> M A) :
  monotone P ->
  extends P h m -> (forall e, extends P (hh e) (mh e)) ->
  extends P (htry_except h hh) (try_except m mh).
Proof.
  intros Hm Hh Hhh objs l HP.
  destruct (Hh objs l HP) as (e1 & E1).
  unfold htry_except, try_except. rewrite E1.
  destruct (m l) as [[a | e] l1]; cbn [fst snd].
  - now exists e1.
  - destruct (Hhh e (objs ++ e1) l1 (Hm _ _ HP)) as (e2 & E2).
    exists (e1 ++ e2). now rewrite app_assoc.
Qed.

Lemma lift_bind_run A B (m : M A) (hf : A -> H B) objs l :
  hbind (lift m) hf (State objs l) =
  match m l with
  | (Returned a, l') => hf a (State objs l')
  | (Raised e, l') => (Raised e, State objs l')
  end.
Proof.
  unfold hbind. rewrite lift_run. now destruct (m l) as [[a | e] l'].
Qed.

Lemma nth_error_last A (l : list A) x :
  nth_error (l ++ [x]) (List.length l) = Some x.
Proof.
  rewrite nth_error_app2 by apply Nat.le_refl.
  now rewrite Nat.sub_diag.
Qed.

Lemma replace_last l x y :
  replace (List.length l) y (l ++ [x]) = l ++ [y].
Proof. induction l as [| z l IH]; simpl; [reflexivity | now rewrite IH]. Qed.

Lemma contains_run base ids k l :
  contains (List.length base) k (State (base ++ [StringSet ids]) l)
  = (Returned (mem k ids), State (base ++ [StringSet ids]) l).
Proof.
  unfold contains, hbind, read. cbn [objects].
  now rewrite nth_error_last.
Qed.

Lemma add_run base ids k l :
  add (List.length base) k (State (base ++ [StringSet ids]) l)
  = (Returned tt, State (base ++ [StringSet (set_add k ids)]) l).
Proof.
  unfold add, hbind, read, write. cbn [objects].
  rewrite nth_error_last. cbn [objects log]. now rewrite replace_last.
Qed.

End StoreFacts.

Module StoredSchemaFacts.
Import Store StoreFacts.
Local Open Scope store_scope.

Section Stored.
Variables (self : StoredSchemaValidator.t) (doc : value).

(** The reference of the validator leads to [doc]. *)
Definition at_schema (objs : list object) : Prop :=
  nth_error objs (StoredSchemaValidator.schema self) = Some (Document doc).

Lemma at_schema_monotone : monotone at_schema.
Proof.
  intros objs extra H. unfold at_schema in *.
  rewrite nth_error_app1; [assumption |].
  apply nth_error_Some. rewrite H. discriminate.
Qed.

Lemma check_required_keys_extends :
  extends at_schema (StoredSchemaValidator._check_required_keys self)
    (SchemaValidator._check_required_keys
       (StoredSchemaValidator.value_of self doc)).
Proof.
  unfold StoredSchemaValidator._check_required_keys,
    SchemaValidator._check_required_keys. cbv zeta.
  apply extends_for_each; [apply at_schema_monotone |]. intros key.
  apply extends_document with (v := doc); [auto |].
  apply extends_bind; [apply at_schema_monotone | apply extends_lift |].
  intros present.
  destruct (negb present); [apply extends_raise | apply extends_ret].
Qed.

Ltac lifted :=
  rewrite lift_run;
  match goal with
  | |- context [fst (?m ?l)] =>
      destruct (m l) as [[[] | ?] ?]; cbn [fst snd]
  end.

(** One column: the set of the caller, the last object, is changed in
    place as the set of the validator above is handed on. *)
Lemma validate_column_run column_id column base ids tables l :
  exists ids1,
    StoredSchemaValidator._validate_column self column_id column
      (List.length base) tables (State (base ++ [StringSet ids]) l)
    = (match fst (SchemaValidator._validate_column
                    (StoredSchemaValidator.value_of self doc)
                    column_id column ids tables l) with
       | Returned _ => Returned tt
       | Raised e => Raised e
       end,
       State (base ++ [StringSet ids1])
         (snd (SchemaValidator._validate_column
                 (StoredSchemaValidator.value_of self doc)
                 column_id column ids tables l)))
    /\ (forall ids',
          fst (SchemaValidator._validate_column
                 (StoredSchemaValidator.value_of self doc)
                 column_id column ids tables l) = Returned ids' ->
          ids1 = set_add column_id ids /\ ids' = set_add column_id ids).
Proof.
  unfold StoredSchemaValidator._validate_column,
    SchemaValidator._validate_column.
  destruct column as [| | | | | d];
    try (exists ids; split; [reflexivity | discriminate]).
  destruct (existsb is_dict (values d));
    [exists ids; split; [reflexivity | discriminate] |].
  unfold StoredSchemaValidator._check_unique_column_id,
    SchemaValidator._check_unique_column_id.
  unfold hbind, bind. rewrite contains_run.
  destruct (mem column_id ids) eqn:Em;
    [exists ids; split; [reflexivity | discriminate] |].
  rewrite add_run. cbv beta iota delta [ret hret].
  exists (set_add column_id ids).
  lifted; [| split; [reflexivity | discriminate]].
  lifted; [| split; [reflexivity | discriminate]].
  lifted; [| split; [reflexivity | discriminate]].
  destruct (lookup "primary_key" d) as [v |].
  - destruct (negb (is_bool v));
      [split; [reflexivity | discriminate] |].
    destruct (lookup "table" d) as [tb |].
    + lifted; [| split; [reflexivity | discriminate]].
      split; [reflexivity |]. now intros ids' [= <-].
    + split; [reflexivity |]. now intros ids' [= <-].
  - destruct (lookup "table" d) as [tb |].
    + lifted; [| split; [reflexivity | discriminate]].
      split; [reflexivity |]. now intros ids' [= <-].
    + split; [reflexivity |]. now intros ids' [= <-].
Qed.

(** The loop over the columns. *)
Lemma columns_loop tables base cols : forall ids l,
  exists ids1,
    hfor_each cols
      (fun '(column_id, column) =>
         present <- contains (List.length base) column_id ;;
         if present then
           hraise (InvalidKeyError (VStr column_id) (VStr "unique column IDs"))
         else
           StoredSchemaValidator._validate_column self column_id column
             (List.length base) tables ;;
           add (List.length base) column_id)
      (State (base ++ [StringSet ids]) l)
    = (match fst (for_fold cols ids
                    (fun column_ids '(column_id, column) =>
                       if mem column_id column_ids then
                         raise (InvalidKeyError (VStr column_id)
                                  (VStr "unique column IDs"))
                       else
                         (column_ids <-
                            SchemaValidator._validate_column
                              (StoredSchemaValidator.value_of self doc)
                              column_id column column_ids tables ;;
                          ret (set_add column_id column_ids))%py) l) with
       | Returned _ => Returned tt
       | Raised e => Raised e
       end,
       State (base ++ [StringSet ids1])
         (snd (for_fold cols ids
                 (fun column_ids '(column_id, column) =>
                    if mem column_id column_ids then
                      raise (InvalidKeyError (VStr column_id)
                               (VStr "unique column IDs"))
                    else
                      (column_ids <-
                         SchemaValidator._validate_column
                           (StoredSchemaValidator.value_of self doc)
                           column_id column column_ids tables ;;
                       ret (set_add column_id column_ids))%py) l))).
Proof.
  match goal with
  | |- context [for_fold _ _ ?f] => set (mbody := f)
  end.
  induction cols as [| [column_id column] cols IH]; intros ids l.
  - exists ids. reflexivity.
  - assert (Hb : mbody ids (column_id, column) l =
                 if mem column_id ids then
                   (Raised (InvalidKeyError (VStr column_id)
                              (VStr "unique column IDs")), l)
                 else
                   match SchemaValidator._validate_column
                           (StoredSchemaValidator.value_of self doc)
                           column_id column ids tables l with
                   | (Returned x, l1) => (Returned (set_add column_id x), l1)
                   | (Raised e, l1) => (Raised e, l1)
                   end).
    { unfold mbody. destruct (mem column_id ids); [reflexivity |].
      unfold bind, ret.
      now destruct (SchemaValidator._validate_column
                      (StoredSchemaValidator.value_of self doc)
                      column_id column ids tables l) as [[x | e] l1]. }
    cbn [hfor_each for_fold].
    unfold hbind at 1. unfold hbind at 1. rewrite contains_run.
    unfold bind. rewrite Hb.
    destruct (mem column_id ids) eqn:Em; [exists ids; reflexivity |].
    unfold hbind at 1.
    destruct (validate_column_run column_id column base ids tables l)
      as (ids1 & E & Hret).
    rewrite E.
    destruct (SchemaValidator._validate_column
                (StoredSchemaValidator.value_of self doc)
                column_id column ids tables l) as [[ids' | e] l1];
      cbn [fst snd] in *; [| exists ids1; reflexivity].
    destruct (Hret ids' eq_refl) as [-> ->].
    rewrite add_run.
    destruct (IH (set_add column_id (set_add column_id ids)) l1)
      as (ids2 & E2).
    exists ids2. exact E2.
Qed.

Lemma validate_columns_extends columns :
  extends at_schema (StoredSchemaValidator._validate_columns self columns)
    (SchemaValidator._validate_columns
       (StoredSchemaValidator.value_of self doc) columns).
Proof.
  intros objs l HP.
  remember (SchemaValidator._validate_columns
              (StoredSchemaValidator.value_of self doc) columns l)
    as p eqn:Ep.
  unfold StoredSchemaValidator._validate_columns.
  unfold SchemaValidator._validate_columns in Ep.
  destruct columns as [| | | | | cols];
    try (exists []; rewrite app_nil_r, Ep; reflexivity).
  cbn [StoredSchemaValidator.value_of SchemaValidator.schema] in Ep.
  unfold hbind at 1, new. cbn [objects log].
  unfold hbind at 1.
  rewrite (@document_run (StoredSchemaValidator.schema self) doc
             (objs ++ [StringSet []]) l (at_schema_monotone _ HP)).
  rewrite lift_bind_run. unfold bind at 1 in Ep.
  destruct (py_getitem doc "table_info" l) as [[table_info | e] l1];
    [| exists [StringSet []]; rewrite Ep; reflexivity].
  rewrite lift_bind_run. unfold bind at 1 in Ep.
  destruct (py_iter table_info l1) as [[tables | e] l2];
    [| exists [StringSet []]; rewrite Ep; reflexivity].
  rewrite lift_bind_run. unfold bind at 1 in Ep.
  match type of Ep with
  | context [map_m ?f tables l2] =>
      destruct (map_m f tables l2) as [[names | e] l3]
  end; [| exists [StringSet []]; rewrite Ep; reflexivity].
  destruct (columns_loop names objs cols [] l3) as (ids1 & E).
  rewrite E. exists [StringSet ids1]. unfold bind at 1 in Ep.
  match type of Ep with
  | context [for_fold cols [] ?f l3] =>
      destruct (for_fold cols [] f l3) as [[ids' | e] l4]
  end; rewrite Ep; reflexivity.
Qed.

Lemma validate_extends :
  extends at_schema (StoredSchemaValidator.validate self)
    (SchemaValidator.validate (StoredSchemaValidator.value_of self doc)).
Proof.
  pose proof at_schema_monotone as Hm.
  unfold StoredSchemaValidator.validate, SchemaValidator.validate. cbv zeta.
  apply extends_try_except; [assumption | |].
  - apply extends_bind; [assumption | apply check_required_keys_extends |].
    intros _.
    apply extends_document with (v := doc); [auto |].
    apply extends_bind; [assumption | apply extends_lift |].
    intros table_info.
    apply extends_bind; [assumption | apply extends_lift |].
    intros _.
    apply extends_document with (v := doc); [auto |].
    apply extends_bind; [assumption | apply extends_lift |].
    intros columns.
    apply extends_bind; [assumption | apply validate_columns_extends |].
    intros _. apply extends_lift.
  - intros e. destruct e; apply extends_lift.
Qed.

(** Two calls, one after the other: the same record twice, and every
    object there was is still what it was. *)
Lemma validate_twice objs l :
  at_schema objs ->
  exists r new1 new2,
    StoredSchemaValidator.validate self (State objs l)
      = (Returned tt, State (objs ++ new1) (l ++ [r]))
    /\ StoredSchemaValidator.validate self (State (objs ++ new1) (l ++ [r]))
       = (Returned tt, State ((objs ++ new1) ++ new2) ((l ++ [r]) ++ [r]))
    /\ SchemaValidator.validate (StoredSchemaValidator.value_of self doc) l
       = (Returned tt, l ++ [r]).
Proof.
  intros HP.
  pose proof (SchemaFacts.validate_run
                (StoredSchemaValidator.value_of self doc)) as Hrun.
  exists (MainLog.schema_verdict (StoredSchemaValidator.value_of self doc)).
  destruct (validate_extends l HP) as (new1 & E1).
  destruct (validate_extends
              (l ++ [MainLog.schema_verdict
                       (StoredSchemaValidator.value_of self doc)])
              (at_schema_monotone new1 HP)) as (new2 & E2).
  exists new1, new2.
  rewrite Hrun in E1, E2. cbn [fst snd] in E1, E2.
  split; [exact E1 |]. split; [exact E2 | apply Hrun].
Qed.

End Stored.
End StoredSchemaFacts.

Module StoredSemanticsFacts.
Import Store StoreFacts.
Local Open Scope store_scope.

Section Stored.
Variables (self : StoredSemanticsValidator.t) (doc : value)
  (files : list (string * ref)) (files_v : list (string * value)).

(** The reference of the validator leads to [doc], those of the schema
    collection to the contents of [files_v]. *)
Definition at_documents (objs : list object) : Prop :=
  nth_error objs (StoredSemanticsValidator.semantics self)
    = Some (Document doc)
  /\ StoredSemanticsValidator.contents objs files files_v.

Lemma nth_error_extend A (l l' : list A) n x :
  nth_error l n = Some x -> nth_error (l ++ l') n = Some x.
Proof.
  intros H. rewrite nth_error_app1; [assumption |].
  apply nth_error_Some. rewrite H. discriminate.
Qed.

Lemma at_documents_monotone : monotone at_documents.
Proof.
  intros objs extra [H1 H2]. split.
  - now apply nth_error_extend.
  - unfold StoredSemanticsValidator.contents in *.
    induction H2 as [| f fv fs fvs [Hn Hf] _ IH]; constructor; [| assumption].
    split; [assumption | now apply nth_error_extend].
Qed.

Lemma at_semantics objs :
  at_documents objs ->
  nth_error objs (StoredSemanticsValidator.semantics self)
  = Some (Document doc).
Proof. now intros [H _]. Qed.

Lemma find_schema_agrees objs schema :
  StoredSemanticsValidator.contents objs files files_v ->
  match StoredSemanticsValidator.find_schema files schema with
  | Some a =>
      nth_error objs a
      = Some (Document (SemanticsValidator.find_schema files_v schema))
  | None => SemanticsValidator.find_schema files_v schema = VNone
  end.
Proof.
  unfold StoredSemanticsValidator.contents.
  induction 1 as [| [s a] [s' v] fs fvs [Hn Hf] _ IH]; [reflexivity |].
  cbn [fst snd] in Hn, Hf. subst s'.
  cbn [StoredSemanticsValidator.find_schema SemanticsValidator.find_schema].
  destruct (String.eqb (path_stem s) schema); assumption.
Qed.

Lemma stored_check_required_keys_extends :
  extends at_documents (StoredSemanticsValidator._check_required_keys self)
    (SemanticsValidator._check_required_keys
       (StoredSemanticsValidator.value_of self doc)).
Proof.
  pose proof at_documents_monotone as Hm.
  unfold StoredSemanticsValidator._check_required_keys,
    SemanticsValidator._check_required_keys. cbv zeta.
  apply extends_bind; [assumption | |].
  - apply extends_for_each; [assumption |]. intros key.
    apply extends_document with (v := doc); [apply at_semantics |].
    apply extends_bind; [assumption | apply extends_lift |].
    intros present. destruct (negb present); [| apply extends_ret].
    apply extends_bind; [assumption | apply extends_lift |].
    intros _. apply extends_raise.
  - intros _.
    apply extends_document with (v := doc); [apply at_semantics |].
    apply extends_bind; [assumption | apply extends_lift |].
    intros attributes. destruct (negb (truthy attributes));
      [| apply extends_ret].
    apply extends_document with (v := doc); [apply at_semantics |].
    apply extends_bind; [assumption | apply extends_lift |].
    intros metrics. destruct (negb (truthy metrics)); [| apply extends_ret].
    apply extends_bind; [assumption | apply extends_lift |].
    intros _. apply extends_raise.
Qed.

Lemma stored_validate_semantics_extends key :
  extends at_documents (StoredSemanticsValidator.validate_semantics self key)
    (SemanticsValidator.validate_semantics
       (StoredSemanticsValidator.value_of self doc) key).
Proof.
  pose proof at_documents_monotone as Hm.
  unfold StoredSemanticsValidator.validate_semantics,
    SemanticsValidator.validate_semantics.
  apply extends_try_except; [assumption | |].
  - apply extends_bind; [assumption | apply stored_check_required_keys_extends |].
    intros _.
    apply extends_document with (v := doc); [apply at_semantics |].
    apply extends_bind; [assumption | apply extends_lift |].
    intros source.
    apply extends_bind; [assumption | apply extends_lift |].
    intros _. apply extends_lift.
  - intros e. destruct e; apply extends_lift.
Qed.

Lemma not_found_extends schema key :
  extends at_documents (StoredSemanticsValidator.not_found schema key)
    (error [Txt "Schema '"; Fmt (VStr schema);
            Txt "' referenced in source '"; Fmt (VStr key);
            Txt "' not found."] ;;
     raise (MissingKeyError
              (VStr ("Schema '" ++ schema ++ "' referenced in source '"
                     ++ key ++ "' not found."))))%py.
Proof.
  unfold StoredSemanticsValidator.not_found.
  apply extends_bind;
    [apply at_documents_monotone | apply extends_lift |].
  intros _. apply extends_raise.
Qed.

Lemma stored_validate_binding_extends source key :
  extends at_documents
    (StoredSemanticsValidator.validate_binding self files source key)
    (SemanticsValidator.validate_binding
       (StoredSemanticsValidator.value_of self doc) files_v source key).
Proof.
  pose proof at_documents_monotone as Hm.
  unfold StoredSemanticsValidator.validate_binding,
    SemanticsValidator.validate_binding.
  apply extends_bind; [assumption | |].
  { destruct (nth_error (split "." key) 1);
      [apply extends_ret | apply extends_raise]. }
  intros schema. cbv zeta.
  intros objs l HP.
  pose proof (find_schema_agrees schema (proj2 HP)) as Hfind.
  revert objs l HP Hfind.
  destruct (StoredSemanticsValidator.find_schema files schema)
    as [content |]; intros objs l HP Hfind.
  - revert objs l HP Hfind.
    set (relevant := SemanticsValidator.find_schema files_v schema).
    intros objs l HP Hfind.
    unfold hbind at 1.
    rewrite (@document_run content relevant objs l Hfind).
    destruct (is_none relevant); [now apply not_found_extends |].
    assert (Hc : forall objs', at_documents objs' /\
                   nth_error objs' content = Some (Document relevant) ->
                   nth_error objs' content = Some (Document relevant))
      by (now intros objs' [_ H]).
    assert (HmQ : monotone (fun objs' => at_documents objs' /\
                     nth_error objs' content = Some (Document relevant))).
    { intros o e [H1 H2]. split; [now apply Hm | now apply nth_error_extend]. }
    assert (Hw : forall A (h : H A) (m : M A),
               extends at_documents h m ->
               extends (fun objs' => at_documents objs' /\
                          nth_error objs' content = Some (Document relevant))
                 h m).
    { intros A h m Hh o l' [H1 _]. now apply Hh. }
    refine ((_ : extends (fun objs' => at_documents objs' /\
                            nth_error objs' content
                            = Some (Document relevant)) _ _)
              objs l (conj HP Hfind)).
    apply extends_bind; [assumption | apply extends_lift |].
    intros binding.
    apply extends_bind; [assumption | apply extends_lift |].
    intros referenced_columns.
    apply extends_document with (v := relevant); [assumption |].
    apply extends_bind; [assumption | apply extends_lift |].
    intros _.
    apply extends_document with (v := doc);
      [intros o [H _]; now apply at_semantics |].
    apply extends_bind; [assumption | apply extends_lift |].
    intros attributes.
    apply extends_bind; [assumption | apply extends_lift |].
    intros _.
    apply extends_document with (v := doc);
      [intros o [H _]; now apply at_semantics |].
    apply extends_bind; [assumption | apply extends_lift |].
    intros metrics.
    apply extends_bind; [assumption | apply extends_lift |].
    intros _. apply Hw, stored_validate_semantics_extends.
  - rewrite Hfind. cbn [is_none]. now apply not_found_extends.
Qed.

Lemma stored_validate_extends :
  extends at_documents
    (StoredSemanticsValidator.validate self (Some files))
    (SemanticsValidator.validate
       (StoredSemanticsValidator.value_of self doc) (Some files_v)).
Proof.
  pose proof at_documents_monotone as Hm.
  unfold StoredSemanticsValidator.validate, SemanticsValidator.validate.
  apply extends_document with (v := doc); [apply at_semantics |].
  apply extends_bind; [assumption | apply extends_lift |].
  intros source. destruct (is_none source).
  { apply extends_bind; [assumption | apply extends_lift |].
    intros _. apply extends_raise. }
  apply extends_bind; [assumption | apply extends_lift |].
  intros _.
  apply extends_bind; [assumption | apply extends_lift |].
  intros [| k ks].
  { apply extends_bind; [assumption | apply extends_lift |].
    intros _. apply extends_raise. }
  apply extends_bind; [assumption | apply extends_lift |].
  intros _.
  apply extends_for_each; [assumption |].
  intros key. apply stored_validate_binding_extends.
Qed.

(** Two calls, one after the other: the same result and the same records
    twice, and every object there was is still what it was. *)
Lemma stored_validate_twice objs l :
  at_documents objs ->
  exists r rs new1 new2,
    StoredSemanticsValidator.validate self (Some files) (State objs l)
      = (r, State (objs ++ new1) (l ++ rs))
    /\ StoredSemanticsValidator.validate self (Some files)
         (State (objs ++ new1) (l ++ rs))
       = (r, State ((objs ++ new1) ++ new2) ((l ++ rs) ++ rs))
    /\ SemanticsValidator.validate
         (StoredSemanticsValidator.value_of self doc) (Some files_v) l
       = (r, l ++ rs).
Proof.
  intros HP.
  pose proof (framed_run
                (SemanticsFacts.framed_validate
                   (StoredSemanticsValidator.value_of self doc)
                   (Some files_v))) as Hrun.
  exists (outcome (SemanticsValidator.validate
                     (StoredSemanticsValidator.value_of self doc)
                     (Some files_v))),
         (emitted (SemanticsValidator.validate
                     (StoredSemanticsValidator.value_of self doc)
                     (Some files_v))).
  destruct (stored_validate_extends l HP) as (new1 & E1).
  destruct (stored_validate_extends
              (l ++ emitted (SemanticsValidator.validate
                               (StoredSemanticsValidator.value_of self doc)
                               (Some files_v)))
              (at_documents_monotone new1 HP)) as (new2 & E2).
  exists new1, new2.
  rewrite Hrun in E1, E2. cbn [fst snd] in E1, E2.
  split; [exact E1 |]. split; [exact E2 | apply Hrun].
Qed.

End Stored.
End StoredSemanticsFacts.

(** C9.  Validation is deterministic and idempotent.  With the documents
    and the validators' sets as objects held by reference: for every
    schema document, two calls of [validate] on the same validator, one
    after the other, log the same record; for every semantics document
    with a fixed schema collection, two calls give the same result and
    log the same records.  After each call every object that was there
    before it, the documents among them, is what it was: a call only
    makes new objects (the set of column identifiers, made anew by each
    call of [_validate_columns], changed in place by
    [_check_unique_column_id] and not read by the next call).  The result
    and the records are those of the validators on the values of the
    documents. *)
Theorem C9_validate_twice_same_outcome :
  (forall (self : StoredSchemaValidator.t) (doc : value)
          (objs : list Store.object) (l : logger),
     nth_error objs (StoredSchemaValidator.schema self)
       = Some (Store.Document doc) ->
     exists r new1 new2,
       StoredSchemaValidator.validate self (Store.State objs l)
         = (Returned tt, Store.State (objs ++ new1) (l ++ [r]))
       /\ StoredSchemaValidator.validate self
            (Store.State (objs ++ new1) (l ++ [r]))
          = (Returned tt,
             Store.State ((objs ++ new1) ++ new2) ((l ++ [r]) ++ [r]))
       /\ SchemaValidator.validate
            (StoredSchemaValidator.value_of self doc) l
          = (Returned tt, l ++ [r]))
  /\ (forall (self : StoredSemanticsValidator.t) (doc : value)
             (files : list (string * Store.ref))
             (files_v : list (string * value))
             (objs : list Store.object) (l : logger),
        nth_error objs (StoredSemanticsValidator.semantics self)
          = Some (Store.Document doc) ->
        StoredSemanticsValidator.contents objs files files_v ->
        exists r rs new1 new2,
          StoredSemanticsValidator.validate self (Some files)
            (Store.State objs l)
            = (r, Store.State (objs ++ new1) (l ++ rs))
          /\ StoredSemanticsValidator.validate self (Some files)
               (Store.State (objs ++ new1) (l ++ rs))
             = (r, Store.State ((objs ++ new1) ++ new2) ((l ++ rs) ++ rs))
          /\ SemanticsValidator.validate
               (StoredSemanticsValidator.value_of self doc) (Some files_v) l
             = (r, l ++ rs)).
Proof.
  split.
  - intros self doc objs l H.
    now apply StoredSchemaFacts.validate_twice.
  - intros self doc files files_v objs l H1 H2.
    apply StoredSemanticsFacts.stored_validate_twice. now split.
Qed.

Lemma C9_validate_twice_same_outcome_witness :
  let self := StoredSchemaValidator.Build 0 "orders.yml" in
  let doc := Scenarios.orders_schema Scenarios.order_id_bare in
  exists r new1 new2,
    StoredSchemaValidator.validate self (Store.State [Store.Document doc] [])
      = (Returned tt, Store.State ([Store.Document doc] ++ new1) ([] ++ [r]))
    /\ StoredSchemaValidator.validate self
         (Store.State ([Store.Document doc] ++ new1) ([] ++ [r]))
       = (Returned tt,
          Store.State (([Store.Document doc] ++ new1) ++ new2)
            (([] ++ [r]) ++ [r]))
    /\ SchemaValidator.validate (StoredSchemaValidator.value_of self doc) []
       = (Returned tt, [] ++ [r]).
Proof.
  intros self doc.
  apply (proj1 C9_validate_twice_same_outcome self doc
           [Store.Document doc] []).
  reflexivity.
Defined.

(* ================================================================= *)
(** ** Semantics validator: attributes and metrics *)

(** C3.  An attribute with a key outside the closed set is not rejected:
    [_validate_attribute] reads the keys [name], [desc], [calculation] and
    [filter] only and never calls [_validate_attribute_keys], so two
    attributes that agree on these four keys get the same verdict; the
    attribute [{name: "Region", colour: "red"}] passes and its document is
    logged as passed, although [_validate_attribute_keys] raises
    [InvalidKeyError('colour', ...)] on it. *)
Theorem C3_attribute_extra_key_not_rejected :
  (forall self attr_key d d' schema,
     (forall k, In k ["name"; "desc"; "calculation"; "filter"] ->
                lookup k d = lookup k d') ->
     SemanticsValidator._validate_attribute self attr_key (VDict d) schema =
     SemanticsValidator._validate_attribute self attr_key (VDict d') schema)
  /\ SemanticsValidator._validate_attribute Scenarios.scenario3_extra_key
       "region" Scenarios.region (VStr "orders") [] = (Returned tt, [])
  /\ SemanticsValidator._validate_attribute_keys Scenarios.scenario3_extra_key
       "region" [("name", VStr "Region"); ("colour", VStr "red")] [] =
     (Raised (InvalidKeyError (VStr "colour")
                (strs SemanticsValidator.attribute_valid_keys)),
      [Record_ ERROR
         [Txt "Invalid key '"; Fmt (VStr "colour");
          Txt "' found in attribute "; Fmt (VStr "region");
          Txt ". Valid keys are: ";
          Fmt (strs SemanticsValidator.attribute_valid_keys); Txt "."]
         None])
  /\ outcome (SemanticsValidator.validate Scenarios.scenario3_extra_key
                (Some Scenarios.schema_files)) = Returned tt
  /\ In (SemanticsLog.passed Scenarios.scenario3_extra_key)
        (emitted (SemanticsValidator.validate Scenarios.scenario3_extra_key
                    (Some Scenarios.schema_files))).
Proof.
  split; [| split; [| split; [| split]]].
  - intros self attr_key d d' schema H.
    unfold SemanticsValidator._validate_attribute,
      SemanticsValidator.require_non_empty.
    rewrite (H "name"), (H "desc"), (H "calculation"), (H "filter");
      simpl; auto 10.
  - vm_compute. reflexivity.
  - vm_compute. reflexivity.
  - vm_compute. reflexivity.
  - vm_compute. auto 10.
Qed.

Lemma C3_attribute_extra_key_not_rejected_witness :
  SemanticsValidator._validate_attribute Scenarios.scenario3_extra_key
    "region" (VDict [("name", VStr "Region"); ("colour", VStr "red")])
    (VStr "orders") =
  SemanticsValidator._validate_attribute Scenarios.scenario3_extra_key
    "region" (VDict [("name", VStr "Region")]) (VStr "orders").
Proof.
  apply (proj1 C3_attribute_extra_key_not_rejected).
  intros k [<- | [<- | [<- | [<- | []]]]]; reflexivity.
Defined.

(** C8.  A metric entry without a [calculation] key never passes
    [_validate_metric], whatever its key, its other fields and the schema
    argument.  When the metric key is a column of the schema mapping, a
    non-empty [name] is supplied and [function], if present, is a string,
    every earlier check passes and the metric fails at the unconditional
    grammar call, on its argument [metric['calculation']] ([KeyError]).
    As called from [validate], which passes the schema name, the exemption
    test [schema['columns']] faults first ([TypeError]). *)
Theorem C8_metric_without_calculation_fails :
  forall self metric_key d st,
    has "calculation" d = false ->
    (forall schema, exists e st',
        SemanticsValidator._validate_metric self metric_key (VDict d) schema st
        = (Raised e, st'))
    /\ (forall sm cols,
          lookup "columns" sm = Some (VDict cols) ->
          has metric_key cols = true ->
          (forall v, lookup "name" d = Some v -> truthy v = true) ->
          (forall f, lookup "function" d = Some f -> is_str f = true) ->
          SemanticsValidator._validate_metric self metric_key (VDict d)
            (VDict sm) st
          = (Raised (KeyError "calculation"), st))
    /\ (forall name,
          SemanticsValidator._validate_metric self metric_key (VDict d)
            (VStr name) st
          = (Raised TypeError, st)).
Proof.
  intros self metric_key d st Hc.
  pose proof (has_false_lookup _ _ Hc) as Hl.
  split; [| split].
  - intros schema. unfold SemanticsValidator._validate_metric.
    do 4 (apply bind_raises_r; intros [] ?).
    apply bind_raises_l. unfold py_getitem. rewrite Hl.
    unfold raise. eauto.
  - intros sm cols Hcols Hkey Hname Hfun.
    unfold SemanticsValidator._validate_metric,
      SemanticsValidator.require_non_empty.
    rewrite Hc, Hl, orb_true_r. simpl.
    unfold bind, py_getitem. rewrite Hcols. simpl. rewrite Hkey. simpl.
    destruct (lookup "name" d) as [v |] eqn:En.
    + rewrite (Hname v eq_refl). simpl.
      destruct (lookup "function" d) as [f |] eqn:Ef.
      * rewrite (Hfun f eq_refl). simpl. now rewrite Hl.
      * simpl. now rewrite Hl.
    + simpl. destruct (lookup "function" d) as [f |] eqn:Ef.
      * rewrite (Hfun f eq_refl). simpl. now rewrite Hl.
      * simpl. now rewrite Hl.
  - intros name. unfold SemanticsValidator._validate_metric.
    now rewrite Hc, orb_true_r.
Qed.

Lemma C8_metric_without_calculation_fails_witness :
  SemanticsValidator._validate_metric Scenarios.scenario3 "order_id"
    (VDict [("name", VStr "Orders")])
    (VDict [("columns", VDict [("order_id", Scenarios.order_id_bare)])]) []
  = (Raised (KeyError "calculation"), []).
Proof.
  apply (proj1 (proj2 (@C8_metric_without_calculation_fails
                         Scenarios.scenario3 "order_id"
                         [("name", VStr "Orders")] [] eq_refl))
           [("columns", VDict [("order_id", Scenarios.order_id_bare)])]
           [("order_id", Scenarios.order_id_bare)]).
  - reflexivity.
  - reflexivity.
  - intros v H. injection H as <-. reflexivity.
  - intros f H. discriminate H.
Defined.

(* ================================================================= *)
(** ** Semantics validator: resolution of the source bindings *)

Lemma split_chars_no_sep sep l :
  ~ In sep l -> split_chars sep l = [l].
Proof.
  induction l as [| c l IH]; simpl; intros H; [reflexivity |].
  destruct (Ascii.eqb c sep) eqn:E.
  - apply Ascii.eqb_eq in E. tauto.
  - rewrite IH; tauto.
Qed.


Module Resolution.
Import SemanticsValidator SemanticsLog SemanticsFacts.

(** With a source mapping that has a key, [validate] is its loop over the
    keys after two records. *)
Lemma validate_loop self files m src k ks st :
  semantics self = VDict m ->
  lookup "source" m = Some (VDict src) ->
  keys src = k :: ks ->
  validate self (Some files) st =
  for_each (k :: ks) (validate_binding self files (VDict src))
    (st ++ [scanning; found (k :: ks)]).
Proof.
  intros Hs Hsrc Hk. unfold validate, bind, py_get.
  rewrite Hs, Hsrc. simpl. unfold ret, bind. simpl. rewrite Hk.
  unfold info, emit. simpl. rewrite <- app_assoc. reflexivity.
Qed.



End Resolution.




Module ReferentialFacts.
Import SemanticsValidator SemanticsLog SemanticsFacts Referential.

Lemma filter_missing cm cols st :
  filter_m (fun col => present <- py_in col (VDict cm) ;; ret (negb present))
    (map VStr cols) st
  = (Returned (map VStr (missing_in cm cols)), st).
Proof.
  induction cols as [| c cols IH]; [reflexivity |].
  cbn [filter_m map].
  change (py_in (VStr c) (VDict cm)) with (@ret bool (has c cm)).
  unfold bind, ret in *. rewrite IH.
  unfold missing_in. cbn [filter].
  now destruct (has c cm).
Qed.

Lemma py_join_strs sep l st :
  py_join sep (map VStr l) st = (Returned (String.concat sep l), st).
Proof.
  induction l as [| s l IH]; [reflexivity |].
  destruct l as [| s' l]; [reflexivity |].
  change (py_join sep (map VStr (s :: s' :: l)))
    with (r <- py_join sep (map VStr (s' :: l)) ;; ret (s ++ sep ++ r)%string).
  unfold bind. rewrite IH. reflexivity.
Qed.

Lemma validate_referenced_columns_missing self name sch cm cols st :
  lookup "columns" sch = Some (VDict cm) ->
  missing_in cm cols <> [] ->
  validate_referenced_columns self name (VDict sch) (VList (map VStr cols)) st
  = (Raised (columns_missing (missing_in cm cols)),
     st ++ [not_found (missing_in cm cols)]).
Proof.
  intros Hc Hm. unfold validate_referenced_columns.
  unfold bind at 1. unfold py_get. rewrite Hc. unfold ret at 1.
  unfold bind at 1. unfold py_iter. unfold ret at 1.
  unfold bind at 1. rewrite filter_missing.
  destruct (missing_in cm cols) as [| c l] eqn:E; [contradiction |].
  change (VStr c :: map VStr l) with (map VStr (c :: l)).
  remember (map VStr (c :: l)) as vs eqn:Ev.
  destruct vs as [| v vs]; [discriminate |]. rewrite Ev.
  unfold bind, error, emit. rewrite py_join_strs. reflexivity.
Qed.


End ReferentialFacts.




(* ================================================================= *)
(** ** Semantics validator: the required top-level keys *)

Module RequiredFacts.
Import SemanticsValidator SemanticsLog SemanticsFacts Required.

Lemma check_required_keys_fails self m st :
  semantics self = VDict m ->
  lacks_required m ->
  _check_required_keys self st =
  (Raised (fst (required_failure m)), st ++ [snd (required_failure m)]).
Proof.
  intros Hs H. unfold _check_required_keys, required_failure.
  rewrite Hs.
  cbv [for_each bind ret py_in py_get raise error emit].
  destruct (has "folder" m) eqn:Ef; [| reflexivity].
  destruct (has "type" m) eqn:Et; [| reflexivity].
  destruct H as [H | [H | [Ha Hm]]]; try congruence.
  unfold get in Ha, Hm. cbn [negb fst snd].
  destruct (lookup "attributes" m) as [a |]; rewrite Ha; cbn [negb];
    destruct (lookup "metrics" m) as [v |]; rewrite Hm; reflexivity.
Qed.

Lemma validate_semantics_lacking self m key st :
  semantics self = VDict m ->
  lacks_required m ->
  validate_semantics self key st =
  (Returned tt,
   st ++ [snd (required_failure m); handled (fst (required_failure m))]).
Proof.
  intros Hs H. unfold validate_semantics, try_except.
  unfold bind at 1. rewrite (check_required_keys_fails self st Hs H).
  unfold required_failure.
  destruct (negb (has "folder" m)); [| destruct (negb (has "type" m))];
    cbn [fst snd handled]; unfold error, exception, emit;
    now rewrite <- app_assoc.
Qed.

Lemma required_failure_error m : lvl (snd (required_failure m)) = ERROR.
Proof.
  unfold required_failure.
  destruct (negb (has "folder" m)); [| destruct (negb (has "type" m))];
    reflexivity.
Qed.

Lemma handled_error e : lvl (handled e) = ERROR.
Proof. now destruct e. Qed.

Lemma error_not_passed self r : lvl r = ERROR -> not_passed self r.
Proof. intros H ->. discriminate H. Qed.

Section Lacking.
Variables (self : t) (m : list (string * value)).
Hypothesis Hs : semantics self = VDict m.
Hypothesis H : lacks_required m.

Lemma emits_validate_semantics key :
  emits (not_passed self) (validate_semantics self key).
Proof.
  exists (Returned tt),
    [snd (required_failure m); handled (fst (required_failure m))].
  split.
  - repeat constructor; apply error_not_passed;
      auto using required_failure_error, handled_error.
  - intros st. now apply validate_semantics_lacking.
Qed.

Lemma emits_validate_binding files source key :
  emits (not_passed self) (validate_binding self files source key).
Proof.
  unfold validate_binding.
  emits_auto not_passed_tac; apply emits_validate_semantics.
Qed.

Lemma emits_validate files : emits (not_passed self) (validate self files).
Proof.
  unfold validate.
  emits_auto not_passed_tac. apply emits_validate_binding.
Qed.

(** An iteration that returns has logged the violation. *)
Lemma validate_binding_returns files source key st st' :
  validate_binding self files source key st = (Returned tt, st') ->
  In (snd (required_failure m)) st'.
Proof.
  unfold validate_binding, bind.
  destruct (nth_error (split "." key) 1); [| discriminate].
  unfold ret at 1.
  destruct (is_none (find_schema files s)); [discriminate |].
  destruct (py_getitem source key st) as [[b |] st1]; [| discriminate].
  destruct (py_getitem b "columns" st1) as [[c |] st2]; [| discriminate].
  destruct (validate_referenced_columns self s (find_schema files s) c st2)
    as [[[] |] st3]; [| discriminate].
  destruct (py_get (semantics self) "attributes" (VDict []) st3)
    as [[a |] st4]; [| discriminate].
  destruct (_validate_attributes self a (VStr s) st4)
    as [[[] |] st5]; [| discriminate].
  destruct (py_get (semantics self) "metrics" (VDict []) st5)
    as [[ms |] st6]; [| discriminate].
  destruct (_validate_metrics self ms (VStr s) st6)
    as [[[] |] st7]; [| discriminate].
  rewrite (validate_semantics_lacking self key st7 Hs H).
  intros E. injection E as <-.
  apply in_or_app. right. now left.
Qed.

Lemma validate_returns files :
  outcome (validate self files) = Returned tt ->
  In (snd (required_failure m)) (emitted (validate self files)).
Proof.
  unfold outcome, emitted.
  destruct files as [files |]; [| discriminate].
  destruct (lookup "source" m) as [source |] eqn:Esrc.
  - destruct source as [| | | | | src];
      try (unfold validate, bind, py_get; rewrite Hs, Esrc; discriminate).
    destruct (keys src) as [| k ks] eqn:Ek.
    + unfold validate, bind, py_get. rewrite Hs, Esrc. simpl.
      rewrite Ek. discriminate.
    + rewrite (Resolution.validate_loop self files [] Hs Esrc Ek).
      cbn [for_each]. unfold bind.
      destruct (validate_binding self files (VDict src) k _)
        as [[[] |] st1] eqn:E1; [| discriminate].
      apply validate_binding_returns in E1.
      rewrite framed_run
        by (apply framed_for_each; intros; apply framed_validate_binding).
      intros _. apply in_or_app. now left.
  - unfold validate, bind, py_get. rewrite Hs, Esrc. discriminate.
Qed.

End Lacking.

End RequiredFacts.

(** C4, the failing input: scenario 3 without its [folder] key goes
    through [SemanticsValidator.validate], which returns normally, and the
    driver then logs the document as valid. *)
Lemma C4_missing_folder_returns_normally :
  has "folder"
    [("type", VStr "fact");
     ("source", VDict [Scenarios.orders_binding]);
     ("metrics", VDict [("total_orders", Scenarios.total_orders)])] = false
  /\ SemanticsValidator.semantics Scenarios.scenario3_no_folder =
     VDict [("type", VStr "fact");
            ("source", VDict [Scenarios.orders_binding]);
            ("metrics", VDict [("total_orders", Scenarios.total_orders)])]
  /\ outcome (SemanticsValidator.validate Scenarios.scenario3_no_folder
                (Some Scenarios.schema_files)) = Returned tt
  /\ In (Record_ INFO
           [Fmt (VStr "orders_sem.yml"); Txt " semantics is valid."] None)
        (emitted
           (Main.validate_semantics
              [("orders_sem.yml",
                SemanticsValidator.semantics Scenarios.scenario3_no_folder)]
              Scenarios.schema_files)).
Proof.
  split; [reflexivity |]. split; [reflexivity |].
  split; [vm_compute; reflexivity |].
  vm_compute. auto 20.
Qed.

(** C4.  What the code does with such a document instead of failing it.
    For every semantics mapping that misses [folder] or
    [type], or has both [attributes] and [metrics] absent or empty, the
    violation is caught inside [validate_semantics]: it logs two records
    at level ERROR (the violation, then "Validation Error" for
    [folder]/[type] or "An unexpected error occurred" for
    [attributes]/[metrics]) and returns normally.  So [validate] never
    logs that the document passed, and it either raises because another
    check failed or returns normally with the violation logged: the
    violation neither aborts [validate] nor reaches its caller, unlike the
    violations of the sibling checks of [validate], which do reach the
    driver. *)
Theorem C4_missing_required_key_logged_not_raised :
  forall self m files,
    SemanticsValidator.semantics self = VDict m ->
    Required.lacks_required m ->
    (forall key st,
       SemanticsValidator.validate_semantics self key st =
       (Returned tt,
        st ++ [snd (Required.required_failure m);
               Required.handled (fst (Required.required_failure m))]))
    /\ lvl (snd (Required.required_failure m)) = ERROR
    /\ lvl (Required.handled (fst (Required.required_failure m))) = ERROR
    /\ ~ In (SemanticsLog.passed self)
            (emitted (SemanticsValidator.validate self files))
    /\ (outcome (SemanticsValidator.validate self files) = Returned tt ->
        In (snd (Required.required_failure m))
           (emitted (SemanticsValidator.validate self files))).
Proof.
  intros self m files Hs H.
  split; [| split; [| split; [| split]]].
  - intros key st. now apply RequiredFacts.validate_semantics_lacking.
  - apply RequiredFacts.required_failure_error.
  - apply RequiredFacts.handled_error.
  - intros Hin.
    destruct (emits_run (@RequiredFacts.emits_validate self m Hs H files))
      as [Hall _].
    rewrite Forall_forall in Hall. now apply (Hall _ Hin).
  - now apply RequiredFacts.validate_returns.
Qed.

Lemma C4_missing_required_key_logged_not_raised_witness :
  In (Required.missing_key_logged "folder")
     (emitted (SemanticsValidator.validate Scenarios.scenario3_no_folder
                 (Some Scenarios.schema_files))).
Proof.
  apply (proj2 (proj2 (proj2 (proj2
           (@C4_missing_required_key_logged_not_raised
              Scenarios.scenario3_no_folder
              [("type", VStr "fact");
               ("source", VDict [Scenarios.orders_binding]);
               ("metrics", VDict [("total_orders", Scenarios.total_orders)])]
              (Some Scenarios.schema_files)
              eq_refl
              (or_introl eq_refl)))))).
  vm_compute. reflexivity.
Defined.

(* ================================================================= *)
(** ** The calculation grammar *)

Module GrammarFacts.
Import Re ReFacts SemanticsValidator Grammar.

Lemma Matches_alphabet ic bol r p q :
  Matches ic bol r p q -> Forall (fun x => alphabet ic r x = true) p.
Proof.
  induction 1; simpl; try (now repeat constructor).
  - apply Forall_app. split.
    + eapply Forall_impl; [| exact IHMatches1].
      simpl. intros a ->. reflexivity.
    + eapply Forall_impl; [| exact IHMatches2].
      simpl. intros a ->. apply orb_true_r.
  - eapply Forall_impl; [| exact IHMatches]. simpl. now intros a ->.
  - eapply Forall_impl; [| exact IHMatches].
    simpl. intros a ->. apply orb_true_r.
  - change (Forall (fun x0 => alphabet ic r x0 = true) ((x :: p1) ++ p2)).
    apply Forall_app. split; assumption.
Qed.

Lemma re_match_spec ic r s :
  re_match ic r s = true <->
  exists p q, chars s = p ++ q /\ Matches ic true r p q.
Proof. apply match_from_spec. Qed.

Lemma complete_alphabet x :
  alphabet true complete_pattern x = true -> calc_char x = true.
Proof. destruct x as [[] [] [] [] [] [] [] []]; vm_compute; auto. Qed.

Lemma complete_not_nullable bol eol :
  nullable bol eol complete_pattern = false.
Proof. destruct bol, eol; reflexivity. Qed.



(** What the pattern matches is not empty and is made of [calc_char]s. *)
Lemma complete_matches_only s :
  re_match true complete_pattern s = true ->
  s <> EmptyString /\ Forall (fun x => calc_char x = true) (chars s).
Proof.
  intros H. apply re_match_spec in H as (p & q & Hs & H).
  assert (Hq : Forall (fun x => calc_char x = true) q).
  { inversion H; subst.
    match goal with H : Matches _ _ (Cat _ Eol) _ _ |- _ =>
      inversion H; subst end.
    match goal with H : Matches _ _ Eol _ _ |- _ => inversion H; subst end.
    match goal with H : is_eol _ = true |- _ => rename H into He end.
    destruct q as [| c [| c' q]]; simpl in He; try discriminate.
    - constructor.
    - apply Ascii.eqb_eq in He. subst c. repeat constructor. }
  split.
  - intros ->. simpl in Hs. symmetry in Hs.
    apply app_eq_nil in Hs as [-> _].
    pose proof (Matches_nil_nullable H eq_refl) as Hn.
    now rewrite complete_not_nullable in Hn.
  - rewrite Hs. apply Forall_app. split; [| assumption].
    eapply Forall_impl; [| exact (Matches_alphabet H)].
    apply complete_alphabet.
Qed.

Lemma star_set_run ic items l : forall bol q,
  Forall (fun x => set_matches ic items x = true) l ->
  Matches ic bol (Star (Set_ items)) l q.
Proof.
  induction l as [| x l IH]; intros bol q H.
  - constructor.
  - inversion H; subst.
    change (x :: l) with (([x] ++ []) ++ l).
    apply MStarS; simpl; auto. now constructor.
Qed.

Lemma plus_set_run ic items l bol q :
  l <> [] ->
  Forall (fun x => set_matches ic items x = true) l ->
  Matches ic bol (Plus (Set_ items)) l q.
Proof.
  intros Hl H. destruct l as [| x l]; [contradiction |].
  inversion H; subst. unfold Plus.
  change (x :: l) with ([x] ++ l).
  constructor; simpl.
  - now constructor.
  - now apply star_set_run.
Qed.

(** Every non-empty run of basic-expression characters is matched. *)
Lemma complete_matches_run s :
  s <> EmptyString ->
  Forall (fun x => basic_char x = true) (chars s) ->
  re_match true complete_pattern s = true.
Proof.
  intros Hs H. apply re_match_spec.
  exists (chars s), []. split; [now rewrite app_nil_r |].
  assert (Hl : chars s <> []) by (destruct s; [contradiction | discriminate]).
  unfold complete_pattern, _build_complete_pattern.
  change (chars s) with ([] ++ chars s).
  constructor; [constructor |]. simpl.
  rewrite <- (app_nil_r (chars s)).
  constructor; [| constructor; reflexivity].
  rewrite <- (app_nil_r (chars s)).
  constructor.
  - apply MAltR. now apply plus_set_run.
  - now apply nullable_Matches_nil.
Qed.

Lemma chars_app a b : chars (a ++ b) = chars a ++ chars b.
Proof. induction a; simpl; [reflexivity | now f_equal]. Qed.

Lemma function_names_basic f :
  In f function_names ->
  Forall (fun x => basic_char x = true) (chars f).
Proof.
  intros H. vm_compute in H.
  repeat (destruct H as [<- | H]; [now repeat constructor |]).
  contradiction.
Qed.

(** *** The strings the complete pattern matches *)

Lemma exact_Matches ic p : forall bol r q,
  exact ic bol r p q = true -> Matches ic bol r p q.
Proof.
  induction p as [| x p IH]; simpl; intros bol r q H.
  - now apply nullable_Matches_nil.
  - apply deriv_sound. now apply IH.
Qed.

Lemma anchor_free_Matches ic bol r p q :
  Matches ic bol r p q ->
  anchor_free r = true ->
  forall bol' q', Matches ic bol' r p q'.
Proof.
  induction 1; simpl; intros Ha bol' q'; try discriminate;
    try (now constructor).
  - apply andb_true_iff in Ha as [Ha1 Ha2]. constructor; auto.
  - apply andb_true_iff in Ha as [Ha1 Ha2]. apply MAltL; auto.
  - apply andb_true_iff in Ha as [Ha1 Ha2]. apply MAltR; auto.
  - apply MStarS; auto.
Qed.

Lemma Matches_Cat_inv ic bol r1 r2 p q :
  Matches ic bol (Cat r1 r2) p q ->
  exists p1 p2,
    p = p1 ++ p2 /\ Matches ic bol r1 p1 (p2 ++ q)
    /\ Matches ic (bol_after bol p1) r2 p2 q.
Proof. intros H. inversion H; subst. eauto. Qed.

Lemma Matches_Cat_intro ic bol r1 r2 p p1 p2 q :
  p = p1 ++ p2 ->
  Matches ic bol r1 p1 (p2 ++ q) ->
  Matches ic (bol_after bol p1) r2 p2 q ->
  Matches ic bol (Cat r1 r2) p q.
Proof. intros ->. apply MCat. Qed.

Lemma Matches_Alt_inv ic bol r1 r2 p q :
  Matches ic bol (Alt r1 r2) p q ->
  Matches ic bol r1 p q \/ Matches ic bol r2 p q.
Proof. intros H. inversion H; subst; auto. Qed.

Lemma Matches_Eol_inv ic bol p q :
  Matches ic bol Eol p q -> p = [] /\ is_eol q = true.
Proof. intros H. inversion H; subst; auto. Qed.

Lemma Matches_Bol_inv ic bol p q :
  Matches ic bol Bol p q -> p = [] /\ bol = true.
Proof. intros H. inversion H; subst; auto. Qed.

Lemma Matches_Lit_inv ic bol c p q :
  Matches ic bol (Lit c) p q ->
  exists x, p = [x] /\ lit_matches ic c x = true.
Proof. intros H. inversion H; subst; eauto. Qed.

(** A literal that is not a letter matches itself only. *)
Lemma lit_symbol c x :
  In c ["="%char; "!"%char; "<"%char; ">"%char] ->
  lit_matches true c x = true -> x = c.
Proof.
  intros [<- | [<- | [<- | [<- | []]]]];
    destruct x as [[] [] [] [] [] [] [] []]; vm_compute;
    intros H; try discriminate H; reflexivity.
Qed.

Lemma space_basic x : is_space x = true -> basic_char x = true.
Proof.
  intros H. unfold basic_char, basic_items. simpl.
  rewrite H. now rewrite orb_true_r.
Qed.

Lemma spaces_basic bol p q :
  Matches true bol spaces p q -> Forall (fun x => basic_char x = true) p.
Proof.
  intros H. eapply Forall_impl; [| exact (Matches_alphabet H)].
  simpl. intros a Ha. apply space_basic.
  now rewrite orb_false_r in Ha.
Qed.

Lemma nested_alphabet x :
  alphabet true nested x = true -> basic_char x = true.
Proof. destruct x as [[] [] [] [] [] [] [] []]; vm_compute; auto. Qed.

Lemma nested_run bol p q : Matches true bol nested p q -> run p.
Proof.
  intros H. split.
  - intros ->. pose proof (Matches_nil_nullable H eq_refl) as Hn.
    destruct bol, (is_eol q); discriminate Hn.
  - eapply Forall_impl; [| exact (Matches_alphabet H)].
    apply nested_alphabet.
Qed.

Lemma run_nested bol t q : run t -> Matches true bol nested t q.
Proof. intros [Hne H]. apply MAltR. now apply plus_set_run. Qed.

Lemma run_app_l t l :
  Forall (fun x => basic_char x = true) l -> run t -> run (l ++ t).
Proof.
  intros Hl [Hne H]. split.
  - intros E. apply app_eq_nil in E as [_ E]. contradiction.
  - now apply Forall_app.
Qed.

Lemma run_app_r t l :
  run t -> Forall (fun x => basic_char x = true) l -> run (t ++ l).
Proof.
  intros [Hne H] Hl. split.
  - intros E. apply app_eq_nil in E as [E _]. contradiction.
  - now apply Forall_app.
Qed.

Lemma shape_app_basic l l2 :
  shape l -> Forall (fun x => basic_char x = true) l2 -> shape (l ++ l2).
Proof.
  intros H Hl. induction H as [t Ht | l op t Hs IH Hop Ht].
  - apply shape_run. now apply run_app_r.
  - rewrite <- !app_assoc.
    apply shape_cmp; auto. now apply run_app_r.
Qed.

Lemma complete_pattern_eq :
  complete_pattern =
  Cat Bol
    (Cat (Cat nested
            (Cat (Star comparison_group) (Cat (Star logical_group) Eol)))
       Eol).
Proof. reflexivity. Qed.

Ltac lit_inv H :=
  let x := fresh "x" in
  let E := fresh "E" in
  apply Matches_Lit_inv in H as (x & -> & E);
  apply lit_symbol in E; [subst x | simpl; tauto].

Ltac cat_inv H :=
  let p1 := fresh "p" in
  let p2 := fresh "p" in
  let H1 := fresh "H" in
  let H2 := fresh "H" in
  apply Matches_Cat_inv in H as (p1 & p2 & -> & H1 & H2).

Lemma comparison_alternatives_inv bol p q :
  Matches true bol comparison_alternatives p q -> In p comparison_ops.
Proof.
  intros H. unfold comparison_alternatives in H. simpl in H.
  apply Matches_Alt_inv in H as [H | H]; [lit_inv H; simpl; auto |].
  apply Matches_Alt_inv in H as [H | H].
  { cat_inv H. lit_inv H0. lit_inv H1. simpl. auto. }
  apply Matches_Alt_inv in H as [H | H]; [lit_inv H; simpl; auto |].
  apply Matches_Alt_inv in H as [H | H]; [lit_inv H; simpl; auto 6 |].
  apply Matches_Alt_inv in H as [H | H].
  { cat_inv H. lit_inv H0. lit_inv H1. simpl. auto 6. }
  cat_inv H. lit_inv H0. lit_inv H1. simpl. auto 7.
Qed.

Lemma comparison_alternatives_intro op :
  In op comparison_ops ->
  forall bol q, Matches true bol comparison_alternatives op q.
Proof.
  intros H bol q.
  apply anchor_free_Matches with (bol := true) (q := []); [| reflexivity].
  apply exact_Matches.
  simpl in H.
  repeat (destruct H as [<- | H]; [reflexivity |]).
  contradiction.
Qed.

(** A comparison group is whitespace, an operator and a run. *)
Lemma comparison_group_inv bol g q :
  Matches true bol comparison_group g q ->
  exists w op t,
    g = w ++ op ++ t
    /\ Forall (fun x => basic_char x = true) w
    /\ In op comparison_ops /\ run t.
Proof.
  intros H. unfold comparison_group, comparison_pattern, _build_pattern in H.
  apply Matches_Cat_inv in H as (w1 & g1 & -> & Hw1 & H).
  apply Matches_Cat_inv in H as (c & t & -> & Hc & Ht).
  apply Matches_Cat_inv in Hc as (w2 & c1 & -> & Hw2 & Hc).
  apply Matches_Cat_inv in Hc as (op & w3 & -> & Hop & Hw3).
  apply spaces_basic in Hw1, Hw2, Hw3.
  apply comparison_alternatives_inv in Hop.
  apply nested_run in Ht.
  exists (w1 ++ w2), op, (w3 ++ t). split; [| split; [| split]].
  - now rewrite <- !app_assoc.
  - now apply Forall_app.
  - assumption.
  - now apply run_app_l.
Qed.

Lemma comparison_group_intro op t :
  In op comparison_ops -> run t ->
  forall bol q, Matches true bol comparison_group (op ++ t) q.
Proof.
  intros Hop Ht bol q. unfold comparison_group.
  apply Matches_Cat_intro with (p1 := []) (p2 := op ++ t);
    [reflexivity | constructor |].
  apply Matches_Cat_intro with (p1 := op) (p2 := t);
    [reflexivity | | now apply run_nested].
  unfold comparison_pattern, _build_pattern.
  apply Matches_Cat_intro with (p1 := []) (p2 := op);
    [reflexivity | constructor |].
  apply Matches_Cat_intro with (p1 := op) (p2 := []);
    [now rewrite app_nil_r | | constructor].
  now apply comparison_alternatives_intro.
Qed.

Lemma star_groups_shape bol r p q :
  Matches true bol r p q ->
  r = Star comparison_group ->
  forall l, shape l -> shape (l ++ p).
Proof.
  induction 1; intros Hr l Hl; try discriminate.
  - now rewrite app_nil_r.
  - injection Hr as ->.
    apply comparison_group_inv in H as (w & op & t & E & Hw & Hop & Ht).
    rewrite E. rewrite app_assoc. apply IHMatches2; [reflexivity |].
    rewrite (app_assoc l w).
    apply shape_cmp; auto. now apply shape_app_basic.
Qed.

Lemma logical_group_alphabet x :
  alphabet true (Star logical_group) x = true -> basic_char x = true.
Proof. destruct x as [[] [] [] [] [] [] [] []]; vm_compute; auto. Qed.

Lemma eol_basic q : is_eol q = true -> Forall (fun x => basic_char x = true) q.
Proof.
  destruct q as [| c [| c' q]]; simpl; intros H; try discriminate.
  - constructor.
  - apply Ascii.eqb_eq in H. subst c. now repeat constructor.
Qed.

(** What the complete pattern matches, with what follows, has the shape. *)
Lemma complete_shape s :
  re_match true complete_pattern s = true -> shape (chars s).
Proof.
  intros H. apply re_match_spec in H as (p & q & -> & H).
  rewrite complete_pattern_eq in H.
  cat_inv H. apply Matches_Bol_inv in H0 as [-> _]. simpl in *.
  cat_inv H1. apply Matches_Eol_inv in H0 as [-> Hq].
  cat_inv H. cat_inv H1. cat_inv H2.
  apply Matches_Eol_inv in H3 as [-> _].
  apply nested_run in H0.
  pose proof (Matches_alphabet H1) as Hl.
  replace (((p0 ++ p ++ p1 ++ []) ++ []) ++ q) with ((p0 ++ p) ++ (p1 ++ q))
    by (rewrite !app_nil_r, <- !app_assoc; reflexivity).
  apply shape_app_basic.
  - eapply star_groups_shape; [exact H | reflexivity |].
    now apply shape_run.
  - apply Forall_app. split; [| now apply eol_basic].
    eapply Forall_impl; [| exact Hl]. apply logical_group_alphabet.
Qed.

Lemma star_app ic bol r0 p q0 :
  Matches ic bol r0 p q0 ->
  forall r, r0 = Star r -> anchor_free r = true ->
  forall p' q,
    (forall b, Matches ic b (Star r) p' q) ->
    Matches ic bol (Star r) (p ++ p') q.
Proof.
  induction 1; intros r' Hr Ha p' q' Hp'; try discriminate.
  - apply Hp'.
  - injection Hr as ->. rewrite <- app_assoc. apply MStarS.
    + apply (anchor_free_Matches H Ha).
    + now apply IHMatches2.
Qed.

(** A string of the shape is a run followed by comparison groups. *)
Lemma shape_groups l :
  shape l ->
  exists t gs,
    l = t ++ gs /\ run t
    /\ forall bol q, Matches true bol (Star comparison_group) gs q.
Proof.
  induction 1 as [t Ht | l op t Hs IH Hop Ht].
  - exists t, []. split; [now rewrite app_nil_r |].
    split; [assumption | constructor].
  - destruct IH as (t0 & gs & -> & Ht0 & Hgs).
    exists t0, (gs ++ op ++ t). split; [now rewrite <- app_assoc |].
    split; [assumption |].
    intros bol q.
    apply star_app with (r0 := Star comparison_group) (q0 := []);
      auto.
    intros b.
    pose proof (comparison_group_intro Hop Ht b q) as Hg.
    destruct (op ++ t) as [| x g] eqn:E.
    + apply app_eq_nil in E as [_ ->]. now destruct Ht.
    + rewrite <- (app_nil_r (x :: g)). apply MStarS.
      * now rewrite app_nil_l.
      * constructor.
Qed.

Lemma shape_complete s :
  shape (chars s) -> re_match true complete_pattern s = true.
Proof.
  intros H. apply re_match_spec.
  exists (chars s), []. split; [now rewrite app_nil_r |].
  apply shape_groups in H as (t & gs & -> & Ht & Hgs).
  rewrite complete_pattern_eq.
  apply Matches_Cat_intro with (p1 := []) (p2 := t ++ gs);
    [reflexivity | constructor |].
  apply Matches_Cat_intro with (p1 := t ++ gs) (p2 := []);
    [now rewrite app_nil_r | | now constructor].
  apply Matches_Cat_intro with (p1 := t) (p2 := gs);
    [reflexivity | now apply run_nested |].
  apply Matches_Cat_intro with (p1 := gs) (p2 := []);
    [now rewrite app_nil_r | apply Hgs |].
  apply Matches_Cat_intro with (p1 := []) (p2 := []);
    [reflexivity | constructor | now constructor].
Qed.

(** The grammar check accepts exactly the strings of the shape. *)
Lemma complete_pattern_shape s :
  re_match true complete_pattern s = true <-> shape (chars s).
Proof. split; [apply complete_shape | apply shape_complete]. Qed.

End GrammarFacts.

(** C2, the failing inputs: a string with an unsupported function name,
    one with unbalanced parentheses and one with a dangling logical
    connective are all accepted by the grammar check, each being a run of
    basic-expression characters.  The pattern spells out the supported
    functions, a closing parenthesis after the argument and a term after
    each connective, and the character class of the basic expression,
    which holds the letters and both parentheses, defeats all three. *)
Lemma C2_unsupported_unbalanced_dangling_accepted :
  SemanticsValidator._validate_calculation (VStr "FOOBAR(x)") []
    = (Returned tt, [])
  /\ SemanticsValidator._validate_calculation (VStr "SUM(revenue") []
     = (Returned tt, [])
  /\ SemanticsValidator._validate_calculation (VStr "COUNT(order_id) AND") []
     = (Returned tt, []).
Proof.
  split; [vm_compute; reflexivity |].
  split; vm_compute; reflexivity.
Qed.

(** C2.  What the grammar check does instead of what is asked of it.  It
    accepts every supported function call applied to a basic expression,
    such as [SUM(revenue)].  It accepts
    exactly the strings made of non-empty runs of basic-expression
    characters (word characters, whitespace, brackets, the four arithmetic
    operators and parentheses) separated by comparison operators
    ([=], [!=], [<], [>], [<=], [>=]); so it accepts every non-empty
    string of basic-expression characters, whatever the function name,
    the balance of the parentheses or a trailing connective.  Every other
    string fails with
    [InvalidFormatError('calculation', 'valid calculation format')], among
    them the empty string and every string with a character outside that
    class and the comparison characters [= ! < >]; a value that is not a
    string fails with [InvalidFormatError(value, 'string')]. *)
Theorem C2_grammar_accepts_runs_and_comparisons :
  (forall f b st,
     In f SemanticsValidator.function_names ->
     b <> EmptyString ->
     Forall (fun x => Grammar.basic_char x = true) (chars b) ->
     SemanticsValidator._validate_calculation
       (VStr (f ++ "(" ++ b ++ ")")) st = (Returned tt, st))
  /\ (forall s st,
        Grammar.shape (chars s) ->
        SemanticsValidator._validate_calculation (VStr s) st
        = (Returned tt, st))
  /\ (forall s st,
        ~ Grammar.shape (chars s) ->
        SemanticsValidator._validate_calculation (VStr s) st
        = (Raised (InvalidFormatError (VStr "calculation")
                     (VStr "valid calculation format")),
           st ++ [Record_ ERROR
                    [Txt "Calculation format is invalid for: "; Fmt (VStr s)]
                    None]))
  /\ (forall s,
        s <> EmptyString ->
        Forall (fun x => Grammar.basic_char x = true) (chars s) ->
        Grammar.shape (chars s))
  /\ (forall s,
        s = EmptyString
        \/ Exists (fun x => Grammar.calc_char x = false) (chars s) ->
        ~ Grammar.shape (chars s))
  /\ (forall v st,
        is_str v = false ->
        SemanticsValidator._validate_calculation v st
        = (Raised (InvalidFormatError v (VStr "string")),
           st ++ [Record_ ERROR
                    [Txt "Calculation must be a string. Got: ";
                     Txt (type_name v)]
                    None])).
Proof.
  assert (Hshape : forall s st,
             Grammar.shape (chars s) ->
             SemanticsValidator._validate_calculation (VStr s) st
             = (Returned tt, st)).
  { intros s st H. unfold SemanticsValidator._validate_calculation.
    apply GrammarFacts.complete_pattern_shape in H. now rewrite H. }
  assert (Hrun : forall s,
             s <> EmptyString ->
             Forall (fun x => Grammar.basic_char x = true) (chars s) ->
             Grammar.shape (chars s)).
  { intros s Hs H. apply Grammar.shape_run. split; [| assumption].
    destruct s; [contradiction | discriminate]. }
  split; [| split; [| split; [| split; [| split]]]].
  - intros f b st Hf Hb H. apply Hshape, Hrun.
    + destruct f; discriminate.
    + rewrite !GrammarFacts.chars_app.
      apply Forall_app. split; [now apply GrammarFacts.function_names_basic |].
      apply Forall_app. split; [now repeat constructor |].
      apply Forall_app. split; [assumption | now repeat constructor].
  - exact Hshape.
  - intros s st H. unfold SemanticsValidator._validate_calculation.
    destruct (Re.re_match true SemanticsValidator.complete_pattern s) eqn:E.
    + apply GrammarFacts.complete_pattern_shape in E. contradiction.
    + reflexivity.
  - exact Hrun.
  - intros s H Hs. apply GrammarFacts.complete_pattern_shape in Hs.
    apply GrammarFacts.complete_matches_only in Hs as [Hne Hall].
    destruct H as [-> | H]; [contradiction |].
    apply Exists_exists in H as (x & Hin & Hx).
    rewrite Forall_forall in Hall. rewrite (Hall x Hin) in Hx.
    discriminate.
  - intros v st H. now destruct v.
Qed.

Lemma C2_grammar_accepts_runs_and_comparisons_witness :
  SemanticsValidator._validate_calculation
    (VStr ("SUM" ++ "(" ++ "revenue" ++ ")")) []
  = (Returned tt, []).
Proof.
  apply (proj1 C2_grammar_accepts_runs_and_comparisons "SUM" "revenue" []).
  - vm_compute. auto 20.
  - discriminate.
  - vm_compute. repeat constructor.
Defined.

(* ================================================================= *)
(** ** The formats of join conditions, identifiers and source keys *)

Module FormatFacts.
Import Re ReFacts GrammarFacts Format.

Lemma is_eol_line_end q : is_eol q = true <-> line_end q.
Proof.
  unfold line_end. split.
  - destruct q as [| c [| c' q]]; simpl; intros H; try discriminate; auto.
    apply Ascii.eqb_eq in H. subst. auto.
  - intros [-> | ->]; reflexivity.
Qed.

Lemma Matches_plus_set ic bol items p q :
  Matches ic bol (Plus (Set_ items)) p q <->
  run_of (set_matches ic items) p.
Proof.
  split.
  - intros H. split.
    + intros ->. pose proof (Matches_nil_nullable H eq_refl) as Hn.
      discriminate Hn.
    + eapply Forall_impl; [| exact (Matches_alphabet H)].
      simpl. intros a Ha. now rewrite orb_diag in Ha.
  - intros [Hne H]. now apply plus_set_run.
Qed.

Lemma Matches_star_set ic bol items p q :
  Matches ic bol (Star (Set_ items)) p q <->
  Forall (fun x => set_matches ic items x = true) p.
Proof.
  split.
  - intros H. exact (Matches_alphabet H).
  - apply star_set_run.
Qed.

Lemma Matches_Set_inv ic bol items p q :
  Matches ic bol (Set_ items) p q ->
  exists x, p = [x] /\ set_matches ic items x = true.
Proof. intros H. inversion H; subst; eauto. Qed.

Lemma lit_exact c x : lit_matches false c x = true -> x = c.
Proof.
  unfold lit_matches. rewrite orb_false_r. apply Ascii.eqb_eq.
Qed.

Lemma lit_exact_refl ic c : lit_matches ic c c = true.
Proof. unfold lit_matches. now rewrite Ascii.eqb_refl. Qed.

(** A literal word of an exact pattern matches itself only. *)
Lemma Matches_lit_chars l : forall bol p q,
  Matches false bol (lit_chars l) p q -> p = l.
Proof.
  induction l as [| c l IH]; intros bol p q H; simpl in H.
  - now inversion H.
  - destruct l as [| c' l].
    + apply Matches_Lit_inv in H as (x & -> & E).
      now rewrite (lit_exact _ _ E).
    + apply Matches_Cat_inv in H as (p1 & p2 & -> & H1 & H2).
      apply Matches_Lit_inv in H1 as (x & -> & E).
      rewrite (lit_exact _ _ E). simpl. f_equal. now apply (IH _ _ _ H2).
Qed.

Lemma lit_chars_Matches ic l : forall bol q,
  Matches ic bol (lit_chars l) l q.
Proof.
  induction l as [| c l IH]; intros bol q; simpl.
  - constructor.
  - destruct l as [| c' l].
    + constructor. apply lit_exact_refl.
    + change (c :: c' :: l) with ([c] ++ c' :: l).
      constructor; [constructor; apply lit_exact_refl | apply IH].
Qed.

Lemma name_char_set x :
  set_matches false [IWord; IChar "."] x = name_char x.
Proof.
  unfold set_matches, name_char. simpl. unfold lit_matches.
  now rewrite !orb_false_r.
Qed.

Lemma ident_start_set x :
  set_matches false [IRange "A" "Z"; IRange "a" "z"; IChar "_"] x
  = ident_start x.
Proof. destruct x as [[] [] [] [] [] [] [] []]; reflexivity. Qed.

Lemma ident_char_set x :
  set_matches false
    [IRange "A" "Z"; IRange "a" "z"; IRange "0" "9"; IChar "_"] x
  = ident_char x.
Proof. destruct x as [[] [] [] [] [] [] [] []]; reflexivity. Qed.

Lemma word_set x : set_matches false [IWord] x = is_word x.
Proof. unfold set_matches. simpl. now rewrite orb_false_r. Qed.

Lemma run_of_ext (P Q : ascii -> bool) l :
  (forall x, P x = Q x) -> run_of P l <-> run_of Q l.
Proof.
  intros H. unfold run_of. split; intros [Hne Hl]; split; auto;
    eapply Forall_impl; try exact Hl; simpl; intros a Ha;
    [now rewrite <- H | now rewrite H].
Qed.

(** [^[\w\.]+ = [\w\.]+$] accepts exactly the join conditions. *)
Lemma join_pattern_spec s :
  re_match false SchemaValidator.join_pattern s = true <-> join_condition s.
Proof.
  rewrite re_match_spec. unfold SchemaValidator.join_pattern. split.
  - intros (p & q & Hs & H).
    apply Matches_Cat_inv in H as (p0 & p1 & -> & H0 & H).
    apply Matches_Bol_inv in H0 as [-> _].
    apply Matches_Cat_inv in H as (l & p2 & -> & Hl & H).
    apply Matches_Cat_inv in H as (s1 & p3 & -> & Hs1 & H).
    apply Matches_Cat_inv in H as (e & p4 & -> & He & H).
    apply Matches_Cat_inv in H as (s2 & p5 & -> & Hs2 & H).
    apply Matches_Cat_inv in H as (r & p6 & -> & Hr & H).
    apply Matches_Eol_inv in H as [-> Hq].
    apply Matches_Lit_inv in Hs1 as (x1 & -> & E1).
    apply Matches_Lit_inv in He as (x2 & -> & E2).
    apply Matches_Lit_inv in Hs2 as (x3 & -> & E3).
    apply lit_exact in E1, E2, E3. subst.
    apply Matches_plus_set in Hl, Hr.
    exists l, r, q. split; [| split; [| split]].
    + rewrite Hs. simpl. rewrite <- !app_assoc. simpl.
      now rewrite app_nil_r.
    + exact (proj1 (run_of_ext _ _ l name_char_set) Hl).
    + exact (proj1 (run_of_ext _ _ r name_char_set) Hr).
    + now apply is_eol_line_end.
  - intros (l & r & q & Hs & Hl & Hr & Hq).
    exists (l ++ chars " = " ++ r), q.
    split; [now rewrite Hs, <- !app_assoc |].
    apply is_eol_line_end in Hq.
    apply (proj2 (run_of_ext _ _ l name_char_set)) in Hl.
    apply (proj2 (run_of_ext _ _ r name_char_set)) in Hr.
    apply Matches_Cat_intro with (p1 := []) (p2 := l ++ chars " = " ++ r);
      [reflexivity | constructor |].
    apply Matches_Cat_intro with (p1 := l) (p2 := chars " = " ++ r);
      [reflexivity | now apply Matches_plus_set |].
    apply Matches_Cat_intro with (p1 := [" "%char]) (p2 := "="%char :: " "%char :: r);
      [reflexivity | constructor; apply lit_exact_refl |].
    apply Matches_Cat_intro with (p1 := ["="%char]) (p2 := " "%char :: r);
      [reflexivity | constructor; apply lit_exact_refl |].
    apply Matches_Cat_intro with (p1 := [" "%char]) (p2 := r);
      [reflexivity | constructor; apply lit_exact_refl |].
    apply Matches_Cat_intro with (p1 := r) (p2 := []);
      [now rewrite app_nil_r | now apply Matches_plus_set |].
    now constructor.
Qed.

(** [^[A-Za-z_][A-Za-z0-9_]*$] accepts exactly the identifiers. *)
Lemma column_id_pattern_spec s :
  re_match false SchemaValidator.column_id_pattern s = true <-> identifier s.
Proof.
  rewrite re_match_spec. unfold SchemaValidator.column_id_pattern. split.
  - intros (p & q & Hs & H).
    apply Matches_Cat_inv in H as (p0 & p1 & -> & H0 & H).
    apply Matches_Bol_inv in H0 as [-> _].
    apply Matches_Cat_inv in H as (c & p2 & -> & Hc & H).
    apply Matches_Cat_inv in H as (l & p3 & -> & Hl & H).
    apply Matches_Eol_inv in H as [-> Hq].
    apply Matches_Set_inv in Hc as (x & -> & Hx).
    apply Matches_star_set in Hl.
    exists x, l, q. split; [| split; [| split]].
    + rewrite Hs. simpl. now rewrite app_nil_r.
    + now rewrite <- ident_start_set.
    + eapply Forall_impl; [| exact Hl]. cbv beta. intros a Ha.
      now rewrite <- ident_char_set.
    + now apply is_eol_line_end.
  - intros (c & l & q & Hs & Hc & Hl & Hq).
    exists (c :: l), q. split; [now rewrite Hs |].
    apply is_eol_line_end in Hq.
    apply Matches_Cat_intro with (p1 := []) (p2 := c :: l);
      [reflexivity | constructor |].
    apply Matches_Cat_intro with (p1 := [c]) (p2 := l);
      [reflexivity | constructor; now rewrite ident_start_set |].
    apply Matches_Cat_intro with (p1 := l) (p2 := []);
      [now rewrite app_nil_r | | now constructor].
    apply Matches_star_set. eapply Forall_impl; [| exact Hl].
    cbv beta. intros a Ha. now rewrite ident_char_set.
Qed.

(** [^schema\.\w+$] accepts exactly the source keys. *)
Lemma source_key_pattern_spec s :
  re_match false SemanticsValidator.source_key_pattern s = true
  <-> source_key s.
Proof.
  rewrite re_match_spec. unfold SemanticsValidator.source_key_pattern. split.
  - intros (p & q & Hs & H).
    apply Matches_Cat_inv in H as (p0 & p1 & -> & H0 & H).
    apply Matches_Bol_inv in H0 as [-> _].
    apply Matches_Cat_inv in H as (w & p2 & -> & Hw & H).
    apply Matches_Cat_inv in H as (d & p3 & -> & Hd & H).
    apply Matches_Cat_inv in H as (n & p4 & -> & Hn & H).
    apply Matches_Eol_inv in H as [-> Hq].
    apply Matches_lit_chars in Hw. subst w.
    apply Matches_Lit_inv in Hd as (x & -> & E). apply lit_exact in E. subst x.
    apply Matches_plus_set in Hn.
    exists n, q. split; [| split].
    + rewrite Hs. simpl. now rewrite app_nil_r.
    + exact (proj1 (run_of_ext _ _ n word_set) Hn).
    + now apply is_eol_line_end.
  - intros (n & q & Hs & Hn & Hq).
    exists (chars "schema." ++ n), q.
    split; [now rewrite Hs, <- app_assoc |].
    apply is_eol_line_end in Hq.
    apply (proj2 (run_of_ext _ _ n word_set)) in Hn.
    apply Matches_Cat_intro with (p1 := []) (p2 := chars "schema." ++ n);
      [reflexivity | constructor |].
    apply Matches_Cat_intro with (p1 := chars "schema") (p2 := "."%char :: n);
      [reflexivity | apply (lit_chars_Matches false (chars "schema")) |].
    apply Matches_Cat_intro with (p1 := ["."%char]) (p2 := n);
      [reflexivity | constructor; apply lit_exact_refl |].
    apply Matches_Cat_intro with (p1 := n) (p2 := []);
      [now rewrite app_nil_r | now apply Matches_plus_set |].
    now constructor.
Qed.

End FormatFacts.

(* ================================================================= *)
(** ** Loops that return *)

Lemma outcome_ret A (a : A) : outcome (ret a) = Returned a.
Proof. reflexivity. Qed.

Lemma outcome_raise A e : outcome (@raise A e) = Raised e.
Proof. reflexivity. Qed.

Lemma outcome_for_each_cons A (x : A) l (body : A -> M unit) :
  (forall y, framed (body y)) ->
  outcome (for_each (x :: l) body) =
  match outcome (body x) with
  | Returned _ => outcome (for_each l body)
  | Raised e => Raised e
  end.
Proof.
  intros H. simpl. rewrite outcome_bind; auto using framed_for_each.
Qed.

Lemma for_each_returns A (l : list A) (body : A -> M unit) :
  (forall y, framed (body y)) ->
  outcome (for_each l body) = Returned tt <->
  Forall (fun x => outcome (body x) = Returned tt) l.
Proof.
  intros H. induction l as [| x l IH].
  - split; [constructor | reflexivity].
  - rewrite outcome_for_each_cons by assumption.
    destruct (outcome (body x)) as [[] | e] eqn:E.
    + rewrite IH. split.
      * intros Hl. now constructor.
      * intros Hl. now inversion Hl.
    + split; [discriminate |].
      intros Hl. inversion Hl; subst. congruence.
Qed.

(** What a loop raises is what its first failing iteration raises. *)
Lemma for_each_raised A (l : list A) (body : A -> M unit) e :
  (forall y, framed (body y)) ->
  outcome (for_each l body) = Raised e ->
  exists l1 x l2,
    l = l1 ++ x :: l2
    /\ Forall (fun y => outcome (body y) = Returned tt) l1
    /\ outcome (body x) = Raised e.
Proof.
  intros H. induction l as [| x l IH]; [discriminate |].
  rewrite outcome_for_each_cons by assumption.
  destruct (outcome (body x)) as [[] | e'] eqn:E.
  - intros Hl. destruct (IH Hl) as (l1 & y & l2 & -> & Hl1 & Hy).
    exists (x :: l1), y, l2. split; [reflexivity |].
    split; [now constructor | assumption].
  - intros [= ->]. exists [], x, l. split; [reflexivity |].
    split; [constructor | assumption].
Qed.

Ltac framed_tac := intros; unfold framed; emits_auto ltac:(exact I).

Lemma outcome_bind_returns A B (m : M A) (f : A -> M B) b :
  framed m -> (forall a, framed (f a)) ->
  outcome (bind m f) = Returned b <->
  exists a, outcome m = Returned a /\ outcome (f a) = Returned b.
Proof.
  intros Hm Hf. rewrite outcome_bind by assumption.
  destruct (outcome m) as [a | e].
  - split; [eauto |]. now intros (a' & [= <-] & H).
  - split; [discriminate |]. now intros (a' & E & _).
Qed.

Lemma outcome_seq_returns A (m : M unit) (k : M A) b :
  framed m -> framed k ->
  outcome (bind m (fun _ => k)) = Returned b <->
  outcome m = Returned tt /\ outcome k = Returned b.
Proof.
  intros Hm Hk. rewrite outcome_bind_returns by auto. split.
  - intros ([] & H1 & H2). auto.
  - intros [H1 H2]. eauto.
Qed.

Lemma and_iff (A A' B B' : Prop) :
  (A <-> A') -> (B <-> B') -> (A /\ B <-> A' /\ B').
Proof. tauto. Qed.

Lemma Forall_iff A (P Q : A -> Prop) l :
  (forall x, P x <-> Q x) -> Forall P l <-> Forall Q l.
Proof.
  intros H. split; intros Hl; eapply Forall_impl; try exact Hl;
    intros a; apply H.
Qed.

Lemma mem_In k l : mem k l = true <-> In k l.
Proof.
  unfold mem. rewrite existsb_exists. split.
  - intros (x & Hin & E). apply String.eqb_eq in E. now subst.
  - intros H. exists k. split; [assumption | apply String.eqb_refl].
Qed.

Lemma mem_set_add k x l :
  mem k (set_add x l) = String.eqb k x || mem k l.
Proof.
  unfold set_add. destruct (mem x l) eqn:E; [| reflexivity].
  destruct (String.eqb k x) eqn:Ek; [| reflexivity].
  apply String.eqb_eq in Ek. now subst.
Qed.

(* ================================================================= *)
(** ** Schema validator: what is accepted *)

Module SchemaAcceptsFacts.
Import SchemaValidator SchemaLog SchemaFacts Format FormatFacts SchemaAccepts.

#[local] Hint Resolve emits_validate_joins emits_validate_table_entry
  emits_validate_table_info emits_check_unique_column_id
  emits_check_column_format emits_check_required_column_keys
  emits_check_indentation emits_validate_table_reference
  emits_validate_column emits_validate_columns
  emits_check_required_schema_keys : emits.

Lemma join_check_returns j :
  outcome (join_check j) = Returned tt <-> join_ok j.
Proof.
  unfold join_ok. destruct j; simpl;
    try (split; [discriminate | intros (s0 & E & _); discriminate]).
  destruct (Re.re_match false join_pattern s) eqn:E; simpl.
  - split; [| reflexivity]. intros _. exists s. split; [reflexivity |].
    now apply join_pattern_spec.
  - split; [discriminate |]. intros (s0 & [= <-] & H).
    apply join_pattern_spec in H. congruence.
Qed.

Lemma framed_join_check j : framed (join_check j).
Proof. unfold join_check. framed_tac. Qed.

Lemma validate_joins_list l name :
  outcome (_validate_joins (VList l) name) = Returned tt <-> Forall join_ok l.
Proof.
  unfold _validate_joins. destruct l as [| j l].
  - split; [constructor | reflexivity].
  - cbn [List.length Nat.eqb].
    change (for_each (j :: l) _) with (for_each (j :: l) join_check).
    rewrite for_each_returns by apply framed_join_check.
    split; intros H; eapply Forall_impl; try exact H;
      intros a; apply join_check_returns.
Qed.


Lemma existsb_dict_not_joins l :
  existsb is_dict l = true -> ~ Forall join_ok l.
Proof.
  intros H Hl. apply existsb_exists in H as (j & Hin & Hj).
  rewrite Forall_forall in Hl. destruct (Hl j Hin) as (s & -> & _).
  discriminate Hj.
Qed.

Lemma validate_joins_returns joins name :
  outcome (_validate_joins joins name) = Returned tt <->
  exists l, joins = VList l /\ Forall join_ok l.
Proof.
  destruct joins;
    try (split; [discriminate | intros (l0 & E & _); discriminate]).
  rewrite validate_joins_list. split.
  - intros H. eauto.
  - now intros (l0 & [= <-] & H).
Qed.

Lemma is_none_false v : v <> VNone -> is_none v = false.
Proof. destruct v; [contradiction | reflexivity ..]. Qed.

Lemma is_none_true v : is_none v = true -> v = VNone.
Proof. destruct v; [reflexivity | discriminate ..]. Qed.

(** A table entry passes exactly when it is a mapping with a [table] that
    is not null and a list of join conditions in the join format. *)
Lemma validate_table_entry_returns self table :
  outcome (_validate_table_entry self table) = Returned tt <->
  table_entry_ok table.
Proof.
  unfold table_entry_ok. split.
  - unfold _validate_table_entry.
    destruct table as [| | | | | dd]; try discriminate.
    destruct (lookup "table" dd) as [nm |] eqn:Et; [| discriminate].
    destruct (is_none nm) eqn:En; [discriminate |].
    destruct (lookup "joins" dd) as [js |] eqn:Ej; [| discriminate].
    destruct js as [| | | | jl |]; try discriminate.
    destruct (existsb is_dict jl); [discriminate |].
    rewrite validate_joins_list. intros H.
    exists dd, nm, jl. repeat split; auto.
    intros ->. discriminate En.
  - intros (dd & nm & jl & -> & Et & Hn & Ej & Hj).
    unfold _validate_table_entry. rewrite Et, (is_none_false Hn), Ej.
    destruct (existsb is_dict jl) eqn:Ed.
    + now apply existsb_dict_not_joins in Ed.
    + now apply validate_joins_list.
Qed.


Lemma join_check_violation j : violation_only (join_check j).
Proof.
  intros e. unfold join_check.
  destruct j; simpl; try (now intros [= <-]).
  destruct (Re.re_match false join_pattern s); simpl;
    [discriminate | now intros [= <-]].
Qed.

Lemma validate_joins_violation joins name :
  violation_only (_validate_joins joins name).
Proof.
  intros e. unfold _validate_joins.
  destruct joins as [| | | | l |]; try (now intros [= <-]).
  destruct (List.length l =? 0)%nat; [discriminate |].
  change (for_each l _) with (for_each l join_check).
  intros H. apply for_each_raised in H as (l1 & x & l2 & _ & _ & H);
    [| apply framed_join_check].
  now apply join_check_violation in H.
Qed.

Lemma validate_table_entry_violation self table :
  violation_only (_validate_table_entry self table).
Proof.
  intros e. unfold _validate_table_entry.
  destruct table as [| | | | | dd]; try (now intros [= <-]).
  destruct (lookup "table" dd) as [nm |]; [| now intros [= <-]].
  destruct (is_none nm); [now intros [= <-] |].
  destruct (lookup "joins" dd) as [js |]; [| now intros [= <-]].
  destruct (match js with VList l => existsb is_dict l | _ => false end);
    [now intros [= <-] |].
  apply validate_joins_violation.
Qed.

(** The validation of [table_info] fails with recognised violations
    only. *)
Lemma validate_table_info_violation self table_info :
  violation_only (_validate_table_info self table_info).
Proof.
  intros e. unfold _validate_table_info.
  destruct table_info as [| | | | l |]; try (now intros [= <-]).
  intros H. apply for_each_raised in H as (l1 & x & l2 & _ & _ & H);
    [| intros y; framed_tac].
  now apply validate_table_entry_violation in H.
Qed.

Lemma validate_table_info_returns self table_info :
  outcome (_validate_table_info self table_info) = Returned tt <->
  exists l, table_info = VList l /\ Forall table_entry_ok l.
Proof.
  unfold _validate_table_info.
  destruct table_info as [| | | | l |];
    try (split; [discriminate | intros (l0 & E & _); discriminate]).
  rewrite for_each_returns by (intros y; framed_tac).
  rewrite (Forall_iff _ _ l (validate_table_entry_returns self)).
  split; [eauto | now intros (l0 & [= <-] & H)].
Qed.


Lemma blank_test v :
  is_none v
  || match v with
     | VStr s => String.eqb (strip s) EmptyString
     | _ => false
     end = false
  <-> not_blank v.
Proof.
  unfold not_blank. destruct v; simpl;
    try (split; [intros _; split; [discriminate | discriminate] | reflexivity]).
  - split; [discriminate | intros [H _]; contradiction].
  - split.
    + intros H. split; [discriminate |]. intros s0 [= <-] E.
      rewrite E in H. discriminate.
    + intros [_ H]. destruct (String.eqb (strip s) EmptyString) eqn:E;
        [| reflexivity].
      apply String.eqb_eq in E. now apply H in E.
Qed.

Lemma check_column_format_returns column_id d :
  outcome (_check_column_format column_id d) = Returned tt <->
  identifier column_id.
Proof.
  unfold _check_column_format. rewrite <- column_id_pattern_spec.
  destruct (Re.re_match false column_id_pattern column_id); simpl;
    split; intros H; try reflexivity; discriminate H.
Qed.

Lemma check_required_column_keys_returns column_id d :
  outcome (_check_required_column_keys column_id d) = Returned tt <->
  Forall (fun k => exists v, lookup k d = Some v /\ truthy v = true)
    ["name"; "type"; "column"; "desc"].
Proof.
  unfold _check_required_column_keys. cbv zeta.
  rewrite for_each_returns by (intros y; framed_tac).
  apply Forall_iff. intros k.
  destruct (lookup k d) as [v |].
  - destruct (truthy v) eqn:E; simpl.
    + split; [eauto | reflexivity].
    + split; [discriminate |]. intros (v0 & [= <-] & H). congruence.
  - split; [discriminate |]. now intros (v0 & E & _).
Qed.

Lemma check_indentation_returns column_id d :
  outcome (_check_indentation column_id d) = Returned tt <->
  Forall (fun k => In k expected_keys) (keys d)
  /\ Forall (fun k => forall v, lookup k d = Some v -> not_blank v)
       expected_keys.
Proof.
  unfold _check_indentation. cbv zeta.
  rewrite outcome_seq_returns by framed_tac.
  rewrite !for_each_returns by (intros y; framed_tac).
  apply and_iff; apply Forall_iff; intros k.
  - rewrite <- mem_In. destruct (mem k expected_keys); simpl;
      split; intros H; try reflexivity; discriminate H.
  - destruct (lookup k d) as [v |].
    + pose proof (blank_test v) as Hb.
      destruct (is_none v
                || match v with
                   | VStr s => String.eqb (strip s) EmptyString
                   | _ => false
                   end).
      * split; [discriminate |]. intros H.
        specialize (H v eq_refl). apply Hb in H. discriminate.
      * split; [| reflexivity]. intros _ v0 [= <-]. now apply Hb.
    + split; [| reflexivity]. intros _ v0 E. discriminate.
Qed.

Lemma keys_expected_no_table d :
  Forall (fun k => In k expected_keys) (keys d) -> lookup "table" d = None.
Proof.
  intros H. destruct (lookup "table" d) as [v |] eqn:E; [| reflexivity].
  assert (Hh : has "table" d = true) by (unfold has; now rewrite E).
  apply has_In_keys in Hh. rewrite Forall_forall in H.
  apply H in Hh. simpl in Hh.
  repeat (destruct Hh as [Hh | Hh]; [discriminate |]). contradiction.
Qed.

Lemma bool_not_blank v : is_bool v = true -> not_blank v.
Proof. destruct v; try discriminate. intros _. split; discriminate. Qed.

(** A column passes exactly when it is well-formed, and the check then
    registers its identifier. *)
Lemma validate_column_returns self column_id column ids tables ids' :
  outcome (_validate_column self column_id column ids tables) = Returned ids'
  <-> column_ok (column_id, column)
      /\ mem column_id ids = false /\ ids' = set_add column_id ids.
Proof.
  unfold column_ok. cbn [fst snd]. split.
  - unfold _validate_column.
    destruct column as [| | | | | d]; try discriminate.
    destruct (existsb is_dict (values d)) eqn:Ed; [discriminate |].
    rewrite outcome_bind_returns by framed_tac.
    intros (ids1 & H1 & H).
    unfold _check_unique_column_id in H1.
    destruct (mem column_id ids) eqn:Em; [discriminate |].
    injection H1 as <-.
    rewrite outcome_seq_returns in H by framed_tac.
    destruct H as [Hf H]. apply check_column_format_returns in Hf.
    rewrite outcome_seq_returns in H by framed_tac.
    destruct H as [Hr H]. apply check_required_column_keys_returns in Hr.
    rewrite outcome_seq_returns in H by framed_tac.
    destruct H as [Hi H]. apply check_indentation_returns in Hi.
    destruct Hi as [Hk Hb].
    rewrite outcome_seq_returns in H by framed_tac.
    destruct H as [Hp H].
    rewrite outcome_seq_returns in H by framed_tac.
    destruct H as [_ H]. injection H as <-.
    split; [| auto]. exists d. split; [reflexivity |].
    split.
    { apply Forall_forall. intros v Hv.
      destruct (is_dict v) eqn:Ev; [| reflexivity].
      assert (existsb is_dict (values d) = true)
        by (apply existsb_exists; eauto).
      congruence. }
    split; [assumption |].
    split.
    { rewrite Forall_forall in Hr, Hb |- *. intros k Hin.
      destruct (Hr k Hin) as (v & E & Ht). exists v. repeat split; auto.
      - apply (Hb k); [| exact E]. simpl in Hin |- *. tauto.
      - apply (Hb k); [| exact E]. simpl in Hin |- *. tauto. }
    split; [assumption |].
    intros v E. rewrite E in Hp.
    destruct (is_bool v); [reflexivity | discriminate].
  - intros ((d & -> & Hd & Hf & Hr & Hk & Hp) & Em & ->).
    unfold _validate_column.
    assert (Ed : existsb is_dict (values d) = false).
    { destruct (existsb is_dict (values d)) eqn:E; [| reflexivity].
      apply existsb_exists in E as (v & Hin & Hv).
      rewrite Forall_forall in Hd. rewrite (Hd v Hin) in Hv. discriminate. }
    rewrite Ed.
    rewrite outcome_bind_returns by framed_tac.
    exists (set_add column_id ids). split.
    { unfold _check_unique_column_id. now rewrite Em. }
    rewrite outcome_seq_returns by framed_tac. split.
    { now apply check_column_format_returns. }
    rewrite outcome_seq_returns by framed_tac. split.
    { apply check_required_column_keys_returns.
      eapply Forall_impl; [| exact Hr]. cbv beta.
      intros k (v & E & Ht & _). eauto. }
    rewrite outcome_seq_returns by framed_tac. split.
    { apply check_indentation_returns. split; [assumption |].
      apply Forall_forall. intros k Hin v E.
      simpl in Hin.
      destruct Hin as [<- | [<- | [<- | [<- | [<- | []]]]]];
        try (rewrite Forall_forall in Hr;
             match goal with
             | E : lookup ?k d = Some v |- _ =>
                 destruct (Hr k) as (v' & E' & _ & Hb);
                 [simpl; tauto | congruence]
             end).
      apply bool_not_blank. now apply Hp. }
    rewrite outcome_seq_returns by framed_tac. split.
    { destruct (lookup "primary_key" d) as [v |] eqn:E; [| reflexivity].
      now rewrite (Hp v eq_refl). }
    rewrite outcome_seq_returns by framed_tac. split; [| reflexivity].
    now rewrite (keys_expected_no_table d Hk).
Qed.


Lemma framed_for_fold A S (l : list A) (body : S -> A -> M S) s :
  (forall s x, framed (body s x)) -> framed (for_fold l s body).
Proof. intros H. now apply emits_for_fold. Qed.

Lemma emits_table_name P table : emits P (table_name table).
Proof. unfold table_name. emits_auto idtac. Qed.

Lemma emits_column_step P self tables ids entry :
  emits P (column_step self tables ids entry).
Proof. unfold column_step. emits_auto idtac. Qed.

#[local] Hint Resolve emits_table_name emits_column_step : emits.

Lemma framed_column_step self tables ids entry :
  framed (column_step self tables ids entry).
Proof. apply emits_column_step. Qed.

(** The required keys of a mapping: the first missing one is reported. *)
Lemma check_required_keys_mapping self m :
  schema self = VDict m ->
  outcome (_check_required_keys self) =
  match first_missing m with
  | Some k => Raised (MissingKeyError (VStr k))
  | None => Returned tt
  end.
Proof.
  intros Hs. unfold _check_required_keys, first_missing, outcome.
  rewrite Hs. cbv [for_each bind ret py_in raise find].
  destruct (has "subject_area" m); [| reflexivity].
  destruct (has "table_info" m); [| reflexivity].
  destruct (has "columns" m); reflexivity.
Qed.

Lemma first_missing_none m :
  first_missing m = None <->
  has "subject_area" m = true /\ has "table_info" m = true
  /\ has "columns" m = true.
Proof.
  unfold first_missing. simpl.
  destruct (has "subject_area" m), (has "table_info" m), (has "columns" m);
    simpl; split; try discriminate; try tauto; intros (? & ? & ?);
    discriminate.
Qed.

Lemma table_names_returns ti :
  Forall table_entry_ok ti ->
  (exists names, outcome (map_m table_name ti) = Returned names) <->
  Forall table_name_hashable ti.
Proof.
  induction 1 as [| tb ti Htb Hti IH]; cbn [map_m].
  - split; [constructor |]. intros _. exists []. reflexivity.
  - destruct Htb as (d & nm & js & -> & Et & _).
    assert (Hn : outcome (table_name (VDict d)) =
                 if hashable nm then Returned nm else Raised TypeError).
    { unfold table_name, outcome, bind, py_getitem. rewrite Et.
      unfold ret, raise. destruct (hashable nm); reflexivity. }
    split.
    + intros (names & H).
      rewrite outcome_bind_returns in H
        by framed_tac.
      destruct H as (n & H1 & H). rewrite Hn in H1.
      destruct (hashable nm) eqn:Eh; [| discriminate].
      rewrite outcome_bind_returns in H
        by framed_tac.
      destruct H as (ns & H2 & _).
      constructor.
      * intros d0 n0 [= <-] E. congruence.
      * apply IH. eauto.
    + intros H. inversion H as [| ? ? Hh Hrest]; subst.
      apply IH in Hrest as (ns & Hns).
      exists (nm :: ns).
      rewrite outcome_bind_returns
        by framed_tac.
      exists nm. split.
      * rewrite Hn. now rewrite (Hh d nm eq_refl Et).
      * rewrite outcome_bind_returns
          by framed_tac.
        exists ns. split; [assumption | reflexivity].
Qed.

Lemma column_step_returns self tables ids column_id column ids' :
  outcome (column_step self tables ids (column_id, column)) = Returned ids'
  <-> column_ok (column_id, column)
      /\ mem column_id ids = false /\ ids' = set_add column_id ids.
Proof.
  unfold column_step.
  destruct (mem column_id ids) eqn:Em.
  - split; [discriminate | intros (_ & E & _); discriminate].
  - rewrite outcome_bind_returns by framed_tac. split.
    + intros (ids1 & H1 & H2).
      apply validate_column_returns in H1 as (Hc & _ & ->).
      injection H2 as <-. repeat split; auto.
      unfold set_add at 1. rewrite mem_set_add, String.eqb_refl. reflexivity.
    + intros (Hc & _ & ->). exists (set_add column_id ids). split.
      * apply validate_column_returns. auto.
      * unfold ret, outcome. simpl. f_equal.
        unfold set_add at 1. now rewrite mem_set_add, String.eqb_refl.
Qed.

Lemma fold_columns_returns self tables cols : forall ids,
  (exists ids', outcome (for_fold cols ids (column_step self tables))
                = Returned ids')
  <-> Forall column_ok cols /\ NoDup (keys cols)
      /\ Forall (fun k => mem k ids = false) (keys cols).
Proof.
  induction cols as [| [column_id column] cols IH]; intros ids.
  - simpl. split.
    + intros _. split; [constructor |]. split; constructor.
    + intros _. exists ids. reflexivity.
  - cbn [for_fold keys map fst].
    assert (Hfr : forall s, framed (for_fold cols s (column_step self tables)))
      by (intros s; apply framed_for_fold; intros;
          apply framed_column_step).
    split.
    + intros (ids' & H).
      rewrite outcome_bind_returns in H
        by (auto using framed_column_step).
      destruct H as (ids1 & H1 & H).
      apply column_step_returns in H1 as (Hc & Em & ->).
      destruct (proj1 (IH _) (ex_intro _ ids' H)) as (Hcs & Hnd & Hm).
      split; [now constructor |].
      rewrite Forall_forall in Hm.
      split.
      * constructor; [| assumption]. intros Hin.
        specialize (Hm _ Hin). rewrite mem_set_add, String.eqb_refl in Hm.
        discriminate.
      * constructor; [assumption |].
        apply Forall_forall. intros k Hin. specialize (Hm _ Hin).
        rewrite mem_set_add in Hm. now apply orb_false_iff in Hm.
    + intros (Hcs & Hnd & Hm).
      inversion Hcs as [| ? ? Hc Hcs']; subst.
      inversion Hnd as [| ? ? Hnin Hnd']; subst.
      inversion Hm as [| ? ? Em Hm']; subst.
      destruct (proj2 (IH (set_add column_id ids))) as (ids' & H).
      { split; [assumption |]. split; [assumption |].
        rewrite Forall_forall in Hm' |- *. intros k Hin.
        rewrite mem_set_add, (Hm' _ Hin), orb_false_r.
        destruct (String.eqb k column_id) eqn:E; [| reflexivity].
        apply String.eqb_eq in E. now subst. }
      exists ids'.
      rewrite outcome_bind_returns by (auto using framed_column_step).
      exists (set_add column_id ids). split; [| assumption].
      apply column_step_returns. auto.
Qed.


Lemma validate_columns_eq self cols :
  _validate_columns self (VDict cols) =
  (table_info <- py_getitem (schema self) "table_info" ;;
   tables <- py_iter table_info ;;
   tables_in_schema <- map_m table_name tables ;;
   for_fold cols [] (column_step self tables_in_schema) ;;
   ret tt)%py.
Proof. reflexivity. Qed.

Lemma validate_columns_returns self m ti columns :
  schema self = VDict m ->
  lookup "table_info" m = Some (VList ti) ->
  Forall table_entry_ok ti ->
  outcome (_validate_columns self columns) = Returned tt <->
  exists cols,
    columns = VDict cols
    /\ Forall table_name_hashable ti
    /\ NoDup (keys cols) /\ Forall column_ok cols.
Proof.
  intros Hs Hti Hok.
  destruct columns as [| | | | | cols];
    try (split; [discriminate | intros (c0 & E & _); discriminate]).
  rewrite validate_columns_eq.
  rewrite outcome_bind by framed_tac.
  replace (outcome (py_getitem (schema self) "table_info"))
    with (Returned (VList ti))
    by (rewrite Hs; unfold outcome, py_getitem; now rewrite Hti).
  rewrite outcome_bind by framed_tac.
  change (outcome (py_iter (VList ti))) with (Returned ti).
  rewrite outcome_bind_returns by framed_tac.
  split.
  - intros (tis & H1 & H2).
    rewrite outcome_bind_returns in H2 by framed_tac.
    destruct H2 as (ids & H2 & _).
    exists cols. split; [reflexivity |].
    split; [apply (table_names_returns Hok); eauto |].
    destruct (proj1 (fold_columns_returns self tis cols [])
                (ex_intro _ ids H2)) as (Hc & Hnd & _).
    auto.
  - intros (c0 & [= <-] & Hh & Hnd & Hc).
    apply (table_names_returns Hok) in Hh as (tis & Htis).
    exists tis. split; [assumption |].
    rewrite outcome_bind_returns by framed_tac.
    destruct (proj2 (fold_columns_returns self tis cols [])) as (ids & Hids).
    { split; [assumption |]. split; [assumption |].
      apply Forall_forall. intros k _. reflexivity. }
    exists ids. split; [assumption | reflexivity].
Qed.

Lemma has_lookup k d : has k d = true <-> exists v, lookup k d = Some v.
Proof.
  unfold has. destruct (lookup k d); split; eauto; try discriminate.
  now intros (v & E).
Qed.

(** The checks of [validate] succeed exactly on the valid schema
    documents. *)
Lemma checks_returns self :
  outcome (checks self) = Returned tt <-> valid_schema (schema self).
Proof.
  unfold valid_schema, checks.
  rewrite outcome_seq_returns by framed_tac.
  destruct (schema self) as [| | | | | m] eqn:Hs.
  1-5: split; [| intros (m0 & t0 & c0 & E & _); discriminate].
  1-5: intros [_ H]; rewrite outcome_bind in H by framed_tac;
       discriminate H.
  rewrite (check_required_keys_mapping self Hs).
  split.
  - intros [Hk H].
    destruct (first_missing m) eqn:Ef; [discriminate |].
    apply first_missing_none in Ef as (Hsa & Hti & Hc).
    rewrite outcome_bind_returns in H by framed_tac.
    destruct H as (ti & H1 & H).
    rewrite outcome_seq_returns in H by framed_tac.
    destruct H as [H2 H].
    rewrite outcome_bind_returns in H by framed_tac.
    destruct H as (cols & H3 & H4).
    apply validate_table_info_returns in H2 as (tl & -> & Hok).
    unfold outcome, py_getitem in H1, H3.
    destruct (lookup "table_info" m) as [ti' |] eqn:Eti; [| discriminate].
    destruct (lookup "columns" m) as [cols' |] eqn:Ec; [| discriminate].
    injection H1 as ->. injection H3 as ->.
    apply (validate_columns_returns self cols Hs Eti Hok) in H4
      as (cl & -> & Hh & Hnd & Hcs).
    exists m, tl, cl.
    split; [reflexivity |]. split; [assumption |].
    split; [assumption |]. split; [assumption |].
    split; [assumption |]. split; [assumption |].
    split; assumption.
  - intros (m0 & tl & cl & [= <-] & Hsa & Eti & Ec & Hok & Hh & Hnd & Hcs).
    assert (Hf : first_missing m = None).
    { apply first_missing_none. split; [assumption |].
      split; apply has_lookup; eauto. }
    rewrite Hf. split; [reflexivity |].
    rewrite outcome_bind_returns by framed_tac.
    exists (VList tl). split.
    { unfold outcome, py_getitem. now rewrite Eti. }
    rewrite outcome_seq_returns by framed_tac. split.
    { apply validate_table_info_returns. eauto. }
    rewrite outcome_bind_returns by framed_tac.
    exists (VDict cl). split.
    { unfold outcome, py_getitem. now rewrite Ec. }
    apply (validate_columns_returns self (VDict cl) Hs Eti Hok).
    exists cl. split; [reflexivity |]. split; [assumption |].
    split; assumption.
Qed.

End SchemaAcceptsFacts.

(* ================================================================= *)
(** ** What a computation can raise *)

Lemma raises_only_weaken A (P Q : exn -> Prop) (m : M A)
    (H : raises_only P m) (HPQ : forall e, P e -> Q e) :
  raises_only Q m.
Proof. intros e He. apply HPQ, H, He. Qed.
Arguments raises_only_weaken {A P Q m} H HPQ.

Lemma raises_only_bind A B P (m : M A) (f : A -> M B) :
  framed m -> (forall a, framed (f a)) ->
  raises_only P m ->
  (forall a, outcome m = Returned a -> raises_only P (f a)) ->
  raises_only P (bind m f).
Proof.
  intros Hm Hf H1 H2 e. rewrite outcome_bind by assumption.
  destruct (outcome m) as [a | e'] eqn:E.
  - now apply H2.
  - intros [= <-]. apply H1, E.
Qed.

Lemma raises_only_for_each A P (l : list A) (body : A -> M unit) :
  (forall y, framed (body y)) ->
  (forall x, In x l -> raises_only P (body x)) ->
  raises_only P (for_each l body).
Proof.
  intros Hf H e He.
  apply for_each_raised in He as (l1 & x & l2 & -> & _ & He); [| assumption].
  apply (H x); [| assumption]. apply in_or_app. right. now left.
Qed.

Lemma raises_only_for_fold A S P (l : list A) (body : S -> A -> M S) :
  (forall s x, framed (body s x)) ->
  (forall s x, In x l -> raises_only P (body s x)) ->
  forall s, raises_only P (for_fold l s body).
Proof.
  intros Hf. induction l as [| x l IH]; intros H s; cbn [for_fold].
  - intros e He. discriminate He.
  - apply raises_only_bind.
    + apply Hf.
    + intros s'. now apply SchemaAcceptsFacts.framed_for_fold.
    + apply H. now left.
    + intros s' _. apply IH. intros s0 y Hy. apply H. now right.
Qed.

Lemma raises_only_map_m A B P (f : A -> M B) (l : list A) :
  (forall x, framed (f x)) ->
  (forall x, In x l -> raises_only P (f x)) ->
  raises_only P (map_m f l).
Proof.
  intros Hf. induction l as [| x l IH]; intros H; cbn [map_m].
  - intros e He. discriminate He.
  - apply raises_only_bind.
    + apply Hf.
    + intros y. apply emits_bind; [now apply emits_map_m |].
      intros ys. apply emits_ret.
    + apply H. now left.
    + intros y _. apply raises_only_bind.
      * now apply emits_map_m.
      * intros ys. apply emits_ret.
      * apply IH. intros z Hz. apply H. now right.
      * intros ys _ e He. discriminate He.
Qed.

Lemma py_in_raises x c : raises_only (fun e => e = TypeError) (py_in x c).
Proof.
  intros e. unfold py_in.
  destruct c; try (now intros [= <-]); destruct x;
    try (now intros [= <-]); discriminate.
Qed.

Lemma set_in_raises x c : raises_only (fun e => e = TypeError) (set_in x c).
Proof.
  intros e. unfold set_in.
  destruct (hashable x); [discriminate | now intros [= <-]].
Qed.

Lemma py_getitem_raises c k :
  raises_only (fun e => e = TypeError \/ e = KeyError k) (py_getitem c k).
Proof.
  intros e. unfold py_getitem.
  destruct c; try (intros [= <-]; now left).
  destruct (lookup k d); [discriminate | intros [= <-]; now right].
Qed.

Lemma py_iter_raises c : raises_only (fun e => e = TypeError) (py_iter c).
Proof.
  intros e. unfold py_iter.
  destruct c; try (now intros [= <-]); discriminate.
Qed.

(** One step of a proof that a computation raises only what [P] allows;
    [leaf] proves [P] of an exception raised outright. *)
Ltac raises_step leaf :=
  match goal with
  | |- raises_only _ ((fun _ => _) _) => cbv beta
  | |- raises_only _ (let _ := _ in _) => cbv zeta
  | |- raises_only _ (ret _) => let e := fresh in intros e ?; discriminate
  | |- raises_only _ (raise _) => let e := fresh in intros e [= <-]; leaf
  | |- raises_only _ (emit _) => let e := fresh in intros e ?; discriminate
  | |- raises_only _ (info _) => let e := fresh in intros e ?; discriminate
  | |- raises_only _ (error _) => let e := fresh in intros e ?; discriminate
  | |- raises_only _ (bind _ _) =>
      let H := fresh in
      apply raises_only_bind;
      [framed_tac | framed_tac | | intros ? H; try discriminate H]
  | |- raises_only _ (py_getitem _ _) =>
      apply (raises_only_weaken (@py_getitem_raises _ _));
      intros ? [-> | ->]; leaf
  | |- raises_only _ (for_each _ _) =>
      apply raises_only_for_each; [framed_tac | intros ? ?]
  | |- raises_only _ (py_in _ _) =>
      apply (raises_only_weaken (@py_in_raises _ _)); intros ? ->; leaf
  | |- raises_only _ (set_in _ _) =>
      apply (raises_only_weaken (@set_in_raises _ _)); intros ? ->; leaf
  | |- raises_only _ (py_iter _) =>
      apply (raises_only_weaken (@py_iter_raises _)); intros ? ->; leaf
  | |- raises_only _ (match ?x with _ => _ end) => destruct x eqn:?
  | |- raises_only _ (if ?x then _ else _) => destruct x eqn:?
  end.

Ltac raises_auto leaf := repeat (raises_step leaf).

(* ================================================================= *)
(** ** Schema validator: what it can raise *)

Module SchemaRaisesFacts.
Import SchemaValidator SchemaLog SchemaFacts SchemaAccepts SchemaAcceptsFacts.

#[local] Hint Resolve emits_validate_joins emits_validate_table_entry
  emits_validate_table_info emits_check_unique_column_id
  emits_check_column_format emits_check_required_column_keys
  emits_check_indentation emits_validate_table_reference
  emits_validate_column emits_validate_columns
  emits_check_required_schema_keys emits_table_name emits_column_step : emits.

(** A recognised violation or a [TypeError], but not the failure of a
    uniqueness check. *)
Definition tame (e : exn) : Prop :=
  violation_or_type_error e /\ ~ duplicate_id e.

Ltac tame_tac :=
  split;
  [ first [left; reflexivity | right; reflexivity]
  | let c := fresh in let H := fresh in
    intros (c & H); unfold strs in H; discriminate H ].

Lemma check_column_format_tame c d : raises_only tame (_check_column_format c d).
Proof. unfold _check_column_format. raises_auto tame_tac. Qed.

Lemma check_required_column_keys_tame c d :
  raises_only tame (_check_required_column_keys c d).
Proof. unfold _check_required_column_keys. raises_auto tame_tac. Qed.

Lemma check_indentation_tame c d : raises_only tame (_check_indentation c d).
Proof. unfold _check_indentation. raises_auto tame_tac. Qed.

Lemma validate_table_reference_tame tb tbs :
  raises_only tame (validate_table_reference tb tbs).
Proof. unfold validate_table_reference. raises_auto tame_tac. Qed.

Lemma validate_column_raises self c col ids tbs :
  raises_only
    (fun e => violation_or_type_error e
              /\ (mem c ids = false -> ~ duplicate_id e))
    (_validate_column self c col ids tbs).
Proof.
  assert (Hw : forall e, tame e ->
                 violation_or_type_error e
                 /\ (mem c ids = false -> ~ duplicate_id e))
    by (intros e [? ?]; auto).
  unfold _validate_column.
  destruct col as [| | | | | d];
    try (intros e [= <-]; split; [now left | intros _ (x & [=])]).
  destruct (existsb is_dict (values d));
    [intros e [= <-]; split; [now left | intros _ (x & [=])] |].
  apply raises_only_bind; [framed_tac | framed_tac | |].
  { unfold _check_unique_column_id.
    destruct (mem c ids); [| intros e He; discriminate He].
    intros e [= <-]. split; [now left | discriminate]. }
  intros ids1 _.
  apply raises_only_bind; [framed_tac | framed_tac | |].
  { exact (raises_only_weaken (check_column_format_tame c d) Hw). }
  intros _ _.
  apply raises_only_bind; [framed_tac | framed_tac | |].
  { exact (raises_only_weaken (check_required_column_keys_tame c d) Hw). }
  intros _ _.
  apply raises_only_bind; [framed_tac | framed_tac | |].
  { exact (raises_only_weaken (check_indentation_tame c d) Hw). }
  intros _ _.
  apply raises_only_bind; [framed_tac | framed_tac | |].
  { destruct (lookup "primary_key" d) as [v |];
      [| intros e He; discriminate He].
    destruct (negb (is_bool v)); [| intros e He; discriminate He].
    intros e [= <-]. split; [now left | intros _ (x & [=])]. }
  intros _ _.
  apply raises_only_bind; [framed_tac | framed_tac | |].
  { destruct (lookup "table" d) as [tb |];
      [| intros e He; discriminate He].
    exact (raises_only_weaken (validate_table_reference_tame tb tbs) Hw). }
  intros _ _ e He. discriminate He.
Qed.

Lemma column_step_raises self tbs ids c col :
  raises_only
    (fun e => violation_or_type_error e
              /\ (mem c ids = false -> ~ duplicate_id e))
    (column_step self tbs ids (c, col)).
Proof.
  unfold column_step.
  destruct (mem c ids) eqn:Em.
  - intros e [= <-]. split; [now left | discriminate].
  - apply raises_only_bind; [framed_tac | framed_tac | |].
    + apply (raises_only_weaken (validate_column_raises self c col ids tbs)).
      intros e [H1 H2]. split; [assumption | intros _; now apply H2].
    + intros ids1 _ e He. discriminate He.
Qed.

Lemma fold_columns_raises self tbs cols ids :
  raises_only violation_or_type_error
    (for_fold cols ids (column_step self tbs)).
Proof.
  apply raises_only_for_fold.
  - intros s x. apply framed_column_step.
  - intros s [c col] _.
    apply (raises_only_weaken (column_step_raises self tbs s c col)).
    now intros e [? _].
Qed.

(** With no key twice, the checks for a repeated identifier never
    fire. *)
Lemma fold_columns_no_duplicate self tbs cols : forall ids,
  NoDup (keys cols) ->
  Forall (fun k => mem k ids = false) (keys cols) ->
  raises_only (fun e => ~ duplicate_id e)
    (for_fold cols ids (column_step self tbs)).
Proof.
  induction cols as [| [c col] cols IH]; intros ids Hnd Hm; cbn [for_fold].
  - intros e He. discriminate He.
  - cbn [keys map fst] in Hnd, Hm.
    inversion Hnd as [| ? ? Hnin Hnd']; subst.
    inversion Hm as [| ? ? Em Hm']; subst.
    apply raises_only_bind.
    + apply framed_column_step.
    + intros s. apply framed_for_fold. intros. apply framed_column_step.
    + apply (raises_only_weaken (column_step_raises self tbs ids c col)).
      intros e [_ H]. now apply H.
    + intros ids1 H1.
      apply column_step_returns in H1 as (_ & _ & ->).
      apply IH; [assumption |].
      rewrite Forall_forall in Hm' |- *. intros k Hin.
      rewrite mem_set_add, (Hm' _ Hin), orb_false_r.
      destruct (String.eqb k c) eqn:E; [| reflexivity].
      apply String.eqb_eq in E. now subst.
Qed.

Lemma validate_columns_no_duplicate self cols :
  NoDup (keys cols) ->
  raises_only (fun e => ~ duplicate_id e) (_validate_columns self (VDict cols)).
Proof.
  intros Hnd. rewrite validate_columns_eq.
  apply raises_only_bind; [framed_tac | framed_tac | |].
  { apply (raises_only_weaken (py_getitem_raises _ _)).
    intros e [-> | ->] (x & [=]). }
  intros ti _.
  apply raises_only_bind; [framed_tac | framed_tac | |].
  { apply (raises_only_weaken (py_iter_raises _)). intros e -> (x & [=]). }
  intros tables _.
  apply raises_only_bind; [framed_tac | framed_tac | |].
  { apply raises_only_map_m; [intros; apply emits_table_name |].
    intros tb _. unfold table_name.
    apply raises_only_bind; [framed_tac | framed_tac | |].
    - apply (raises_only_weaken (py_getitem_raises _ _)).
      intros e [-> | ->] (x & [=]).
    - intros nm _. destruct (hashable nm).
      + intros e He. discriminate He.
      + intros e [= <-] (x & [=]). }
  intros names _.
  apply raises_only_bind; [framed_tac | framed_tac | |].
  { apply fold_columns_no_duplicate; [assumption |].
    apply Forall_forall. reflexivity. }
  intros _ _ e He. discriminate He.
Qed.

Lemma table_name_raises tb :
  table_entry_ok tb -> raises_only (fun e => e = TypeError) (table_name tb).
Proof.
  intros (d & nm & js & -> & Et & _) e.
  unfold table_name, outcome, bind, py_getitem. rewrite Et.
  unfold ret, raise. destruct (hashable nm); [discriminate |].
  now intros [= <-].
Qed.

Lemma check_required_keys_raises self :
  raises_only violation_or_type_error (_check_required_keys self).
Proof.
  unfold _check_required_keys.
  raises_auto ltac:(first [now left | now right]).
Qed.

(** Once the required keys are there, reading one of them can only fail
    on a document that is no mapping. *)
Lemma required_key_raises self k :
  outcome (_check_required_keys self) = Returned tt ->
  In k ["subject_area"; "table_info"; "columns"] ->
  raises_only (fun e => e = TypeError) (py_getitem (schema self) k).
Proof.
  intros H Hk e. unfold py_getitem.
  destruct (schema self) as [| | | | | m] eqn:Hs; try (now intros [= <-]).
  rewrite (check_required_keys_mapping self Hs) in H.
  destruct (first_missing m) eqn:Ef; [discriminate |].
  apply first_missing_none in Ef as (H1 & H2 & H3).
  assert (Hh : has k m = true).
  { simpl in Hk. destruct Hk as [<- | [<- | [<- | []]]]; assumption. }
  apply has_lookup in Hh as (v & ->). discriminate.
Qed.

Lemma checks_raises self :
  raises_only violation_or_type_error (checks self).
Proof.
  unfold checks.
  apply raises_only_bind; [framed_tac | framed_tac | |].
  { apply check_required_keys_raises. }
  intros [] Hk.
  apply raises_only_bind; [framed_tac | framed_tac | |].
  { apply (raises_only_weaken
             (@required_key_raises self "table_info" Hk
                ltac:(simpl; tauto))).
    intros e ->. now right. }
  intros ti Hti.
  apply raises_only_bind; [framed_tac | framed_tac | |].
  { intros e He. left. now apply (validate_table_info_violation self ti). }
  intros [] Hok.
  apply validate_table_info_returns in Hok as (tl & -> & Hok).
  apply raises_only_bind; [framed_tac | framed_tac | |].
  { apply (raises_only_weaken
             (@required_key_raises self "columns" Hk ltac:(simpl; tauto))).
    intros e ->. now right. }
  intros cols _.
  destruct cols as [| | | | | cl]; try (intros e [= <-]; now left).
  rewrite validate_columns_eq.
  apply raises_only_bind; [framed_tac | framed_tac | |].
  { apply (raises_only_weaken
             (@required_key_raises self "table_info" Hk
                ltac:(simpl; tauto))).
    intros e ->. now right. }
  intros ti' Hti'. assert (ti' = VList tl) as -> by congruence.
  apply raises_only_bind; [framed_tac | framed_tac | |].
  { intros e He. discriminate He. }
  intros tables [= <-].
  apply raises_only_bind; [framed_tac | framed_tac | |].
  { apply raises_only_map_m; [intros; apply emits_table_name |].
    intros tb Hin.
    rewrite Forall_forall in Hok.
    apply (raises_only_weaken (table_name_raises (Hok tb Hin))).
    intros e ->. now right. }
  intros names _.
  apply raises_only_bind; [framed_tac | framed_tac | |].
  { apply fold_columns_raises. }
  intros _ _ e He. discriminate He.
Qed.

End SchemaRaisesFacts.

(* ================================================================= *)
(** ** Schema validator: further checks *)

Lemma silent_returns A (m : M A) r st :
  silent m -> m st = (r, st) <-> outcome m = r.
Proof.
  intros H. rewrite (silent_run H st). split.
  - now intros [= ->].
  - now intros ->.
Qed.

Lemma silent_inv A (m : M A) r st st' :
  silent m -> m st = (r, st') -> outcome m = r /\ st' = st.
Proof.
  intros H E. rewrite (silent_run H st) in E.
  split; congruence.
Qed.

Module SchemaChecksFacts.
Import SchemaValidator SchemaLog SchemaFacts SchemaAccepts SchemaAcceptsFacts.

#[local] Hint Resolve emits_validate_joins emits_validate_table_entry
  emits_validate_table_info emits_check_unique_column_id
  emits_check_column_format emits_check_required_column_keys
  emits_check_indentation emits_validate_table_reference
  emits_validate_column emits_validate_columns
  emits_check_required_schema_keys emits_table_name emits_column_step : emits.

Lemma declared_check tables t :
  outcome (present <- set_in t tables ;;
           if negb present then raise (MissingKeyError t) else ret tt)%py
  = Returned tt
  <-> declared tables t.
Proof.
  unfold declared, set_in, outcome, bind, ret, raise.
  destruct (hashable t); cbn.
  - destruct (existsb (py_eq t) tables); cbn; split;
      try tauto; try discriminate. intros [_ H]. discriminate H.
  - split; [discriminate | intros [H _]; discriminate H].
Qed.

Lemma validate_table_reference_returns table tables :
  outcome (validate_table_reference table tables) = Returned tt <->
  (exists s, table = VStr s /\ declared tables table)
  \/ (exists l, table = VList l /\ Forall (declared tables) l).
Proof.
  unfold validate_table_reference.
  destruct table as [| | | s | l |];
    try (split; [discriminate
                | intros [(s0 & E & _) | (l0 & E & _)]; discriminate]).
  - rewrite declared_check. split.
    + intros H. left. eauto.
    + intros [(s0 & _ & H) | (l0 & E & _)]; [assumption | discriminate].
  - rewrite for_each_returns by (intros y; framed_tac).
    rewrite (Forall_iff _ _ l (declared_check tables)). split.
    + intros H. right. eauto.
    + intros [(s0 & E & _) | (l0 & [= <-] & H)]; [discriminate | assumption].
Qed.

Lemma check_indentation_unexpected column_id d l1 k l2 :
  keys d = l1 ++ k :: l2 ->
  Forall (fun k' => In k' expected_keys) l1 ->
  ~ In k expected_keys ->
  outcome (_check_indentation column_id d) =
  Raised (InvalidKeyError (VStr k) (strs expected_keys)).
Proof.
  intros Hk Hl Hn. unfold _check_indentation. cbv zeta.
  rewrite outcome_bind by framed_tac. rewrite Hk.
  rewrite (@for_each_reaches _ _ l1 k l2
             (InvalidKeyError (VStr k) (strs expected_keys))).
  - reflexivity.
  - intros y. framed_tac.
  - eapply Forall_impl; [| exact Hl]. cbv beta. intros a Ha.
    apply mem_In in Ha. now rewrite Ha.
  - destruct (mem k expected_keys) eqn:E; [| reflexivity].
    apply mem_In in E. contradiction.
Qed.

(** A table whose name cannot be put in a set stops the collection of
    the table names. *)
Lemma table_names_unhashable ti :
  Forall table_entry_ok ti ->
  ~ Forall table_name_hashable ti ->
  outcome (map_m table_name ti) = Raised TypeError.
Proof.
  intros Hok Hn.
  destruct (outcome (map_m table_name ti)) as [names | e] eqn:E.
  - exfalso. apply Hn. apply table_names_returns; eauto.
  - f_equal.
    apply (@raises_only_map_m _ _ (fun e => e = TypeError) table_name ti);
      [intros; apply emits_table_name | | exact E].
    intros tb Hin. apply SchemaRaisesFacts.table_name_raises.
    rewrite Forall_forall in Hok. now apply Hok.
Qed.

Lemma checks_unhashable self m ti cols :
  schema self = VDict m ->
  has "subject_area" m = true ->
  lookup "table_info" m = Some (VList ti) ->
  lookup "columns" m = Some (VDict cols) ->
  Forall table_entry_ok ti ->
  ~ Forall table_name_hashable ti ->
  outcome (checks self) = Raised TypeError.
Proof.
  intros Hs Hsa Hti Hc Hok Hn. unfold checks.
  rewrite outcome_bind by framed_tac.
  rewrite (check_required_keys_mapping self Hs).
  assert (Hf : first_missing m = None).
  { apply first_missing_none. split; [assumption |].
    split; apply has_lookup; eauto. }
  rewrite Hf.
  assert (Hg1 : outcome (py_getitem (schema self) "table_info")
                = Returned (VList ti)).
  { rewrite Hs. unfold outcome, py_getitem. now rewrite Hti. }
  assert (Hg2 : outcome (py_getitem (schema self) "columns")
                = Returned (VDict cols)).
  { rewrite Hs. unfold outcome, py_getitem. now rewrite Hc. }
  rewrite outcome_bind by framed_tac. rewrite Hg1.
  rewrite outcome_bind by framed_tac.
  rewrite (proj2 (validate_table_info_returns self (VList ti)))
    by (exists ti; auto).
  rewrite outcome_bind by framed_tac. rewrite Hg2.
  rewrite validate_columns_eq.
  rewrite outcome_bind by framed_tac. rewrite Hg1.
  rewrite outcome_bind by framed_tac.
  change (outcome (py_iter (VList ti))) with (Returned (A := list value) ti).
  cbv iota beta.
  rewrite outcome_bind by framed_tac.
  now rewrite table_names_unhashable.
Qed.

Lemma checks_first_missing self m k :
  schema self = VDict m ->
  first_missing m = Some k ->
  outcome (checks self) = Raised (MissingKeyError (VStr k)).
Proof.
  intros Hs Hk. unfold checks.
  rewrite outcome_bind by framed_tac.
  now rewrite (check_required_keys_mapping self Hs), Hk.
Qed.

Lemma passed_verdict self (o : result unit) :
  match o with
  | Returned _ => passed self
  | Raised e => if is_violation e then reported self e else unexpected self e
  end = passed self
  <-> o = Returned tt.
Proof.
  destruct o as [[] | e]; [tauto |].
  split; [| discriminate]. destruct (is_violation e); discriminate.
Qed.

End SchemaChecksFacts.

(* ================================================================= *)
(** ** The schema validator, check by check *)

(** X1 ([_validate_joins]): the joins of a table entry pass exactly when
    they are a list, possibly empty, of strings [left = right] whose two
    sides are non-empty runs of word characters and dots; one newline
    after the right side is let through.  Nothing is logged. *)
Theorem X1_joins_pass_iff_list_of_join_conditions :
  forall (joins table_name : value) (st : logger),
    SchemaValidator._validate_joins joins table_name st = (Returned tt, st)
    <-> exists l, joins = VList l /\ Forall SchemaAccepts.join_ok l.
Proof.
  intros joins table_name st.
  rewrite silent_returns by apply SchemaFacts.emits_validate_joins.
  apply SchemaAcceptsFacts.validate_joins_returns.
Qed.

Lemma X1_joins_pass_iff_list_of_join_conditions_witness :
  exists l,
    VList [VStr "orders.customer_id = customers.id"] = VList l
    /\ Forall SchemaAccepts.join_ok l.
Proof.
  apply (proj1 (X1_joins_pass_iff_list_of_join_conditions
                  (VList [VStr "orders.customer_id = customers.id"])
                  (VStr "orders") [])).
  vm_compute. reflexivity.
Defined.

(** X2 ([_check_column_format]): a column identifier passes exactly when
    it is a letter or an underscore followed by letters, digits and
    underscores, with one newline let through at the end; every other
    identifier fails with InvalidFormatError naming it. *)
Theorem X2_column_id_passes_iff_identifier :
  forall (column_id : string) (column : list (string * value)) (st : logger),
    (SchemaValidator._check_column_format column_id column st
       = (Returned tt, st)
     <-> Format.identifier column_id)
    /\ (SchemaValidator._check_column_format column_id column st
          = (Raised (InvalidFormatError (VStr column_id)
                       (VStr "valid format")), st)
        <-> ~ Format.identifier column_id).
Proof.
  intros column_id column st.
  rewrite !silent_returns by apply SchemaFacts.emits_check_column_format.
  rewrite <- (SchemaAcceptsFacts.check_column_format_returns column_id column).
  split; [tauto |].
  unfold SchemaValidator._check_column_format, outcome.
  destruct (Re.re_match false SchemaValidator.column_id_pattern column_id);
    cbn; split; try discriminate; try tauto.
Qed.

(** X3 ([_validate_table_entry]): a table entry passes exactly when it is
    a mapping with a [table] that is not null and with [joins] a list of
    well-formed join conditions. *)
Theorem X3_table_entry_passes_iff_well_formed :
  forall (self : SchemaValidator.t) (table : value) (st : logger),
    SchemaValidator._validate_table_entry self table st = (Returned tt, st)
    <-> SchemaAccepts.table_entry_ok table.
Proof.
  intros self table st.
  rewrite silent_returns by apply SchemaFacts.emits_validate_table_entry.
  apply SchemaAcceptsFacts.validate_table_entry_returns.
Qed.

(** X4 ([_validate_table_info]): whatever value stands under
    [table_info], its validation logs nothing and fails with one of the
    four recognised violations only: no malformed entry makes it crash
    with an interpreter error. *)
Theorem X4_table_info_fails_with_violations_only :
  forall (self : SchemaValidator.t) (table_info : value) (st st' : logger)
         (e : exn),
    SchemaValidator._validate_table_info self table_info st = (Raised e, st')
    -> is_violation e = true /\ st' = st.
Proof.
  intros self table_info st st' e H.
  apply silent_inv in H as [H ->];
    [| apply SchemaFacts.emits_validate_table_info].
  split; [| reflexivity].
  now apply (SchemaAcceptsFacts.validate_table_info_violation
               self table_info).
Qed.

Lemma X4_table_info_fails_with_violations_only_witness :
  is_violation (InvalidFormatError (VStr "table_info entry")
                  (VStr "dictionary")) = true
  /\ @nil record = [].
Proof.
  apply (X4_table_info_fails_with_violations_only
           (SchemaValidator.Build VNone "s.yml")
           (VList [VStr "orders"]) []).
  reflexivity.
Defined.

(** X5 ([_validate_column]): a column passes exactly when its identifier
    is not registered yet and the column is well-formed: a mapping
    without nested mappings, under a well-formed identifier, with
    [name], [type], [column] and [desc] present, truthy and not blank, no
    key besides these and [primary_key], and a boolean [primary_key] if
    any.  It then hands back the identifiers with this one added; the
    declared tables play no part. *)
Theorem X5_column_passes_iff_well_formed :
  forall (self : SchemaValidator.t) (column_id : string) (column : value)
         (column_ids : list string) (tables_in_schema : list value)
         (column_ids' : list string) (st : logger),
    SchemaValidator._validate_column self column_id column column_ids
      tables_in_schema st = (Returned column_ids', st)
    <-> SchemaAccepts.column_ok (column_id, column)
        /\ mem column_id column_ids = false
        /\ column_ids' = set_add column_id column_ids.
Proof.
  intros self column_id column column_ids tables column_ids' st.
  rewrite silent_returns by apply SchemaFacts.emits_validate_column.
  apply SchemaAcceptsFacts.validate_column_returns.
Qed.

(** X6 ([SchemaValidator.validate]): the record of success is logged
    exactly for the well-formed documents: a mapping with [subject_area],
    a [table_info] list of well-formed entries whose table names can be
    put in a set, and a [columns] mapping of well-formed columns. *)
Theorem X6_schema_passes_iff_valid :
  forall (self : SchemaValidator.t) (st : logger),
    SchemaValidator.validate self st
      = (Returned tt, st ++ [SchemaLog.passed self])
    <-> SchemaAccepts.valid_schema (SchemaValidator.schema self).
Proof.
  intros self st. rewrite SchemaFacts.validate_run.
  rewrite <- SchemaAcceptsFacts.checks_returns.
  rewrite <- (SchemaChecksFacts.passed_verdict self
                (outcome (SchemaLog.checks self))).
  split.
  - intros [= H]. now apply app_inv_head in H as [= H'].
  - now intros ->.
Qed.

Lemma X6_schema_passes_iff_valid_witness :
  SchemaAccepts.valid_schema
    (SchemaValidator.schema Scenarios.scenario1_bare).
Proof.
  apply (proj1 (X6_schema_passes_iff_valid Scenarios.scenario1_bare [])).
  vm_compute. reflexivity.
Defined.

(** X7 ([_check_required_keys] of the schema validator): a mapping that
    lacks one of [subject_area], [table_info], [columns] is reported with
    MissingKeyError naming the first of them, in this order, that it
    lacks; nothing else of the document is looked at. *)
Theorem X7_first_missing_schema_key_reported :
  forall (self : SchemaValidator.t) (m : list (string * value)) (k : string)
         (st : logger),
    SchemaValidator.schema self = VDict m ->
    SchemaAccepts.first_missing m = Some k ->
    SchemaValidator.validate self st
      = (Returned tt,
         st ++ [SchemaLog.reported self (MissingKeyError (VStr k))]).
Proof.
  intros self m k st Hs Hk. rewrite SchemaFacts.validate_run.
  now rewrite (SchemaChecksFacts.checks_first_missing self Hs Hk).
Qed.

Lemma X7_first_missing_schema_key_reported_witness :
  let self :=
    SchemaValidator.Build
      (VDict [("subject_area", VStr "sales"); ("columns", VInt 3)])
      "orders.yml" in
  SchemaValidator.validate self []
    = (Returned tt,
       [] ++ [SchemaLog.reported self (MissingKeyError (VStr "table_info"))]).
Proof.
  intros self.
  apply (@X7_first_missing_schema_key_reported self
           [("subject_area", VStr "sales"); ("columns", VInt 3)]
           "table_info" []); reflexivity.
Defined.

(** X8 ([validate_table_reference]): a table reference passes exactly
    when it is a string among the declared tables, or a list, possibly
    empty, of hashable values that are all among them. *)
Theorem X8_table_reference_passes_iff_declared :
  forall (table : value) (tables_in_schema : list value) (st : logger),
    SchemaValidator.validate_table_reference table tables_in_schema st
      = (Returned tt, st)
    <-> (exists s, table = VStr s
                   /\ SchemaAccepts.declared tables_in_schema table)
        \/ (exists l, table = VList l
                      /\ Forall (SchemaAccepts.declared tables_in_schema) l).
Proof.
  intros table tables st.
  rewrite silent_returns by apply SchemaFacts.emits_validate_table_reference.
  apply SchemaChecksFacts.validate_table_reference_returns.
Qed.

(** X9 ([_check_indentation]): a column with a key outside [name],
    [type], [column], [desc], [primary_key] fails with InvalidKeyError
    naming the first such key, in the order of the document, before any
    value is looked at. *)
Theorem X9_first_unexpected_column_key_named :
  forall (column_id : string) (column : list (string * value))
         (l1 : list string) (k : string) (l2 : list string) (st : logger),
    keys column = l1 ++ k :: l2 ->
    Forall (fun k' => In k' SchemaValidator.expected_keys) l1 ->
    ~ In k SchemaValidator.expected_keys ->
    SchemaValidator._check_indentation column_id column st
      = (Raised (InvalidKeyError (VStr k)
                   (strs SchemaValidator.expected_keys)), st).
Proof.
  intros column_id column l1 k l2 st Hk Hl Hn.
  rewrite silent_returns by apply SchemaFacts.emits_check_indentation.
  now apply (@SchemaChecksFacts.check_indentation_unexpected
               column_id column l1 k l2).
Qed.

Lemma X9_first_unexpected_column_key_named_witness :
  SchemaValidator._check_indentation "order_id"
    [("name", VNone); ("unit", VStr "EUR"); ("colour", VStr "red")] []
  = (Raised (InvalidKeyError (VStr "unit")
               (strs SchemaValidator.expected_keys)), []).
Proof.
  apply (@X9_first_unexpected_column_key_named "order_id"
           [("name", VNone); ("unit", VStr "EUR"); ("colour", VStr "red")]
           ["name"] "unit" ["colour"] []).
  - reflexivity.
  - constructor; [simpl; tauto | constructor].
  - simpl. intros [H | [H | [H | [H | [H | []]]]]]; discriminate H.
Defined.

(** X10 ([SchemaValidator.validate]): the one record it logs is the
    record of success, the report of a recognised violation, or the
    record of an unexpected TypeError: no other interpreter error can
    come out of the checks, whatever the document. *)
Theorem X10_schema_unexpected_error_is_type_error :
  forall (self : SchemaValidator.t) (st : logger),
  exists r,
    SchemaValidator.validate self st = (Returned tt, st ++ [r])
    /\ (r = SchemaLog.passed self
        \/ (exists e, is_violation e = true /\ r = SchemaLog.reported self e)
        \/ r = SchemaLog.unexpected self TypeError).
Proof.
  intros self st. rewrite SchemaFacts.validate_run.
  eexists. split; [reflexivity |].
  destruct (outcome (SchemaLog.checks self)) as [[] | e] eqn:E;
    [now left | right].
  destruct (SchemaRaisesFacts.checks_raises self E) as [Hv | ->].
  - rewrite Hv. left. eauto.
  - now right.
Qed.

(** X11 ([_validate_columns], [_check_unique_column_id]): on a [columns]
    mapping without a key twice, which is all the loader hands over,
    neither check for a repeated identifier fires:
    InvalidKeyError with [unique column IDs] is never raised. *)
Theorem X11_unique_id_checks_never_fire :
  forall (self : SchemaValidator.t) (columns : list (string * value))
         (st st' : logger) (e : exn),
    NoDup (keys columns) ->
    SchemaValidator._validate_columns self (VDict columns) st
      = (Raised e, st') ->
    ~ SchemaAccepts.duplicate_id e.
Proof.
  intros self columns st st' e Hnd H.
  apply silent_inv in H as [H _];
    [| apply SchemaFacts.emits_validate_columns].
  now apply (@SchemaRaisesFacts.validate_columns_no_duplicate self columns
               Hnd).
Qed.

Lemma X11_unique_id_checks_never_fire_witness :
  ~ SchemaAccepts.duplicate_id
      (InvalidFormatError (VStr "order_id") (VStr "dictionary")).
Proof.
  apply (@X11_unique_id_checks_never_fire
           (SchemaValidator.Build
              (VDict [("table_info", VList [])]) "orders.yml")
           [("order_id", VInt 1); ("amount", VInt 2)] [] []).
  - repeat constructor; simpl; intuition discriminate.
  - reflexivity.
Defined.

(** X12 ([_validate_columns], set comprehension of the table names): a
    [table_info] whose entries all pass their own validation, but one of
    whose table names is a list or a mapping, makes a document with a
    [columns] mapping end in the record of an unexpected TypeError
    instead of a violation. *)
Theorem X12_unhashable_table_name_is_unexpected :
  forall (self : SchemaValidator.t) (m : list (string * value))
         (table_info : list value) (columns : list (string * value))
         (st : logger),
    SchemaValidator.schema self = VDict m ->
    has "subject_area" m = true ->
    lookup "table_info" m = Some (VList table_info) ->
    lookup "columns" m = Some (VDict columns) ->
    Forall SchemaAccepts.table_entry_ok table_info ->
    ~ Forall SchemaAccepts.table_name_hashable table_info ->
    SchemaValidator.validate self st
      = (Returned tt, st ++ [SchemaLog.unexpected self TypeError]).
Proof.
  intros self m ti cols st Hs Hsa Hti Hc Hok Hn.
  rewrite SchemaFacts.validate_run.
  now rewrite (@SchemaChecksFacts.checks_unhashable self m ti cols).
Qed.

Lemma X12_unhashable_table_name_is_unexpected_witness :
  let self :=
    SchemaValidator.Build
      (VDict [("subject_area", VStr "sales");
              ("table_info",
               VList [VDict [("table", VList [VStr "orders"]);
                             ("joins", VList [])]]);
              ("columns", VDict [])])
      "orders.yml" in
  SchemaValidator.validate self []
    = (Returned tt, [] ++ [SchemaLog.unexpected self TypeError]).
Proof.
  intros self.
  apply (@X12_unhashable_table_name_is_unexpected self
           [("subject_area", VStr "sales");
            ("table_info",
             VList [VDict [("table", VList [VStr "orders"]);
                           ("joins", VList [])]]);
            ("columns", VDict [])]
           [VDict [("table", VList [VStr "orders"]); ("joins", VList [])]]
           [] []); try reflexivity.
  - constructor; [| constructor].
    exists [("table", VList [VStr "orders"]); ("joins", VList [])],
      (VList [VStr "orders"]), [].
    split; [reflexivity |]. split; [reflexivity |].
    split; [discriminate |]. split; [reflexivity | constructor].
  - intros H. inversion H as [| ? ? Hh _]; subst.
    specialize (Hh _ _ eq_refl eq_refl). discriminate Hh.
Defined.

(* ================================================================= *)
(** ** Computations that log on failure only *)

Lemma quiet_returns A (m : M A) a st :
  framed m -> quiet m -> m st = (Returned a, st) <-> outcome m = Returned a.
Proof.
  intros Hf Hq. rewrite (framed_run Hf st). split.
  - now intros [= -> _].
  - intros H. now rewrite H, (Hq a H), app_nil_r.
Qed.

Lemma quiet_ret A (a : A) : quiet (ret a).
Proof. intros b _. reflexivity. Qed.

Lemma quiet_raise A e : quiet (@raise A e).
Proof. intros b H. discriminate H. Qed.

Lemma quiet_error_raise A msg e : quiet (bind (error msg) (fun _ => @raise A e)).
Proof. intros b H. discriminate H. Qed.

Lemma quiet_bind A B (m : M A) (f : A -> M B) :
  framed m -> (forall a, framed (f a)) ->
  quiet m -> (forall a, outcome m = Returned a -> quiet (f a)) ->
  quiet (bind m f).
Proof.
  intros Hm Hf Hq Hqf b H.
  rewrite outcome_bind in H by assumption.
  rewrite emitted_bind by assumption.
  destruct (outcome m) as [a | e] eqn:E; [| discriminate].
  now rewrite (Hq a E), (Hqf a eq_refl b H).
Qed.

Lemma quiet_for_each A (l : list A) (body : A -> M unit) :
  (forall x, framed (body x)) -> (forall x, In x l -> quiet (body x)) ->
  quiet (for_each l body).
Proof.
  intros Hf. induction l as [| x l IH]; intros H; cbn [for_each].
  - apply quiet_ret.
  - apply quiet_bind.
    + apply Hf.
    + intros _. now apply framed_for_each.
    + apply H. now left.
    + intros _ _. apply IH. intros y Hy. apply H. now right.
Qed.

Lemma quiet_silent A (m : M A) : silent m -> quiet m.
Proof.
  intros H a _. unfold emitted. rewrite (silent_run H []). reflexivity.
Qed.

Create HintDb quiet.

Ltac quiet_step :=
  match goal with
  | |- quiet ((fun _ => _) _) => cbv beta
  | |- quiet (let _ := _ in _) => cbv zeta
  | |- quiet (ret _) => apply quiet_ret
  | |- quiet (raise _) => apply quiet_raise
  | |- quiet (bind (error _) (fun _ => raise _)) => apply quiet_error_raise
  | |- quiet (bind _ _) =>
      apply quiet_bind; [framed_tac | framed_tac | | intros ? ?]
  | |- quiet (for_each _ _) =>
      apply quiet_for_each; [framed_tac | intros ? ?]
  | |- quiet (py_in _ _) => apply quiet_silent, emits_py_in
  | |- quiet (py_getitem _ _) => apply quiet_silent, emits_py_getitem
  | |- quiet (py_get _ _ _) => apply quiet_silent, emits_py_get
  | |- quiet (match ?x with _ => _ end) => destruct x eqn:?
  | |- quiet (if ?x then _ else _) => destruct x eqn:?
  | |- quiet _ => solve [auto with quiet]
  end.

Ltac quiet_auto := repeat quiet_step.

(* ================================================================= *)
(** ** Semantics validator: what is accepted *)

Module SemanticsAcceptsFacts.
Import SemanticsValidator SemanticsLog SemanticsFacts Format FormatFacts
  SemanticsAccepts.

Section Framed.
Let P := fun _ : record => True.

Lemma framed_validate_calculation c : emits P (_validate_calculation c).
Proof. unfold _validate_calculation. emits_auto ltac:(exact I). Qed.

Lemma framed_validate_filters f : emits P (_validate_filters f).
Proof. unfold _validate_filters. emits_auto ltac:(exact I). Qed.

Lemma framed_require_non_empty kind owner key d :
  emits P (require_non_empty kind owner key d).
Proof. unfold require_non_empty. emits_auto ltac:(exact I). Qed.

Hint Resolve framed_validate_calculation framed_validate_filters
  framed_require_non_empty : emits.

Lemma framed_validate_attribute o k a sc :
  emits P (_validate_attribute o k a sc).
Proof. unfold _validate_attribute. emits_auto ltac:(exact I). Qed.

Lemma framed_validate_metric_keys o k d :
  emits P (_validate_metric_keys o k d).
Proof. unfold _validate_metric_keys. emits_auto ltac:(exact I). Qed.

Hint Resolve framed_validate_attribute framed_validate_metric_keys : emits.

Lemma framed_validate_metric o k m sc : emits P (_validate_metric o k m sc).
Proof. unfold _validate_metric. emits_auto ltac:(exact I). Qed.

Hint Resolve framed_validate_metric : emits.

Lemma framed_validate_attributes o a sc :
  emits P (_validate_attributes o a sc).
Proof. unfold _validate_attributes. emits_auto ltac:(exact I). Qed.

Lemma framed_validate_metrics o m sc : emits P (_validate_metrics o m sc).
Proof. unfold _validate_metrics. emits_auto ltac:(exact I). Qed.

Lemma framed_check_required_keys self : emits P (_check_required_keys self).
Proof. unfold _check_required_keys. emits_auto ltac:(exact I). Qed.

Lemma framed_validate_source o src : emits P (_validate_source o src).
Proof. unfold _validate_source. emits_auto ltac:(exact I). Qed.

Lemma framed_validate_referenced_columns o n sc cols :
  emits P (validate_referenced_columns o n sc cols).
Proof. unfold validate_referenced_columns. emits_auto ltac:(exact I). Qed.

Lemma framed_validate_semantics' self key :
  emits P (validate_semantics self key).
Proof. apply framed_validate_semantics. Qed.

Lemma framed_validate_binding' self files source key :
  emits P (validate_binding self files source key).
Proof. apply framed_validate_binding. Qed.

Lemma framed_validate' self files : emits P (validate self files).
Proof. apply framed_validate. Qed.

End Framed.

#[export] Hint Resolve framed_validate_calculation framed_validate_filters
  framed_require_non_empty framed_validate_attribute
  framed_validate_metric_keys framed_validate_metric
  framed_validate_attributes framed_validate_metrics
  framed_check_required_keys framed_validate_source
  framed_validate_referenced_columns framed_validate_semantics'
  framed_validate_binding' framed_validate' : emits.

End SemanticsAcceptsFacts.

Module SemanticsReturnsFacts.
Import SemanticsValidator SemanticsLog Format FormatFacts SemanticsAccepts
  SemanticsAcceptsFacts.

Lemma calculation_ok_truthy c : calculation_ok c -> truthy c = true.
Proof.
  intros (s & -> & H). apply GrammarFacts.complete_pattern_shape in H.
  apply GrammarFacts.complete_matches_only in H as [H _].
  simpl. destruct (String.eqb s EmptyString) eqn:E; [| reflexivity].
  apply String.eqb_eq in E. contradiction.
Qed.

Lemma validate_calculation_returns c :
  outcome (_validate_calculation c) = Returned tt <-> calculation_ok c.
Proof.
  unfold _validate_calculation, calculation_ok.
  destruct c as [| | | s | |];
    try (split; [discriminate | intros (s0 & E & _); discriminate]).
  destruct (Re.re_match true complete_pattern s) eqn:E; cbn [negb].
  - apply GrammarFacts.complete_pattern_shape in E.
    split; [eauto | reflexivity].
  - split; [discriminate |]. intros (s0 & [= <-] & H).
    apply GrammarFacts.complete_pattern_shape in H. congruence.
Qed.

Lemma quiet_validate_calculation c : quiet (_validate_calculation c).
Proof. unfold _validate_calculation. quiet_auto. Qed.

Lemma validate_filters_returns f :
  outcome (_validate_filters f) = Returned tt <-> filters_ok f.
Proof.
  unfold _validate_filters, filters_ok, all_strings.
  destruct f as [| | | | l |];
    try (split; [discriminate | intros (l0 & E & _); discriminate]).
  rewrite for_each_returns by (intros y; framed_tac).
  split.
  - intros H. exists l. split; [reflexivity |].
    eapply Forall_impl; [| exact H]. cbv beta. intros c.
    destruct (is_str c); [reflexivity | discriminate].
  - intros (l0 & [= <-] & H).
    eapply Forall_impl; [| exact H]. cbv beta. intros c ->. reflexivity.
Qed.

Lemma quiet_validate_filters f : quiet (_validate_filters f).
Proof. unfold _validate_filters. quiet_auto. Qed.

Lemma require_non_empty_returns kind owner key d :
  outcome (require_non_empty kind owner key d) = Returned tt
  <-> forall v, lookup key d = Some v -> truthy v = true.
Proof.
  unfold require_non_empty.
  destruct (lookup key d) as [v |]; [| split; [discriminate | reflexivity]].
  destruct (truthy v) eqn:Et; cbn [negb].
  - split; [now intros _ v0 [= <-] | reflexivity].
  - split; [discriminate | intros H; specialize (H v eq_refl); congruence].
Qed.

Lemma quiet_require_non_empty kind owner key d :
  quiet (require_non_empty kind owner key d).
Proof. unfold require_non_empty. quiet_auto. Qed.

#[export] Hint Resolve quiet_validate_calculation quiet_validate_filters
  quiet_require_non_empty : quiet.

Lemma validate_attribute_returns self k a sc :
  outcome (_validate_attribute self k a sc) = Returned tt
  <-> attribute_ok (k, a).
Proof.
  unfold _validate_attribute, attribute_ok. cbn [snd].
  destruct a as [| | | | | d];
    try (split; [discriminate | intros (d0 & E & _); discriminate]).
  rewrite !outcome_seq_returns by framed_tac.
  rewrite !require_non_empty_returns.
  split.
  - intros (Hn & Hd & Hc & Hcalc & Hf).
    exists d. split; [reflexivity |].
    split; [assumption |]. split; [assumption |].
    split.
    + intros c E. rewrite E in Hcalc.
      now apply validate_calculation_returns.
    + intros f E. rewrite E in Hf. now apply validate_filters_returns.
  - intros (d0 & [= <-] & Hn & Hd & Hcalc & Hf).
    split; [assumption |]. split; [assumption |].
    split; [intros v E; now apply calculation_ok_truthy, Hcalc |].
    split.
    + destruct (lookup "calculation" d) as [c |]; [| reflexivity].
      now apply validate_calculation_returns, Hcalc.
    + destruct (lookup "filter" d) as [f |]; [| reflexivity].
      now apply validate_filters_returns, Hf.
Qed.

Lemma quiet_validate_attribute self k a sc :
  quiet (_validate_attribute self k a sc).
Proof. unfold _validate_attribute. quiet_auto. Qed.

#[export] Hint Resolve quiet_validate_attribute : quiet.

Lemma validate_attributes_returns self attributes sc :
  outcome (_validate_attributes self attributes sc) = Returned tt
  <-> exists d, attributes = VDict d /\ Forall attribute_ok d.
Proof.
  unfold _validate_attributes.
  destruct attributes as [| | | | | d];
    try (split; [discriminate | intros (d0 & E & _); discriminate]).
  rewrite for_each_returns by (intros [k v]; framed_tac).
  rewrite (Forall_iff _ attribute_ok d).
  - split; [eauto | now intros (d0 & [= <-] & H)].
  - intros [k v]. apply validate_attribute_returns.
Qed.

Lemma quiet_validate_attributes self attributes sc :
  quiet (_validate_attributes self attributes sc).
Proof. unfold _validate_attributes. quiet_auto. Qed.

Lemma validate_metric_keys_returns self k d :
  outcome (_validate_metric_keys self k d) = Returned tt
  <-> Forall (fun key => In key metric_valid_keys) (keys d).
Proof.
  unfold _validate_metric_keys. cbv zeta.
  rewrite for_each_returns by (intros y; framed_tac).
  apply Forall_iff. intros key. rewrite <- mem_In.
  destruct (mem key metric_valid_keys); cbn [negb];
    split; try reflexivity; discriminate.
Qed.

Lemma quiet_validate_metric_keys self k d :
  quiet (_validate_metric_keys self k d).
Proof. unfold _validate_metric_keys. quiet_auto. Qed.

#[export] Hint Resolve quiet_validate_metric_keys : quiet.

(** As [validate] calls it: with the name of the schema for [schema]. *)
Lemma validate_metric_returns self k metric name :
  outcome (_validate_metric self k metric (VStr name)) = Returned tt
  <-> metric_ok (k, metric).
Proof.
  unfold _validate_metric, metric_ok. cbn [snd].
  destruct metric as [| | | | | d];
    try (split; [discriminate | intros (d0 & n0 & c0 & E & _); discriminate]).
  rewrite !outcome_seq_returns by framed_tac.
  rewrite !require_non_empty_returns.
  rewrite outcome_bind_returns by framed_tac.
  split.
  - intros (Hpre & Hn & Hc & Hf & (c & Hget & H)).
    rewrite outcome_seq_returns in H by framed_tac.
    destruct H as [Hcalc Hkeys].
    unfold has in Hpre.
    destruct (lookup "name" d) as [nm |] eqn:En; [| discriminate Hpre].
    unfold outcome, py_getitem in Hget.
    destruct (lookup "calculation" d) as [c' |] eqn:Ec; [| discriminate Hget].
    injection Hget as ->.
    exists d, nm, c.
    split; [reflexivity |]. split; [exact En |].
    split; [now apply Hn |]. split; [exact Ec |].
    split; [now apply validate_calculation_returns |].
    split.
    + intros f E. rewrite E in Hf.
      destruct (is_str f); [reflexivity | discriminate Hf].
    + now apply validate_metric_keys_returns in Hkeys.
  - intros (d0 & nm & c & [= <-] & En & Hn & Ec & Hcalc & Hf & Hkeys).
    unfold has. rewrite En, Ec. cbn [negb orb].
    split; [reflexivity |].
    split; [now intros v [= <-] |].
    split; [intros v [= <-]; now apply calculation_ok_truthy |].
    split.
    { destruct (lookup "function" d) as [f |] eqn:E; [| reflexivity].
      now rewrite (Hf f eq_refl). }
    exists c. split.
    { unfold outcome, py_getitem. now rewrite Ec. }
    rewrite outcome_seq_returns by framed_tac.
    split; [now apply validate_calculation_returns |].
    now apply validate_metric_keys_returns.
Qed.

Lemma quiet_validate_metric self k metric sc :
  quiet (_validate_metric self k metric sc).
Proof. unfold _validate_metric. quiet_auto. Qed.

#[export] Hint Resolve quiet_validate_metric : quiet.

Lemma validate_metrics_returns self metrics name :
  outcome (_validate_metrics self metrics (VStr name)) = Returned tt
  <-> exists d, metrics = VDict d /\ Forall metric_ok d.
Proof.
  unfold _validate_metrics.
  destruct metrics as [| | | | | d];
    try (split; [discriminate | intros (d0 & E & _); discriminate]).
  rewrite for_each_returns by (intros [k v]; framed_tac).
  rewrite (Forall_iff _ metric_ok d).
  - split; [eauto | now intros (d0 & [= <-] & H)].
  - intros [k v]. apply validate_metric_returns.
Qed.

Lemma quiet_validate_metrics self metrics sc :
  quiet (_validate_metrics self metrics sc).
Proof. unfold _validate_metrics. quiet_auto. Qed.

Lemma binding_check_returns key value :
  outcome
    (if negb (Re.re_match false source_key_pattern key) then
       error [Txt "Invalid key format: "; Fmt (VStr key);
              Txt ". Expected format 'schema.<name>'."] ;;
       raise (InvalidKeyError (VStr key)
                (VStr "Expected format 'schema.<name>'"))
     else
       match match value with
             | VDict b => lookup "columns" b
             | _ => None
             end
       with
       | None =>
           error [Txt "Key '"; Fmt (VStr key);
                  Txt "' must be a dictionary containing a 'columns' key."] ;;
           raise (InvalidFormatError (VStr key)
                    (VStr "must be a dictionary containing a 'columns' key"))
       | Some columns =>
           if match columns with
              | VList l => forallb is_str l
              | _ => false
              end
           then ret tt
           else
             error [Txt "'columns' for source "; Fmt (VStr key);
                    Txt " must be a list of strings."] ;;
             raise (InvalidFormatError (VStr "columns")
                      (VStr ("a list of strings for source " ++ key)))
       end)%py
  = Returned tt
  <-> binding_ok (key, value).
Proof.
  unfold binding_ok, all_strings. cbn [fst snd].
  rewrite <- source_key_pattern_spec.
  destruct (Re.re_match false source_key_pattern key); cbn [negb];
    [| split; [discriminate | intros [H _]; discriminate H]].
  destruct value as [| | | | | b];
    try (split; [discriminate
                | intros (_ & b0 & c0 & E & _); discriminate]).
  destruct (lookup "columns" b) as [cols |] eqn:Ec;
    [| split; [discriminate
              | intros (_ & b0 & c0 & [= <-] & E' & _); congruence]].
  destruct cols as [| | | | l |];
    try (split; [discriminate
                | intros (_ & bb & cc & [= <-] & E' & _); congruence]).
  destruct (forallb is_str l) eqn:E.
  - split; [| reflexivity]. intros _. split; [reflexivity |].
    exists b, l. split; [reflexivity |]. split; [exact Ec |].
    apply Forall_forall. now apply forallb_forall.
  - split; [discriminate |].
    intros (_ & b0 & c0 & [= <-] & E' & H).
    assert (c0 = l) as -> by congruence.
    rewrite Forall_forall in H. apply forallb_forall in H. congruence.
Qed.

Lemma validate_source_returns self source :
  outcome (_validate_source self source) = Returned tt <-> source_ok source.
Proof.
  unfold _validate_source, source_ok.
  destruct source as [| | | | | d];
    try (split; [discriminate
                | intros [E | (d0 & E & _)]; discriminate]).
  - split; [now left | reflexivity].
  - rewrite for_each_returns by (intros [k v]; framed_tac).
    rewrite (Forall_iff _ binding_ok d).
    + split; [eauto | intros [E | (d0 & [= <-] & H)];
                        [discriminate | assumption]].
    + intros [k v]. apply binding_check_returns.
Qed.

Lemma quiet_validate_source self source : quiet (_validate_source self source).
Proof. unfold _validate_source. quiet_auto. Qed.

End SemanticsReturnsFacts.

(* ================================================================= *)
(** ** Semantics validator: from a source key to a schema file *)

Module ResolutionFacts.
Import SemanticsValidator Format FormatFacts.

Lemma split_chars_cons sep l1 l2 :
  ~ In sep l1 ->
  split_chars sep (l1 ++ sep :: l2) = l1 :: split_chars sep l2.
Proof.
  induction l1 as [| c l1 IH]; intros H; simpl.
  - now rewrite Ascii.eqb_refl.
  - destruct (Ascii.eqb c sep) eqn:E.
    + apply Ascii.eqb_eq in E. subst. contradiction H. now left.
    + rewrite IH; [reflexivity |]. intros Hin. apply H. now right.
Qed.

Lemma split_chars_parts sep l :
  Forall (fun p => ~ In sep p) (split_chars sep l).
Proof.
  induction l as [| c l IH]; simpl.
  - constructor; [tauto | constructor].
  - destruct (Ascii.eqb c sep) eqn:E.
    + constructor; [tauto | assumption].
    + destruct (split_chars sep l) as [| w ws].
      * constructor; [| constructor]. intros [-> | []].
        now rewrite Ascii.eqb_refl in E.
      * inversion IH as [| ? ? Hw Hws]; subst.
        constructor; [| assumption]. intros [-> | Hin].
        -- now rewrite Ascii.eqb_refl in E.
        -- contradiction.
Qed.

Lemma chars_str l : chars (str l) = l.
Proof. apply list_ascii_of_string_of_list_ascii. Qed.

Lemma str_chars s : str (chars s) = s.
Proof. apply string_of_list_ascii_of_string. Qed.

Lemma str_app a b : str (a ++ b) = (str a ++ str b)%string.
Proof.
  induction a as [| c a IH]; simpl; [reflexivity |]. now rewrite IH.
Qed.

(** No part of a split contains the separator. *)
Lemma split_part_no_dot k i name :
  nth_error (split "." k) i = Some name -> ~ In "."%char (chars name).
Proof.
  unfold split. intros H. apply nth_error_In in H.
  apply in_map_iff in H as (p & <- & Hp).
  rewrite chars_str.
  pose proof (split_chars_parts "." (chars k)) as Hall.
  rewrite Forall_forall in Hall. now apply Hall.
Qed.

Lemma word_no_dot n :
  Forall (fun x => is_word x = true) n -> ~ In "."%char n.
Proof.
  intros H Hin. rewrite Forall_forall in H. apply H in Hin.
  discriminate Hin.
Qed.

Lemma line_end_no_dot q : line_end q -> ~ In "."%char q.
Proof.
  intros [-> | ->]; [tauto |]. intros [H | []]. discriminate H.
Qed.

(** The schema a well-formed source key names. *)
Lemma source_key_resolves k :
  source_key k ->
  exists name,
    k = ("schema." ++ name)%string
    /\ nth_error (split "." k) 1 = Some name.
Proof.
  intros (n & q & Hk & [_ Hn] & Hq).
  exists (str (n ++ q)). split.
  - rewrite <- (str_chars k), Hk, str_app. reflexivity.
  - unfold split. rewrite Hk.
    change (chars "schema." ++ n ++ q)
      with (chars "schema" ++ "."%char :: n ++ q).
    rewrite split_chars_cons.
    + rewrite split_chars_no_sep; [reflexivity |].
      intros Hin. apply in_app_or in Hin as [Hin | Hin].
      * now apply (word_no_dot Hn).
      * now apply (line_end_no_dot Hq).
    + simpl. intuition discriminate.
Qed.

Lemma find_schema_skip files1 s c files2 name :
  path_stem s <> name ->
  find_schema (files1 ++ (s, c) :: files2) name
  = find_schema (files1 ++ files2) name.
Proof.
  intros H. induction files1 as [| [s1 c1] files1 IH]; simpl.
  - destruct (String.eqb (path_stem s) name) eqn:E; [| reflexivity].
    apply String.eqb_eq in E. contradiction.
  - now rewrite IH.
Qed.

End ResolutionFacts.

(** X13 ([SemanticsValidator.validate], [_validate_source]): for a source
    key of the form [schema.<name>], as [_validate_source] demands, the
    schema that [validate] looks up, [schema_key.split('.')[1]], is
    exactly [<name>]. *)
Theorem X13_well_formed_source_key_names_its_schema :
  forall k : string,
    Re.re_match false SemanticsValidator.source_key_pattern k = true ->
    exists name,
      k = ("schema." ++ name)%string
      /\ nth_error (split "." k) 1 = Some name
      /\ ~ In "."%char (chars name).
Proof.
  intros k H. apply FormatFacts.source_key_pattern_spec in H.
  destruct (ResolutionFacts.source_key_resolves H) as (name & Hk & Hn).
  exists name. split; [assumption |]. split; [assumption |].
  now apply (@ResolutionFacts.split_part_no_dot k 1 name).
Qed.

Lemma X13_well_formed_source_key_names_its_schema_witness :
  exists name,
    "schema.orders" = ("schema." ++ name)%string
    /\ nth_error (split "." "schema.orders") 1 = Some name
    /\ ~ In "."%char (chars name).
Proof.
  apply (X13_well_formed_source_key_names_its_schema "schema.orders").
  vm_compute. reflexivity.
Defined.

(** X14 ([SemanticsValidator.validate], the search for the relevant
    schema): the name looked up is a part of a split at the dots, so a
    schema file whose stem contains a dot, such as [orders.v2.yml], is
    never the relevant schema of any source key: the search gives what
    it gives without the file. *)
Theorem X14_schema_file_with_dotted_stem_is_never_found :
  forall (files1 : list (string * value)) (s : string) (content : value)
         (files2 : list (string * value)) (schema_key name : string),
    nth_error (split "." schema_key) 1 = Some name ->
    In "."%char (chars (path_stem s)) ->
    SemanticsValidator.find_schema (files1 ++ (s, content) :: files2) name
    = SemanticsValidator.find_schema (files1 ++ files2) name.
Proof.
  intros files1 s content files2 schema_key name Hn Hs.
  apply ResolutionFacts.find_schema_skip. intros E.
  apply (@ResolutionFacts.split_part_no_dot schema_key 1 name Hn).
  now rewrite <- E.
Qed.

Lemma X14_schema_file_with_dotted_stem_is_never_found_witness :
  SemanticsValidator.find_schema
    ([] ++ ("orders.v2.yml", VDict []) :: Scenarios.schema_files) "orders"
  = SemanticsValidator.find_schema ([] ++ Scenarios.schema_files) "orders".
Proof.
  apply (@X14_schema_file_with_dotted_stem_is_never_found
           [] "orders.v2.yml" (VDict []) Scenarios.schema_files
           "schema.orders" "orders").
  - reflexivity.
  - vm_compute. tauto.
Defined.

Module SemanticsRaisesFacts.
Import SemanticsValidator SemanticsLog SemanticsAccepts SemanticsAcceptsFacts.

(** Called with the name of the schema, [_validate_metric] never gets to
    its own report of a missing [name] or [calculation]. *)
Lemma validate_metric_dead_branch self k metric name :
  raises_only (fun e => e <> MissingKeyError (VStr "name or calculation"))
    (_validate_metric self k metric (VStr name)).
Proof.
  unfold _validate_metric, require_non_empty, _validate_calculation,
    _validate_metric_keys.
  raises_auto ltac:(discriminate).
Qed.

End SemanticsRaisesFacts.

(* ================================================================= *)
(** ** The semantics validator, check by check *)

(** X15 ([_validate_source]): a [source] passes, with nothing logged,
    exactly when it is null or a mapping each key of which has the form
    [schema.<name>], [<name>] a non-empty run of word characters, and is
    bound to a mapping whose [columns] are a list of strings.  No schema
    file is consulted. *)
Theorem X15_source_passes_iff_well_formed :
  forall (self : SemanticsValidator.t) (source : value) (st : logger),
    SemanticsValidator._validate_source self source st = (Returned tt, st)
    <-> SemanticsAccepts.source_ok source.
Proof.
  intros self source st. rewrite quiet_returns.
  - apply SemanticsReturnsFacts.validate_source_returns.
  - apply SemanticsAcceptsFacts.framed_validate_source.
  - apply SemanticsReturnsFacts.quiet_validate_source.
Qed.

(** X16 ([_validate_attributes], [_validate_attribute]): the attributes
    pass, with nothing logged, exactly when they are a mapping of
    mappings in each of which [name] and [desc], if present, are truthy,
    [calculation], if present, is a string of the calculation grammar,
    and [filter], if present, is a list of strings.  No key is required
    and none is refused. *)
Theorem X16_attributes_pass_iff_well_formed :
  forall (self : SemanticsValidator.t) (attributes schema : value)
         (st : logger),
    SemanticsValidator._validate_attributes self attributes schema st
      = (Returned tt, st)
    <-> exists d,
          attributes = VDict d /\ Forall SemanticsAccepts.attribute_ok d.
Proof.
  intros self attributes schema st. rewrite quiet_returns.
  - apply SemanticsReturnsFacts.validate_attributes_returns.
  - apply SemanticsAcceptsFacts.framed_validate_attributes.
  - apply SemanticsReturnsFacts.quiet_validate_attributes.
Qed.

(** X17 ([_validate_metrics], [_validate_metric], as [validate] calls
    them, with the name of the schema): the metrics pass, with nothing
    logged, exactly when they are a mapping of mappings each with a
    truthy [name], a [calculation] that is a string of the calculation
    grammar, a string [function] if any, and no key outside [name],
    [calculation], [function], [desc], [filter], [synonym]. *)
Theorem X17_metrics_pass_iff_well_formed :
  forall (self : SemanticsValidator.t) (metrics : value) (name : string)
         (st : logger),
    SemanticsValidator._validate_metrics self metrics (VStr name) st
      = (Returned tt, st)
    <-> exists d, metrics = VDict d /\ Forall SemanticsAccepts.metric_ok d.
Proof.
  intros self metrics name st. rewrite quiet_returns.
  - apply SemanticsReturnsFacts.validate_metrics_returns.
  - apply SemanticsAcceptsFacts.framed_validate_metrics.
  - apply SemanticsReturnsFacts.quiet_validate_metrics.
Qed.

Lemma X17_metrics_pass_iff_well_formed_witness :
  exists d,
    VDict [("total_orders", Scenarios.total_orders)] = VDict d
    /\ Forall SemanticsAccepts.metric_ok d.
Proof.
  apply (proj1 (X17_metrics_pass_iff_well_formed Scenarios.scenario3
                  (VDict [("total_orders", Scenarios.total_orders)])
                  "orders" [])).
  vm_compute. reflexivity.
Defined.

(** X18 ([_validate_metric], lines 223-226): called with the name of the
    schema, as [validate] does, the metric check never raises its
    MissingKeyError for a missing [name] or [calculation]: the lookup in
    the schema name fails first. *)
Theorem X18_metric_missing_key_report_unreachable :
  forall (self : SemanticsValidator.t) (metric_key : string) (metric : value)
         (name : string) (st st' : logger) (e : exn),
    SemanticsValidator._validate_metric self metric_key metric (VStr name) st
      = (Raised e, st') ->
    e <> MissingKeyError (VStr "name or calculation").
Proof.
  intros self metric_key metric name st st' e H.
  rewrite (framed_run
             (SemanticsAcceptsFacts.framed_validate_metric
                self metric_key metric (VStr name)) st) in H.
  apply (@SemanticsRaisesFacts.validate_metric_dead_branch
           self metric_key metric name e).
  congruence.
Qed.

Lemma X18_metric_missing_key_report_unreachable_witness :
  TypeError <> MissingKeyError (VStr "name or calculation").
Proof.
  apply (@X18_metric_missing_key_report_unreachable Scenarios.scenario3
           "total_orders" (VDict [("calculation", VStr "COUNT(order_id)")])
           "orders" [] []).
  reflexivity.
Defined.

(* ================================================================= *)
(** ** Semantics validator: the referenced columns *)

Module ResolvedFacts.
Import SemanticsValidator SemanticsLog Referential ReferentialFacts Resolved
  SemanticsAccepts SemanticsAcceptsFacts.

Lemma validate_referenced_columns_present self name sch cm cols st :
  lookup "columns" sch = Some (VDict cm) ->
  missing_in cm cols = [] ->
  validate_referenced_columns self name (VDict sch) (VList (map VStr cols)) st
  = (Returned tt, st ++ [verified name]).
Proof.
  intros Hc Hm. unfold validate_referenced_columns.
  unfold bind at 1. unfold py_get. rewrite Hc. unfold ret at 1.
  unfold bind at 1. unfold py_iter. unfold ret at 1.
  unfold bind at 1. rewrite filter_missing, Hm. reflexivity.
Qed.

Lemma validate_referenced_columns_iff self name sch cm cols st :
  lookup "columns" sch = Some (VDict cm) ->
  validate_referenced_columns self name (VDict sch) (VList (map VStr cols)) st
    = (Returned tt, st ++ [verified name])
  <-> missing_in cm cols = [].
Proof.
  intros Hc. split.
  - intros H. destruct (missing_in cm cols) as [| c l] eqn:E; [reflexivity |].
    rewrite (@validate_referenced_columns_missing self name sch cm cols st Hc)
      in H by (rewrite E; discriminate).
    discriminate H.
  - now apply validate_referenced_columns_present.
Qed.

End ResolvedFacts.

(** X19 ([validate_referenced_columns]): against a schema whose [columns]
    are a mapping, a list of referenced column names is verified, with
    the one record [All column references are verified in <name>.yml
    schema file.], exactly when each of them is a key of that mapping. *)
Theorem X19_referenced_columns_verified_iff_none_missing :
  forall (self : SemanticsValidator.t) (schema_name : string)
         (sch cm : list (string * value)) (cols : list string) (st : logger),
    lookup "columns" sch = Some (VDict cm) ->
    SemanticsValidator.validate_referenced_columns self schema_name
      (VDict sch) (VList (map VStr cols)) st
      = (Returned tt, st ++ [Resolved.verified schema_name])
    <-> Forall (fun c => has c cm = true) cols.
Proof.
  intros self schema_name sch cm cols st Hc.
  rewrite (@ResolvedFacts.validate_referenced_columns_iff
             self schema_name sch cm cols st Hc).
  unfold Referential.missing_in.
  induction cols as [| c cols IH]; cbn [filter].
  - split; [constructor | reflexivity].
  - destruct (has c cm) eqn:E; cbn [negb].
    + rewrite IH. split.
      * intros H. now constructor.
      * intros H. now inversion H.
    + split; [discriminate |]. intros H. inversion H. congruence.
Qed.

Lemma X19_referenced_columns_verified_iff_none_missing_witness :
  Forall (fun c => has c [("order_id", Scenarios.order_id_bare)] = true)
    ["order_id"].
Proof.
  apply (@X19_referenced_columns_verified_iff_none_missing
           Scenarios.scenario3 "orders"
           [("columns", VDict [("order_id", Scenarios.order_id_bare)])]
           [("order_id", Scenarios.order_id_bare)] ["order_id"] []).
  - reflexivity.
  - reflexivity.
Defined.

(* ================================================================= *)
(** ** Violations are logged before they are raised *)

Lemma ends_in_error_app l1 l2 : ends_in_error l2 -> ends_in_error (l1 ++ l2).
Proof.
  intros (l & r & -> & H). exists (l1 ++ l), r.
  now rewrite app_assoc.
Qed.

Lemma reports_bind A B (m : M A) (f : A -> M B) :
  framed m -> (forall a, framed (f a)) ->
  reports m -> (forall a, reports (f a)) ->
  reports (bind m f).
Proof.
  intros Hm Hf H1 H2 e He Hv.
  rewrite outcome_bind in He by assumption.
  rewrite emitted_bind by assumption.
  destruct (outcome m) as [a | e'] eqn:E.
  - apply ends_in_error_app. now apply (H2 a e).
  - injection He as ->. rewrite app_nil_r. now apply (H1 e).
Qed.

Lemma reports_for_each A (l : list A) (body : A -> M unit) :
  (forall x, framed (body x)) -> (forall x, reports (body x)) ->
  reports (for_each l body).
Proof.
  intros Hf H. induction l as [| x l IH]; cbn [for_each].
  - intros e He. discriminate He.
  - apply reports_bind; auto. intros _. now apply framed_for_each.
Qed.

(** [logger.error(...)] and then something that logs nothing more. *)
Lemma reports_error_then A msg (k : M A) :
  silent k -> reports (bind (error msg) (fun _ => k)).
Proof.
  intros Hk e _ _. exists [], (Record_ ERROR msg None).
  split; [| reflexivity].
  unfold emitted, bind, error, emit. now rewrite (silent_run Hk).
Qed.

Lemma reports_unrecognised A (m : M A) :
  raises_only (fun e => is_violation e = false) m -> reports m.
Proof. intros H e He Hv. rewrite (H e He) in Hv. discriminate Hv. Qed.

Lemma raises_only_filter_m A P (f : A -> M bool) (l : list A) :
  (forall x, framed (f x)) ->
  (forall x, In x l -> raises_only P (f x)) ->
  raises_only P (filter_m f l).
Proof.
  intros Hf. induction l as [| x l IH]; intros H; cbn [filter_m].
  - intros e He. discriminate He.
  - apply raises_only_bind.
    + apply Hf.
    + intros y. apply emits_bind; [now apply emits_filter_m |].
      intros ys. apply emits_ret.
    + apply H. now left.
    + intros y _. apply raises_only_bind.
      * now apply emits_filter_m.
      * intros ys. apply emits_ret.
      * apply IH. intros z Hz. apply H. now right.
      * intros ys _ e He. discriminate He.
Qed.

Lemma py_get_raises c k d :
  raises_only (fun e => e = AttributeError) (py_get c k d).
Proof.
  intros e. unfold py_get.
  destruct c; try (now intros [= <-]).
  destruct (lookup k d0); discriminate.
Qed.

Lemma py_keys_raises c : raises_only (fun e => e = AttributeError) (py_keys c).
Proof.
  intros e. unfold py_keys.
  destruct c; try (now intros [= <-]); discriminate.
Qed.

Create HintDb reports.

Ltac unrecognised_tac :=
  apply reports_unrecognised;
  first
    [ apply (raises_only_weaken (@py_in_raises _ _)); now intros ? ->
    | apply (raises_only_weaken (@py_getitem_raises _ _));
      now intros ? [-> | ->]
    | apply (raises_only_weaken (@py_get_raises _ _ _)); now intros ? ->
    | apply (raises_only_weaken (@py_keys_raises _)); now intros ? ->
    | apply (raises_only_weaken (@py_iter_raises _)); now intros ? -> ].

Ltac reports_step :=
  match goal with
  | |- reports ((fun _ => _) _) => cbv beta
  | |- reports (let _ := _ in _) => cbv zeta
  | |- reports (ret _) => let H := fresh in intros ? H; discriminate H
  | |- reports (info _) => let H := fresh in intros ? H; discriminate H
  | |- reports (raise _) =>
      let H := fresh in let Hv := fresh in
      intros ? H Hv; injection H as <-; discriminate Hv
  | |- reports (bind (error _) _) =>
      apply reports_error_then; unfold silent; emits_auto idtac
  | |- reports (bind _ _) =>
      apply reports_bind; [framed_tac | framed_tac | | intros ?]
  | |- reports (for_each _ _) =>
      apply reports_for_each; [framed_tac | intros ?]
  | |- reports (py_in _ _) => unrecognised_tac
  | |- reports (py_getitem _ _) => unrecognised_tac
  | |- reports (py_get _ _ _) => unrecognised_tac
  | |- reports (py_keys _) => unrecognised_tac
  | |- reports (py_iter _) => unrecognised_tac
  | |- reports (match ?x with _ => _ end) => destruct x eqn:?
  | |- reports (if ?x then _ else _) => destruct x eqn:?
  | |- reports _ => solve [auto with reports]
  end.

Ltac reports_auto := repeat reports_step.

Module SemanticsReportsFacts.
Import SemanticsValidator SemanticsLog SemanticsAccepts SemanticsAcceptsFacts.

Lemma reports_validate_attributes self a sc :
  reports (_validate_attributes self a sc).
Proof.
  unfold _validate_attributes, _validate_attribute, require_non_empty,
    _validate_calculation, _validate_filters.
  reports_auto.
Qed.

Lemma reports_validate_metrics self m sc :
  reports (_validate_metrics self m sc).
Proof.
  unfold _validate_metrics, _validate_metric, require_non_empty,
    _validate_calculation, _validate_metric_keys.
  reports_auto.
Qed.

Lemma reports_validate_referenced_columns self n sc cols :
  reports (validate_referenced_columns self n sc cols).
Proof.
  unfold validate_referenced_columns.
  apply reports_bind; [framed_tac | framed_tac | unrecognised_tac |].
  intros schema_columns.
  apply reports_bind; [framed_tac | framed_tac | unrecognised_tac |].
  intros columns.
  apply reports_bind; [framed_tac | framed_tac | |].
  - apply reports_unrecognised, raises_only_filter_m.
    + intros col. framed_tac.
    + intros col _.
      apply raises_only_bind; [framed_tac | framed_tac | |].
      * apply (raises_only_weaken (py_in_raises col schema_columns)).
        now intros ? ->.
      * intros present _ e He. discriminate He.
  - intros missing. reports_auto.
Qed.

(** [validate_semantics] catches whatever its checks raise. *)
Lemma validate_semantics_returns self key :
  outcome (validate_semantics self key) = Returned tt.
Proof.
  unfold validate_semantics, outcome, try_except.
  match goal with
  | |- fst (match ?b with _ => _ end) = _ => destruct b as [[[] | e] st']
  end; [reflexivity |].
  destruct e; reflexivity.
Qed.

Lemma reports_validate_semantics self key :
  reports (validate_semantics self key).
Proof.
  intros e He. rewrite validate_semantics_returns in He. discriminate He.
Qed.

#[export] Hint Resolve reports_validate_attributes reports_validate_metrics
  reports_validate_referenced_columns reports_validate_semantics : reports.

Lemma reports_validate_binding self files source key :
  reports (validate_binding self files source key).
Proof. unfold validate_binding. reports_auto. Qed.

#[export] Hint Resolve reports_validate_binding : reports.

Lemma reports_validate self files : reports (validate self files).
Proof. unfold validate. reports_auto. Qed.

End SemanticsReportsFacts.

(** X20 ([SemanticsValidator.validate] and all it calls): whenever it
    raises one of the four recognised violations, the last record logged
    is at level ERROR: no violation leaves the validator without having
    been logged just before. *)
Theorem X20_semantics_violation_logged_before_raised :
  forall (self : SemanticsValidator.t)
         (files : option (list (string * value))) (st st' : logger)
         (e : exn),
    SemanticsValidator.validate self files st = (Raised e, st') ->
    is_violation e = true ->
    exists l r, st' = st ++ l ++ [r] /\ lvl r = ERROR.
Proof.
  intros self files st st' e H Hv.
  rewrite (framed_run (SemanticsFacts.framed_validate self files) st) in H.
  injection H as He <-.
  destruct (SemanticsReportsFacts.reports_validate self files He Hv)
    as (l & r & -> & Hr).
  eauto.
Qed.

Lemma X20_semantics_violation_logged_before_raised_witness :
  exists l r,
    [Record_ ERROR [Txt "No schema files initialized yet."] None]
    = [] ++ l ++ [r] /\ lvl r = ERROR.
Proof.
  apply (@X20_semantics_violation_logged_before_raised
           Scenarios.scenario3 None []
           [Record_ ERROR [Txt "No schema files initialized yet."] None]
           (MissingKeyError (VStr "No schema files initialized yet."))).
  - reflexivity.
  - reflexivity.
Defined.

(* ================================================================= *)
(** ** The drivers of [main.py] *)

Module MainFacts.
Import MainLog.

Lemma schema_body_run filename schema st :
  (info Main.separator ;;
   info [Txt "Validating schema from "; Fmt (VStr filename); Txt "..."] ;;
   try_except
     (SchemaValidator.validate (SchemaValidator.Build schema filename))
     (fun e =>
        error [Txt "Schema validation failed for "; Fmt (VStr filename);
               Txt ": "; FmtExn e] ;;
        info Main.separator))%py st
  = (Returned tt, st ++ schema_report (filename, schema)).
Proof.
  unfold bind, info, emit, try_except.
  rewrite SchemaFacts.validate_run.
  unfold schema_report, schema_verdict. rewrite <- !app_assoc. reflexivity.
Qed.

Lemma validate_schemas_run schemas : forall st,
  Main.validate_schemas schemas st
  = (Returned tt, st ++ flat_map schema_report schemas).
Proof.
  unfold Main.validate_schemas.
  induction schemas as [| [filename schema] schemas IH]; intros st.
  - cbn. now rewrite app_nil_r.
  - cbn [for_each flat_map]. unfold bind at 1.
    rewrite schema_body_run, IH. now rewrite app_assoc.
Qed.

Lemma schema_report_not_failed entry filename e :
  ~ In (schema_failed filename e) (schema_report entry).
Proof.
  destruct entry as [f s]. unfold schema_report, schema_verdict.
  intros [H | [H | [H | []]]]; try discriminate H.
  destruct (outcome (SchemaLog.checks (SchemaValidator.Build s f)))
    as [u | e']; [discriminate H |].
  destruct (is_violation e'); discriminate H.
Qed.

Lemma semantics_body_run schema_files filename semantics st :
  (info Main.separator ;;
   info [Txt "Validating semantics from "; Fmt (VStr filename); Txt "..."] ;;
   try_except
     (SemanticsValidator.validate
        (SemanticsValidator.Build filename semantics) (Some schema_files) ;;
      info [Fmt (VStr filename); Txt " semantics is valid."])
     (fun e =>
        error [Txt "Semantics validation failed for "; Fmt (VStr filename);
               Txt ": "; FmtExn e]) ;;
   info Main.separator)%py st
  = (Returned tt, st ++ semantics_report schema_files (filename, semantics)).
Proof.
  unfold bind, info, error, emit, try_except.
  rewrite (framed_run
             (SemanticsFacts.framed_validate
                (SemanticsValidator.Build filename semantics)
                (Some schema_files))).
  unfold semantics_report. cbv zeta.
  destruct (outcome (SemanticsValidator.validate
                       (SemanticsValidator.Build filename semantics)
                       (Some schema_files))) as [[] | e];
    rewrite <- !app_assoc; reflexivity.
Qed.

Lemma validate_semantics_run schema_files semantics_files : forall st,
  Main.validate_semantics semantics_files schema_files st
  = (Returned tt,
     st ++ flat_map (semantics_report schema_files) semantics_files).
Proof.
  unfold Main.validate_semantics.
  induction semantics_files as [| [filename semantics] semantics_files IH];
    intros st.
  - cbn. now rewrite app_nil_r.
  - cbn [for_each flat_map]. unfold bind at 1.
    rewrite semantics_body_run, IH. now rewrite app_assoc.
Qed.

End MainFacts.

(** X21 ([validate_schemas]): the driver never raises and logs, document
    after document, exactly three records: the separator, the
    announcement of the file, and the one record of
    [SchemaValidator.validate].  Its own handler is never entered: no
    [Schema validation failed] record and no closing separator is ever
    logged. *)
Theorem X21_schema_driver_logs_three_records_per_document :
  forall (schemas : list (string * value)) (st : logger),
    Main.validate_schemas schemas st
      = (Returned tt, st ++ flat_map MainLog.schema_report schemas)
    /\ List.length (flat_map MainLog.schema_report schemas)
       = (3 * List.length schemas)%nat
    /\ forall filename e,
         ~ In (MainLog.schema_failed filename e)
              (flat_map MainLog.schema_report schemas).
Proof.
  intros schemas st. split; [apply MainFacts.validate_schemas_run |]. split.
  - induction schemas as [| [f s] schemas IH]; [reflexivity |].
    cbn [flat_map List.length]. rewrite length_app, IH. cbn. lia.
  - intros filename e H. apply in_flat_map in H as (entry & _ & H).
    now apply MainFacts.schema_report_not_failed in H.
Qed.

(** X22 ([validate_semantics] of [main.py]): the driver never raises and
    logs, document after document: the separator, the announcement of the
    file, what [SemanticsValidator.validate] logs, then
    [<file> semantics is valid.] if it returned and
    [Semantics validation failed for <file>: <error>] if it raised, and
    the separator.  What is logged for a document does not depend on the
    documents before it. *)
Theorem X22_semantics_driver_log_per_document :
  forall (semantics_files schema_files : list (string * value)) (st : logger),
    Main.validate_semantics semantics_files schema_files st
    = (Returned tt,
       st ++ flat_map (MainLog.semantics_report schema_files) semantics_files).
Proof.
  intros semantics_files schema_files st.
  apply MainFacts.validate_semantics_run.
Qed.

(* ================================================================= *)
(** ** Semantics validator: the documents on which [validate] returns *)

Module AcceptedFacts.
Import SemanticsValidator SemanticsLog Resolved SemanticsAccepts
  SemanticsAcceptsFacts SemanticsReturnsFacts.






End AcceptedFacts.


